(** * attentv-control: the statistics server, embedded and verified

    The server reads ad-play records from a DynamoDB table and object
    listings from S3, aggregates them and serves the results over HTTP.
    This file embeds the parts of the server the specification talks
    about and proves (or refutes) what the specification says of them.

    Line numbers are those of the server's source file, the Express
    application with the aggregate routes ([unnamed/part_001] in the
    sources at hand).

    Conventions of the embedding:
    - a JavaScript [number] that counts things is a [Z]; a duration or a
      ratio is a [Q] (exact arithmetic: the rounding of IEEE doubles is
      not modelled); a number that can be [NaN] is a [jsnum];
    - a JavaScript string is a [string]; the default comparison of
      [Array.prototype.sort] is [String.compare] (code units in order);
    - [Date.now()] is an explicit argument [now], in milliseconds;
    - a [Map] read by key only is a [gmap]; a [Map] or [Set] whose
      iteration order reaches the response is a list in insertion order;
    - a call of the AWS SDK is a function of the world; a [while] loop
      over store pages runs on fuel ([Pending] when it runs out);
    - the routes are taken past their cache lookup, where the response
      is computed. *)

From Stdlib Require Import ZArith QArith Qround Lia Lqa Bool.
From Stdlib Require Import Strings.String Strings.Ascii DecimalString DecimalNat.
From Stdlib Require Import Lists.List Sorting.Permutation Sorting.Sorted.
From stdpp Require Import gmap strings.

Import ListNotations.
Open Scope string_scope.
Open Scope list_scope.
Open Scope Z_scope.

(** ** The ephemeral cache (lines 55-87) *)

Module Cache.

(** [interface CacheEntry<T> { data: T; timestamp: number }] *)
Record CacheEntry (T : Type) := mkEntry { data : T; timestamp : Z }.
Arguments mkEntry {T} _ _.
Arguments data {T} _.
Arguments timestamp {T} _.

Definition CACHE_TTL : Z := 30000.
Definition AGGREGATE_CACHE_TTL : Z := 60000.

Section Ops.
Context {T : Type}.

(** [getCached(cache, key, ttl)] at clock reading [now]: the value
    read ([None] is the [null] of the source) and the map left behind,
    which differs from the one given only by the eviction. *)
Definition getCached (cache : gmap string (CacheEntry T)) (key : string)
    (ttl : Z) (now : Z) : option T * gmap string (CacheEntry T) :=
  match cache !! key with
  | None => (None, cache)
  | Some entry =>
      let age := now - timestamp entry in
      if age >? ttl then (None, delete key cache)
      else (Some (data entry), cache)
  end.

(** [setCached(cache, key, data)] at clock reading [now]. *)
Definition setCached (cache : gmap string (CacheEntry T)) (key : string)
    (d : T) (now : Z) : gmap string (CacheEntry T) :=
  <[key := mkEntry d now]> cache.
End Ops.

End Cache.

(** ** JavaScript values and built-ins the server relies on *)

Module JS.

(** A [number] that can be [NaN]. The server never divides by zero
    (every divisor is guarded), so no infinity arises. *)
Inductive jsnum := NaN | Num (q : Q).

Definition jsub (a b : jsnum) : jsnum :=
  match a, b with Num x, Num y => Num (x - y) | _, _ => NaN end.

Definition jdiv (a b : jsnum) : jsnum :=
  match a, b with Num x, Num y => Num (x / y) | _, _ => NaN end.

Definition jmul (a b : jsnum) : jsnum :=
  match a, b with Num x, Num y => Num (x * y) | _, _ => NaN end.

(** [Math.max(1, v)] *)
Definition max1 (v : jsnum) : jsnum :=
  match v with Num x => Num (if Qle_bool 1 x then x else 1) | NaN => NaN end.

(** [Math.round(v)]: the integer nearest to [v], ties upwards. *)
Definition round (v : jsnum) : jsnum :=
  match v with
  | Num x => Num (inject_Z (Qfloor (x + (1 # 2))))
  | NaN => NaN
  end.

(** [v > 0], false on [NaN]. *)
Definition positive (v : jsnum) : bool :=
  match v with Num x => negb (Qle_bool x 0) | NaN => false end.

(** [Array.prototype.sort(comparefn)]. ECMAScript asks for a stable
    sort and leaves the algorithm open; for a consistent comparator the
    outcome is the same for every stable algorithm. The model inserts
    the elements from the right, each before the first element it does
    not have to follow: [x] follows [y] when [comparefn(x, y) > 0], and
    a [NaN] from the comparator counts as [+0] (SortCompare). *)
Section Sort.
Context {A : Type} (comparefn : A -> A -> jsnum).

Fixpoint insert (x : A) (l : list A) : list A :=
  match l with
  | [] => [x]
  | y :: l' => if positive (comparefn x y) then y :: insert x l' else x :: l
  end.

Definition sort (l : list A) : list A := fold_right insert [] l.
End Sort.

(** [sort()] without a comparator, on an array of strings: SortCompare
    orders the strings by their code units. *)
Definition defaultCompare (x y : string) : jsnum :=
  match String.compare x y with
  | Lt => Num (-1)
  | Eq => Num 0
  | Gt => Num 1
  end.

Definition sortStrings : list string -> list string := sort defaultCompare.

(** [Array.prototype.slice(0, end)] for an integer [end]: a negative
    [end] counts from the end of the array. *)
Definition slice0 {A : Type} (l : list A) (e : Z) : list A :=
  let len := Z.of_nat (length l) in
  let final := if e <? 0 then Z.max (len + e) 0 else Z.min e len in
  firstn (Z.to_nat final) l.

(** [s.startsWith(p)], [s.endsWith(p)] *)
Fixpoint startsWith (s p : string) : bool :=
  match p, s with
  | EmptyString, _ => true
  | String c p', String d s' => Ascii.eqb c d && startsWith s' p'
  | String _ _, EmptyString => false
  end.

Fixpoint endsWith (s p : string) : bool :=
  String.eqb s p ||
  match s with
  | EmptyString => false
  | String _ s' => endsWith s' p
  end.

Fixpoint dropChars (n : nat) (s : string) : string :=
  match n, s with
  | O, _ => s
  | S n', String _ s' => dropChars n' s'
  | S _, EmptyString => EmptyString
  end.

(** [s.replace(p, '')] for a string pattern [p]: the first occurrence
    of [p] in [s] is removed, [s] is returned as it is when there is
    none. *)
Fixpoint removeFirst (s p : string) : string :=
  if startsWith s p then dropChars (String.length p) s
  else match s with
       | EmptyString => EmptyString
       | String c s' => String c (removeFirst s' p)
       end.

(** Truthiness of an optional string: [undefined] and [''] are falsy. *)
Definition truthyStr (o : option string) : bool :=
  match o with Some s => negb (String.eqb s "") | None => false end.

(** [arr.join(sep)] *)
Fixpoint join (sep : string) (l : list string) : string :=
  match l with
  | [] => ""
  | [x] => x
  | x :: l' => String.append x (String.append sep (join sep l'))
  end.

End JS.

(** ** Play records and the AWS SDK *)

(** A JSON value of a request body or of a key attribute. *)
Inductive JsVal := VStr (s : string) | VNum (n : Z) | VBool (b : bool) | VNull.

(** A DynamoDB key ([Record<string, any>]): an object, hence truthy
    whenever it is there. *)
Definition DbKey := list (string * JsVal).

(** The [timestamp] attribute of a record, an ISO-8601 string, stands
    for what the server does with it: [TsAbsent] is a missing or empty
    string (falsy), [TsAt ms] a string that [new Date] reads as the
    instant [ms] (milliseconds since the epoch), [TsInvalid] a non-empty
    string that [new Date] cannot read (an Invalid Date, of time NaN). *)
Inductive Timestamp := TsAbsent | TsInvalid | TsAt (ms : Z).

Record Item := mkItem {
  play_id : string;
  device_id : string;
  ad_filename : option string;
  timestamp : Timestamp;
  play_duration : option Q
}.

(** [!!item.timestamp] *)
Definition hasTimestamp (item : Item) : bool :=
  match timestamp item with TsAbsent => false | _ => true end.

(** [new Date(item.timestamp).getTime()], [None] for NaN. *)
Definition getTime (ts : Timestamp) : option Z :=
  match ts with TsAt ms => Some ms | _ => None end.

(** [new Date(item.timestamp || 0).getTime()] *)
Definition getTimeOr0 (ts : Timestamp) : option Z :=
  match ts with TsAbsent => Some 0 | TsInvalid => None | TsAt ms => Some ms end.

Definition timeNum (t : option Z) : JS.jsnum :=
  match t with Some ms => JS.Num (inject_Z ms) | None => JS.NaN end.

(** [item.play_duration || 0] *)
Definition durationOr0 (item : Item) : Q :=
  match play_duration item with
  | Some d => if Qeq_bool d 0 then 0%Q else d
  | None => 0%Q
  end.

(** [item.timestamp || null], the value of [lastPlayed]. *)
Definition timestampOrNull (ts : Timestamp) : option Timestamp :=
  match ts with TsAbsent => None | _ => Some ts end.

(** What the SDK rejects with: an [Error] object, whose [message] and
    [name] are strings. *)
Record Error := mkError { message : string; name : string }.

(** The outcome of an awaited call or of a loop: a value, a thrown
    error, or no answer within the fuel. *)
Inductive Outcome (A : Type) := Ok (a : A) | Throw (e : Error) | Pending.
Arguments Ok {A} _.
Arguments Throw {A} _.
Arguments Pending {A}.

#[global] Instance Outcome_ret : MRet Outcome := fun A a => Ok a.

#[global] Instance Outcome_bind : MBind Outcome := fun A B k m =>
  match m with
  | Ok a => k a
  | Throw e => Throw e
  | Pending => Pending
  end.

(** [try { body } catch (error) { handler(error) }] *)
Definition tryCatch {A : Type} (body : Outcome A) (handler : Error -> Outcome A)
    : Outcome A :=
  match body with
  | Throw e => handler e
  | other => other
  end.

(** The fields of a [QueryCommand] input that the server sets. *)
Record QueryParams := mkQuery {
  TableName : string;
  IndexName : option string;
  KeyConditionExpression : string;
  FilterExpression : option string;
  ExpressionAttributeNames : list (string * string);
  ExpressionAttributeValues : list (string * JsVal);
  ExclusiveStartKey : option DbKey;
  Limit : option JsVal
}.

Inductive Command :=
| QueryCommand (params : QueryParams)
| ScanCommand (table : string) (limit : JsVal).

(** The fields of a query or scan output that the server reads. *)
Record QueryOutput := mkOutput {
  Items : option (list Item);
  Count : option Z;
  ScannedCount : option Z;
  LastEvaluatedKey : option DbKey
}.

Record ListObjectsInput := mkList {
  Bucket : string;
  Prefix : option string;
  Delimiter : option string
}.

Record S3Object := mkObject { Key : option string; LastModified : option Z }.

(** [CommonPrefixes] is a list of [{ Prefix?: string }]. *)
Record ListObjectsOutput := mkListing {
  CommonPrefixes : option (list (option string));
  Contents : option (list S3Object)
}.

Definition S3_BUCKET : string := "attntv".
Definition tableName : string := "attentv-ad-plays-prod".

(** ** The pagination walker (lines 450-486) *)

Module Walker.

(** The [queryParams] of [getAllItemsForDevice]: [ExclusiveStartKey] is
    set only when the previous page left a key. *)
Definition queryParams (deviceId : string) (lastEvaluatedKey : option DbKey)
    : QueryParams :=
  {| TableName := tableName;
     IndexName := Some "device-index";
     KeyConditionExpression := "#device = :device";
     FilterExpression := None;
     ExpressionAttributeNames := [("#device", "device_id")];
     ExpressionAttributeValues := [(":device", VStr deviceId)];
     ExclusiveStartKey := lastEvaluatedKey;
     Limit := None |}.

Section Walk.
(** The store behind [docClient.send]: it may answer by its own state
    (the pages it has served so far), which each call updates. *)
Context {St : Type} (send : Command -> St -> Outcome QueryOutput * St).

(** The [while (hasMore)] loop: one iteration per unit of fuel. *)
Fixpoint walk (fuel : nat) (deviceId : string) (items : list Item)
    (lastEvaluatedKey : option DbKey) (st : St) : Outcome (list Item) * St :=
  match fuel with
  | O => (Pending, st)
  | S fuel' =>
      match send (QueryCommand (queryParams deviceId lastEvaluatedKey)) st with
      | (Ok response, st') =>
          let items' :=
            match Items response with
            | Some page => items ++ page
            | None => items
            end in
          match LastEvaluatedKey response with
          | Some key => walk fuel' deviceId items' (Some key) st'
          | None => (Ok items', st')
          end
      | (Throw e, st') => (Throw e, st')
      | (Pending, st') => (Pending, st')
      end
  end.

Definition getAllItemsForDevice (fuel : nat) (deviceId : string) (st : St)
    : Outcome (list Item) * St :=
  walk fuel deviceId [] None st.

(** A test double around a store: it passes every command on and
    keeps the list of the commands it has seen. *)
Definition recording (cmd : Command) (st : St * list Command)
    : Outcome QueryOutput * (St * list Command) :=
  let (r, st') := send cmd (fst st) in (r, (st', snd st ++ [cmd])).
End Walk.

(** The stub store of the specification's test: it serves the pages it
    holds one after the other, whatever the command. *)
Definition stub (cmd : Command) (pages : list QueryOutput)
    : Outcome QueryOutput * list QueryOutput :=
  match pages with
  | page :: rest => (Ok page, rest)
  | [] => (Throw (mkError "no more pages" "StubExhausted"), [])
  end.

End Walker.

(** ** Week-over-week comparison (lines 695-742) *)

Module Week.

Definition msPerDay : Z := 24 * 60 * 60 * 1000.

(** [new Date(item.timestamp) >= bound], false on an Invalid Date. *)
Definition dateGe (ts : Timestamp) (bound : Z) : bool :=
  match getTime ts with Some d => d >=? bound | None => false end.

Definition dateLt (ts : Timestamp) (bound : Z) : bool :=
  match getTime ts with Some d => d <? bound | None => false end.

Definition inCurrentWeek (now : Z) (item : Item) : bool :=
  let oneWeekAgo := now - 7 * msPerDay in
  if negb (hasTimestamp item) then false
  else dateGe (timestamp item) oneWeekAgo.

Definition inPreviousWeek (now : Z) (item : Item) : bool :=
  let oneWeekAgo := now - 7 * msPerDay in
  let twoWeeksAgo := now - 14 * msPerDay in
  if negb (hasTimestamp item) then false
  else dateGe (timestamp item) twoWeeksAgo && dateLt (timestamp item) oneWeekAgo.

Definition currentWeekItems (now : Z) (allItems : list Item) : list Item :=
  List.filter (inCurrentWeek now) allItems.

Definition previousWeekItems (now : Z) (allItems : list Item) : list Item :=
  List.filter (inPreviousWeek now) allItems.

Record WeekStats := mkStats { plays : Z; duration : Q; uniqueAds : Z }.

(** The body of the [forEach] of [getWeekStats], on the pair of the
    set [uniqueAds] and the running [totalDuration]. *)
Definition visit (acc : gset string * Q) (item : Item) : gset string * Q :=
  let ads :=
    if JS.truthyStr (ad_filename item)
    then match ad_filename item with
         | Some ad => {[ ad ]} ∪ fst acc
         | None => fst acc
         end
    else fst acc in
  let total :=
    match play_duration item with
    | Some d => if Qeq_bool d 0 then snd acc else (snd acc + d)%Q
    | None => snd acc
    end in
  (ads, total).

Definition getWeekStats (items : list Item) : WeekStats :=
  let acc := fold_left visit items (∅, 0%Q) in
  {| plays := Z.of_nat (length items);
     duration := snd acc;
     uniqueAds := Z.of_nat (size (fst acc)) |}.

Record Comparison := mkComparison {
  currentWeek : WeekStats;
  previousWeek : WeekStats;
  change : WeekStats
}.

Definition weekComparison (now : Z) (allItems : list Item) : Comparison :=
  let currentWeek := getWeekStats (currentWeekItems now allItems) in
  let previousWeek := getWeekStats (previousWeekItems now allItems) in
  let change :=
    {| plays := plays currentWeek - plays previousWeek;
       duration := (duration currentWeek - duration previousWeek)%Q;
       uniqueAds := uniqueAds currentWeek - uniqueAds previousWeek |} in
  {| currentWeek := currentWeek; previousWeek := previousWeek; change := change |}.

End Week.

(** ** Hourly patterns (lines 575-603) *)

Module Hourly.

Definition msPerHour : Z := 60 * 60 * 1000.

(** [date.getUTCHours()] and [date.getUTCDay()], [None] for the NaN of
    an Invalid Date. Day 0 of the epoch was a Thursday (4). *)
Definition getUTCHours (ts : Timestamp) : option nat :=
  match getTime ts with
  | Some ms => Some (Z.to_nat ((ms / msPerHour) mod 24))
  | None => None
  end.

Definition getUTCDay (ts : Timestamp) : option nat :=
  match getTime ts with
  | Some ms => Some (Z.to_nat ((ms / Week.msPerDay + 4) mod 7))
  | None => None
  end.

(** [`${n}`] for a natural number or NaN. *)
Definition toString (n : option nat) : string :=
  match n with
  | Some k => NilEmpty.string_of_uint (Nat.to_uint k)
  | None => "NaN"
  end.

(** [Number(s)] on the strings the keys are made of: a run of decimal
    digits is its value, the empty string is 0, anything else NaN. *)
Definition Number (s : string) : option nat :=
  match NilEmpty.uint_of_string s with
  | Some d => Some (Nat.of_uint d)
  | None => None
  end.

(** [s.split('-')] *)
Fixpoint split (s : string) : list string :=
  match s with
  | EmptyString => [EmptyString]
  | String c s' =>
      if Ascii.eqb c "-"%char then EmptyString :: split s'
      else match split s' with
           | w :: ws => String c w :: ws
           | [] => [String c EmptyString]
           end
  end.

Record Bucket := mkBucket { plays : Z; duration : Q }.

(** [Map<string, Bucket>]: the entries in insertion order. [set] on a
    key that is there replaces the value where it stands. *)
Definition HourMap := list (string * Bucket).

Fixpoint get (m : HourMap) (key : string) : option Bucket :=
  match m with
  | [] => None
  | (k, v) :: m' => if String.eqb k key then Some v else get m' key
  end.

Fixpoint set (m : HourMap) (key : string) (v : Bucket) : HourMap :=
  match m with
  | [] => [(key, v)]
  | (k, w) :: m' =>
      if String.eqb k key then (k, v) :: m' else (k, w) :: set m' key v
  end.

Definition keyOf (includeDayOfWeek : bool) (ts : Timestamp) : string :=
  let hour := getUTCHours ts in
  if includeDayOfWeek
  then String.append (toString hour) (String.append "-" (toString (getUTCDay ts)))
  else toString hour.

(** The body of [allItems.forEach]. *)
Definition visit (includeDayOfWeek : bool) (hourMap : HourMap) (item : Item)
    : HourMap :=
  if negb (hasTimestamp item) then hourMap
  else
    let key := keyOf includeDayOfWeek (timestamp item) in
    let existing :=
      match get hourMap key with
      | Some b => b
      | None => {| plays := 0; duration := 0%Q |}
      end in
    set hourMap key
      {| plays := plays existing + 1;
         duration := (duration existing + durationOr0 item)%Q |}.

(** An entry of [patterns]: [hour] is [None] for NaN, [dayOfWeek] is
    [None] when the field is [undefined], [Some None] for NaN. *)
Record Pattern := mkPattern {
  hour : option nat;
  dayOfWeek : option (option nat);
  p_plays : Z;
  p_duration : Q
}.

Definition toPattern (includeDayOfWeek : bool) (entry : string * Bucket)
    : Pattern :=
  let parts := map Number (split (fst entry)) in
  {| hour := match parts with h :: _ => h | [] => None end;
     dayOfWeek :=
       if includeDayOfWeek
       then match parts with _ :: d :: _ => Some d | _ => None end
       else None;
     p_plays := plays (snd entry);
     p_duration := duration (snd entry) |}.

Definition hourlyPatterns (includeDayOfWeek : bool) (allItems : list Item)
    : list Pattern :=
  let hourMap := fold_left (visit includeDayOfWeek) allItems [] in
  map (toPattern includeDayOfWeek) hourMap.

End Hourly.

(** ** HTTP replies *)

Module Http.

(** The body of an error reply. [code] is [None] when the object has
    no such field. *)
Record ErrorBody := mkErrorBody { error : string; code : option string }.

(** [res.json(body)] answers with status 200; [res.status(s).json(e)]
    with [s]. *)
Inductive Reply (B : Type) :=
| Success (body : B)
| Failure (status : Z) (body : ErrorBody).
Arguments Success {B} _.
Arguments Failure {B} _ _.

Definition status {B : Type} (r : Reply B) : Z :=
  match r with Success _ => 200 | Failure s _ => s end.

(** [error.message || fallback] *)
Definition messageOr (e : Error) (fallback : string) : string :=
  if String.eqb (message e) "" then fallback else message e.

(** The reply of every outer [catch]. *)
Definition serverError {B : Type} (e : Error) (fallback : string) : Reply B :=
  Failure 500 {| error := messageOr e fallback; code := Some (name e) |}.

End Http.

(** [Promise.all] over promises that are already running: it rejects
    when one of them rejects (the first in the list, in the model) and
    stays pending as long as one is pending and none has rejected. *)
Fixpoint awaitAll {A : Type} (ps : list (Outcome A)) : Outcome (list A) :=
  match ps with
  | [] => Ok []
  | p :: ps' =>
      match p, awaitAll ps' with
      | Throw e, _ => Throw e
      | _, Throw e => Throw e
      | Ok a, Ok l => Ok (a :: l)
      | _, _ => Pending
      end
  end.

(** ** Device and ad listings (lines 94-143 and 432-448) *)

Module Listing.

(** The strings of an array whose [undefined] entries the filter has
    dropped. *)
Definition strings (l : list (option string)) : list string :=
  flat_map (fun o => match o with Some s => [s] | None => [] end) l.

Definition isDevice (device : option string) : bool :=
  JS.truthyStr device &&
  match device with Some s => negb (String.eqb s "ad_metrics") | None => false end.

Definition isAd (ad : option string) : bool :=
  JS.truthyStr ad &&
  match ad with Some s => JS.endsWith s ".mp4" | None => false end.

(** [.map(prefix => prefix.Prefix?.replace('/', '')).filter(...)] *)
Definition devicesOf (response : ListObjectsOutput) : list string :=
  let prefixes := default [] (CommonPrefixes response) in
  let names := map (option_map (fun p => JS.removeFirst p "/")) prefixes in
  strings (List.filter isDevice names).

(** [.map(obj => obj.Key?.replace(prefix, '')).filter(...)] *)
Definition adsOf (prefix : string) (response : ListObjectsOutput) : list string :=
  let contents := default [] (Contents response) in
  let names := map (fun obj => option_map (fun k => JS.removeFirst k prefix) (Key obj))
                   contents in
  strings (List.filter isAd names).

Definition devicePrefix (deviceId : string) : string := String.append deviceId "/".

Section Routes.
Context (s3 : ListObjectsInput -> Outcome ListObjectsOutput).

Definition listPrefixes : Outcome ListObjectsOutput :=
  s3 {| Bucket := S3_BUCKET; Prefix := None; Delimiter := Some "/" |}.

Definition listObjects (deviceId : string) : Outcome ListObjectsOutput :=
  s3 {| Bucket := S3_BUCKET; Prefix := Some (devicePrefix deviceId);
        Delimiter := None |}.

(** [GET /api/devices] *)
Definition getDevices : Outcome (Http.Reply (list string)) :=
  tryCatch
    (response ← listPrefixes;
     Ok (Http.Success (JS.sortStrings (devicesOf response))))
    (fun e => Ok (Http.serverError e "Failed to list devices")).

(** [GET /api/devices/:deviceId/ads]; the body is [{ deviceId, ads }]. *)
Definition getDeviceAds (deviceId : string)
    : Outcome (Http.Reply (string * list string)) :=
  tryCatch
    (response ← listObjects deviceId;
     Ok (Http.Success
           (deviceId, JS.sortStrings (adsOf (devicePrefix deviceId) response))))
    (fun e => Ok (Http.serverError e "Failed to list ads")).

(** The helper [getAllDevices]: an error yields no device. *)
Definition getAllDevices : Outcome (list string) :=
  tryCatch
    (response ← listPrefixes; Ok (JS.sortStrings (devicesOf response)))
    (fun _ => Ok []).
End Routes.

End Listing.

(** ** Per-ad statistics of a device (lines 305-430) *)

(** The [queryParams] of the per-ad loops: the device's records,
    filtered by ad. *)
Definition adQueryParams (deviceId adFilename : string)
    (lastEvaluatedKey : option DbKey) : QueryParams :=
  {| TableName := tableName;
     IndexName := Some "device-index";
     KeyConditionExpression := "#device = :device";
     FilterExpression := Some "#ad = :ad";
     ExpressionAttributeNames := [("#device", "device_id"); ("#ad", "ad_filename")];
     ExpressionAttributeValues := [(":device", VStr deviceId); (":ad", VStr adFilename)];
     ExclusiveStartKey := lastEvaluatedKey;
     Limit := None |}.

(** Comparators of the sorts by play time. *)
Definition byTimeAscending (a b : Item) : JS.jsnum :=
  JS.jsub (timeNum (getTimeOr0 (timestamp a))) (timeNum (getTimeOr0 (timestamp b))).

Definition byTimeDescending (a b : Item) : JS.jsnum :=
  JS.jsub (timeNum (getTimeOr0 (timestamp b))) (timeNum (getTimeOr0 (timestamp a))).

(** [items.reduce((sum, item) => sum + (item.play_duration || 0), 0)] *)
Definition sumDuration (items : list Item) : Q :=
  fold_left (fun sum item => (sum + durationOr0 item)%Q) items 0%Q.

(** [totalPlays > 0 ? totalDuration / totalPlays : 0] *)
Definition average (totalDuration : Q) (totalPlays : Z) : Q :=
  if totalPlays >? 0 then (totalDuration / inject_Z totalPlays)%Q else 0%Q.

(** The "last played" block: the timestamp of the first record of a
    copy of [items] sorted by time, latest first. *)
Definition lastPlayedOf (items : list Item) : option Timestamp :=
  match items with
  | [] => None
  | _ :: _ =>
      match JS.sort byTimeDescending items with
      | first :: _ => timestampOrNull (timestamp first)
      | [] => None
      end
  end.

Module DeviceAds.

Record AdStat := mkAdStat {
  adFilename : string;
  totalPlays : Z;
  totalDuration : Q;
  averageDuration : Q;
  lastPlayed : option Timestamp;
  error : option string
}.

(** "Calculate aggregations", on the records the loop has gathered. *)
Definition aggregate (ad : string) (items : list Item) : AdStat :=
  let totalPlays := Z.of_nat (length items) in
  let totalDuration := sumDuration items in
  {| adFilename := ad;
     totalPlays := totalPlays;
     totalDuration := totalDuration;
     averageDuration := average totalDuration totalPlays;
     lastPlayed := lastPlayedOf items;
     error := None |}.

(** The entry of the inner [catch]. *)
Definition degraded (ad : string) (e : Error) : AdStat :=
  {| adFilename := ad;
     totalPlays := 0;
     totalDuration := 0%Q;
     averageDuration := 0%Q;
     lastPlayed := None;
     error := Some (message e) |}.

Section Route.
(** The store as the request finds it: the fan-out interleaves the
    queries of the ads, so an answer is a function of the query. *)
Context (s3 : ListObjectsInput -> Outcome ListObjectsOutput)
        (send : Command -> Outcome QueryOutput).

(** The [while (hasMore)] loop of one ad. *)
Fixpoint pages (fuel : nat) (deviceId ad : string) (items : list Item)
    (lastEvaluatedKey : option DbKey) : Outcome (list Item) :=
  match fuel with
  | O => Pending
  | S fuel' =>
      response ← send (QueryCommand (adQueryParams deviceId ad lastEvaluatedKey));
      let items' :=
        match Items response with
        | Some page => items ++ page
        | None => items
        end in
      match LastEvaluatedKey response with
      | Some key => pages fuel' deviceId ad items' (Some key)
      | None => Ok items'
      end
  end.

(** The callback of [ads.map(async (adFilename) => ...)]. *)
Definition adStat (fuel : nat) (deviceId ad : string) : Outcome AdStat :=
  tryCatch
    (items ← pages fuel deviceId ad [] None; Ok (aggregate ad items))
    (fun e => Ok (degraded ad e)).

(** [GET /api/stats/device/:deviceId/ads], past the cache; the body
    is [{ deviceId, ads: adStats }]. *)
Definition getDeviceAdStats (fuel : nat) (deviceId : string)
    : Outcome (Http.Reply (string * list AdStat)) :=
  tryCatch
    (s3Response ← Listing.listObjects s3 deviceId;
     let ads := JS.sortStrings
                  (Listing.adsOf (Listing.devicePrefix deviceId) s3Response) in
     adStats ← awaitAll (map (adStat fuel deviceId) ads);
     Ok (Http.Success (deviceId, adStats)))
    (fun e => Ok (Http.serverError e "Failed to fetch ad aggregations")).
End Route.

End DeviceAds.

(** ** The ads leaderboard (lines 755-914) *)

Module Leaderboard.

Record AdStat := mkAdStat {
  adFilename : string;
  totalPlays : Z;
  totalDuration : Q;
  averageDuration : Q;
  frequency : JS.jsnum;
  deviceCount : Z;
  lastPlayed : option Timestamp;
  error : option string
}.

(** [allAds.add(ad)] on a [Set] kept in insertion order. *)
Definition add (allAds : list string) (ad : string) : list string :=
  if existsb (String.eqb ad) allAds then allAds else allAds ++ [ad].

(** "Calculate frequency (plays per day)", on [items] as sorted in
    place by time, earliest first. *)
Definition frequencyOf (sorted : list Item) (totalPlays : Z) : JS.jsnum :=
  match sorted with
  | [] => JS.Num 0
  | first :: _ =>
      let firstPlay := timeNum (getTime (timestamp first)) in
      let lastPlay := timeNum (getTime (timestamp (List.last sorted first))) in
      let daysDiff :=
        JS.max1 (JS.jdiv (JS.jsub lastPlay firstPlay)
                         (JS.Num (inject_Z (1000 * 60 * 60 * 24)))) in
      JS.jdiv (JS.Num (inject_Z totalPlays)) daysDiff
  end.

(** [Math.round(frequency * 100) / 100] *)
Definition round2 (v : JS.jsnum) : JS.jsnum :=
  JS.jdiv (JS.round (JS.jmul v (JS.Num 100))) (JS.Num 100).

(** The statistics of one ad, from the records gathered over all
    devices and the set of devices noted on the way. [items.sort]
    sorts in place, so "last played" starts from the sorted array. *)
Definition aggregate (ad : string) (items : list Item) (deviceSet : gset string)
    : AdStat :=
  let totalPlays := Z.of_nat (length items) in
  let totalDuration := sumDuration items in
  let sorted := JS.sort byTimeAscending items in
  {| adFilename := ad;
     totalPlays := totalPlays;
     totalDuration := totalDuration;
     averageDuration := average totalDuration totalPlays;
     frequency := round2 (frequencyOf sorted totalPlays);
     deviceCount := Z.of_nat (size deviceSet);
     lastPlayed := lastPlayedOf sorted;
     error := None |}.

Definition degraded (ad : string) (e : Error) : AdStat :=
  {| adFilename := ad;
     totalPlays := 0;
     totalDuration := 0%Q;
     averageDuration := 0%Q;
     frequency := JS.Num 0;
     deviceCount := 0;
     lastPlayed := None;
     error := Some (message e) |}.

(** The comparator of "Sort by requested field". *)
Definition compareBy (sortBy : string) (a b : AdStat) : JS.jsnum :=
  if String.eqb sortBy "duration"
  then JS.Num (totalDuration b - totalDuration a)
  else if String.eqb sortBy "frequency"
  then JS.jsub (frequency b) (frequency a)
  else JS.Num (inject_Z (totalPlays b - totalPlays a)).

(** The body of the reply: [{ ads, total }]. *)
Record Board := mkBoard { ads : list AdStat; total : Z }.

(** "Sort by requested field" and the response object. *)
Definition rank (sortBy : string) (limit : Z) (adStats : list AdStat) : Board :=
  let sorted := JS.sort (compareBy sortBy) adStats in
  {| ads := JS.slice0 sorted limit; total := Z.of_nat (length sorted) |}.

(** [parseInt(req.query.limit) || 20], from what [parseInt] returned
    ([None] for NaN), and [req.query.sortBy || 'plays']. *)
Definition limitOf (parsed : option Z) : Z :=
  match parsed with
  | Some n => if n =? 0 then 20 else n
  | None => 20
  end.

Definition sortByOf (param : option string) : string :=
  match param with
  | Some s => if String.eqb s "" then "plays" else s
  | None => "plays"
  end.

Section Route.
Context (s3 : ListObjectsInput -> Outcome ListObjectsOutput)
        (send : Command -> Outcome QueryOutput).

(** "Get all unique ads from S3": the loop over the devices. *)
Fixpoint collectAds (devices : list string) (allAds : list string)
    : Outcome (list string) :=
  match devices with
  | [] => Ok allAds
  | deviceId :: rest =>
      s3Response ← Listing.listObjects s3 deviceId;
      let ads := Listing.adsOf (Listing.devicePrefix deviceId) s3Response in
      collectAds rest (fold_left add ads allAds)
  end.

(** The [while (hasMore)] loop of one device, for one ad. *)
Fixpoint pages (fuel : nat) (deviceId ad : string)
    (acc : list Item * gset string) (lastEvaluatedKey : option DbKey)
    : Outcome (list Item * gset string) :=
  match fuel with
  | O => Pending
  | S fuel' =>
      response ← send (QueryCommand (adQueryParams deviceId ad lastEvaluatedKey));
      let acc' :=
        match Items response with
        | Some page => (fst acc ++ page, {[ deviceId ]} ∪ snd acc)
        | None => acc
        end in
      match LastEvaluatedKey response with
      | Some key => pages fuel' deviceId ad acc' (Some key)
      | None => Ok acc'
      end
  end.

(** "Query each device for this ad". *)
Fixpoint perDevice (fuel : nat) (ad : string) (devices : list string)
    (acc : list Item * gset string) : Outcome (list Item * gset string) :=
  match devices with
  | [] => Ok acc
  | deviceId :: rest =>
      acc' ← pages fuel deviceId ad acc None;
      perDevice fuel ad rest acc'
  end.

Definition adStat (fuel : nat) (devices : list string) (ad : string)
    : Outcome AdStat :=
  tryCatch
    (acc ← perDevice fuel ad devices ([], ∅);
     Ok (aggregate ad (fst acc) (snd acc)))
    (fun e => Ok (degraded ad e)).

(** [GET /api/stats/ads/leaderboard], past the cache. *)
Definition getLeaderboard (fuel : nat) (limitParam : option Z)
    (sortByParam : option string) : Outcome (Http.Reply Board) :=
  let limit := limitOf limitParam in
  let sortBy := sortByOf sortByParam in
  tryCatch
    (devices ← Listing.getAllDevices s3;
     allAds ← collectAds devices [];
     adStats ← awaitAll (map (adStat fuel devices) allAds);
     Ok (Http.Success (rank sortBy limit adStats)))
    (fun e => Ok (Http.serverError e "Failed to fetch ads leaderboard")).
End Route.

End Leaderboard.

(** ** The generic query route (lines 974-1071) *)

Module Stats.

(** [req.body], its fields typed as the route documents them; [None]
    is a field that is not there ([undefined]). *)
Record Body := mkBody {
  b_tableName : option string;
  b_limit : option JsVal;
  partitionKey : option string;
  partitionValue : option JsVal;
  sortKey : option string;
  sortValue : option JsVal;
  sortValueStart : option JsVal;
  sortValueEnd : option JsVal;
  indexName : option string
}.

(** The sort-key condition: its attribute values and its text. *)
Definition sortCondition (body : Body) : list (string * JsVal) * list string :=
  match sortValueStart body, sortValueEnd body, sortValue body with
  | Some lo, Some hi, _ =>
      ([(":sk_start", lo); (":sk_end", hi)], ["#sk BETWEEN :sk_start AND :sk_end"])
  | _, _, Some v => ([(":sk", v)], ["#sk = :sk"])
  | Some lo, None, None => ([(":sk_start", lo)], ["#sk >= :sk_start"])
  | None, Some hi, None => ([(":sk_end", hi)], ["#sk <= :sk_end"])
  | None, None, None => ([], [])
  end.

(** The command the route builds for a body with a table name. *)
Definition commandOf (table : string) (body : Body) : Command :=
  let limit := default (VNum 100) (b_limit body) in
  match partitionKey body, partitionValue body with
  | Some pk, Some pv =>
      if negb (String.eqb pk "") then
        let sk :=
          match sortKey body with
          | Some k =>
              if negb (String.eqb k "")
              then let (values, conds) := sortCondition body in
                   ([("#sk", k)], values, conds)
              else ([], [], [])
          | None => ([], [], [])
          end in
        let '(skNames, skValues, skConds) := sk in
        QueryCommand
          {| TableName := table;
             IndexName := if JS.truthyStr (indexName body) then indexName body
                          else None;
             KeyConditionExpression := JS.join " AND " ("#pk = :pk" :: skConds);
             FilterExpression := None;
             ExpressionAttributeNames := ("#pk", pk) :: skNames;
             ExpressionAttributeValues := (":pk", pv) :: skValues;
             ExclusiveStartKey := None;
             Limit := Some limit |}
      else ScanCommand table limit
  | _, _ => ScanCommand table limit
  end.

(** The body of a successful reply. *)
Record Result := mkResult { items : list Item; count : Z; scannedCount : Z }.

Definition orZero (n : option Z) : Z := default 0 n.

Section Route.
(** The store with its own state, so that a call leaves a trace. *)
Context {St : Type} (send : Command -> St -> Outcome QueryOutput * St).

(** [POST /api/stats] *)
Definition postStats (body : Body) (st : St)
    : Outcome (Http.Reply Result) * St :=
  if negb (JS.truthyStr (b_tableName body))
  then (Ok (Http.Failure 400
              {| Http.error := "Table name is required"; Http.code := None |}),
        st)
  else
    let table := default "" (b_tableName body) in
    let (answer, st') := send (commandOf table body) st in
    (tryCatch
       (response ← answer;
        Ok (Http.Success
              {| items := default [] (Items response);
                 count := orZero (Count response);
                 scannedCount := orZero (ScannedCount response) |}))
       (fun e => Ok (Http.serverError e "Failed to fetch statistics")),
     st').
End Route.

End Stats.

(** ** What the specification's statements are phrased with *)

Module Spec.

(** The items of a page, as the walker adds them. *)
Definition itemsOf (page : QueryOutput) : list Item := default [] (Items page).

(** The store serves [pages] to the walker of [deviceId]: asked for the
    records after [start] in state [st], it answers with the first
    page, and with the rest when asked to go on from the key that page
    carries; the last page, and only the last, carries no key. *)
Inductive Serves {St : Type} (send : Command -> St -> Outcome QueryOutput * St)
    (deviceId : string) : option DbKey -> St -> list QueryOutput -> St -> Prop :=
| Serves_last start st page st' :
    send (QueryCommand (Walker.queryParams deviceId start)) st = (Ok page, st') ->
    LastEvaluatedKey page = None ->
    Serves send deviceId start st [page] st'
| Serves_more start st page key st' pages st'' :
    send (QueryCommand (Walker.queryParams deviceId start)) st = (Ok page, st') ->
    LastEvaluatedKey page = Some key ->
    Serves send deviceId (Some key) st' pages st'' ->
    Serves send deviceId start st (page :: pages) st''.

(** The queries a walk over [pages] is expected to issue: the first
    without a start key, each next one from the key of the page before. *)
Definition queriesFor (deviceId : string) (pages : list QueryOutput)
    : list Command :=
  map (fun start => QueryCommand (Walker.queryParams deviceId start))
      (None :: map LastEvaluatedKey (removelast pages)).

(** The record's timestamp falls in hour [h] of the UTC day. *)
Definition inHour (h : nat) (item : Item) : bool :=
  match timestamp item with
  | TsAt ms => (ms / 3600000) mod 24 =? Z.of_nat h
  | _ => false
  end.

(** The bucket of the records [hits] of one hour: how many they are and
    the sum of their durations, taken in order. *)
Definition bucketOf (h : nat) (hits : list Item) : Hourly.Pattern :=
  {| Hourly.hour := Some h;
     Hourly.dayOfWeek := None;
     Hourly.p_plays := Z.of_nat (length hits);
     Hourly.p_duration := sumDuration hits |}.

(** Every key of the hour map is the print of an hour (or of NaN). *)
Definition hourKeys (m : Hourly.HourMap) : Prop :=
  Forall (fun e => exists o : option nat, fst e = Hourly.toString o) m.

(** What one record does to the bucket of its hour. *)
Definition tally (b : option Hourly.Bucket) (item : Item) : option Hourly.Bucket :=
  let existing := default {| Hourly.plays := 0; Hourly.duration := 0%Q |} b in
  Some {| Hourly.plays := Hourly.plays existing + 1;
          Hourly.duration := (Hourly.duration existing + durationOr0 item)%Q |}.

(** [x] may stand before [y] in an array sorted by [comparefn]. *)
Definition inOrder {A : Type} (comparefn : A -> A -> JS.jsnum) (x y : A) : Prop :=
  JS.positive (comparefn x y) = false.

(** Strings in ascending order of their code units. *)
Definition ascending (x y : string) : Prop := String.leb x y = true.

(** The duration of a record, 0 when it has none. *)
Definition durationOf (item : Item) : Q := default 0%Q (play_duration item).

(** Entry [a] does not rank below entry [b] by the requested field:
    [totalDuration] for [duration], [frequency] (a number) for
    [frequency], [totalPlays] otherwise. *)
Definition descending (sortBy : string) (a b : Leaderboard.AdStat) : Prop :=
  if String.eqb sortBy "duration"
  then (Leaderboard.totalDuration b <= Leaderboard.totalDuration a)%Q
  else if String.eqb sortBy "frequency"
  then exists p q, Leaderboard.frequency a = JS.Num p /\
                   Leaderboard.frequency b = JS.Num q /\ (q <= p)%Q
  else Leaderboard.totalPlays b <= Leaderboard.totalPlays a.

(** The entry's frequency is a number. *)
Definition numeric (a : Leaderboard.AdStat) : Prop :=
  exists q, Leaderboard.frequency a = JS.Num q.

(** A record whose timestamp [new Date] can read. *)
Definition readable (item : Item) : Prop := exists ms, timestamp item = TsAt ms.

(** A store all of whose records carry a readable timestamp. *)
Definition readableRecords (send : Command -> Outcome QueryOutput) : Prop :=
  forall cmd out page,
    send cmd = Ok out -> Items out = Some page -> List.Forall readable page.

(** The devices that have at least one play record of [ad]: those whose
    records of that ad, gathered page by page, are not empty. *)
Definition devicesWithPlays (send : Command -> Outcome QueryOutput) (fuel : nat)
    (devices : list string) (ad : string) : list string :=
  List.filter
    (fun deviceId =>
       match DeviceAds.pages send fuel deviceId ad [] None with
       | Ok (_ :: _) => true
       | _ => false
       end) devices.

(** The store answers every query with an [Items] array, as DynamoDB
    does for a query that selects attributes. *)
Definition alwaysItems (send : Command -> Outcome QueryOutput) : Prop :=
  forall cmd out, send cmd = Ok out -> Items out <> None.



End Spec.

(** ** Sample data of the specification's examples *)

Module Sample.

Definition record (id : string) (ms : Z) (d : Q) : Item :=
  {| play_id := id; device_id := "tv-1"; ad_filename := Some "duck.mp4";
     timestamp := TsAt ms; play_duration := Some d |}.

Definition key (id : string) : DbKey := [("play_id", VStr id)].

(** Three pages of 2, 2 and 1 records, the first two with a key. *)
Definition page1 : QueryOutput :=
  {| Items := Some [record "a" 1000 5; record "b" 2000 5]; Count := Some 2;
     ScannedCount := Some 2; LastEvaluatedKey := Some (key "b") |}.
Definition page2 : QueryOutput :=
  {| Items := Some [record "c" 3000 5; record "d" 4000 5]; Count := Some 2;
     ScannedCount := Some 2; LastEvaluatedKey := Some (key "d") |}.
Definition page3 : QueryOutput :=
  {| Items := Some [record "e" 5000 5]; Count := Some 1;
     ScannedCount := Some 1; LastEvaluatedKey := None |}.

Definition threePages : list QueryOutput := [page1; page2; page3].

(** Records in hours 3, 3 and 14 (UTC) of the first day of the epoch. *)
Definition hours_3_3_14 : list Item :=
  [record "a" (3 * 3600000 + 5) 10; record "b" (3 * 3600000 + 1800000) 20;
   record "c" (14 * 3600000) 30].

(** A bucket with three top-level prefixes and two objects under one. *)
Definition s3 (input : ListObjectsInput) : Outcome ListObjectsOutput :=
  match Prefix input with
  | None =>
      Ok {| CommonPrefixes := Some [Some "tv-2/"; Some "ad_metrics/"; Some "tv-1/"];
            Contents := None |}
  | Some prefix =>
      if String.eqb prefix "tv-1/"
      then Ok {| CommonPrefixes := None;
                 Contents := Some [mkObject (Some "tv-1/shoes.mp4") (Some 20);
                                   mkObject (Some "tv-1/notes.txt") (Some 30);
                                   mkObject (Some "tv-1/duck.mp4") (Some 10)] |}
      else Ok {| CommonPrefixes := None; Contents := Some [] |}
  end.

(** A store in which only [tv-1] has a record of [duck.mp4], [tv-2]
    answers with an empty page, and every query about [shoes.mp4] is
    rejected. *)
Definition throttled : Error :=
  mkError "Throughput exceeded" "ProvisionedThroughputExceededException".

Definition send (cmd : Command) : Outcome QueryOutput :=
  match cmd with
  | QueryCommand params =>
      match ExpressionAttributeValues params with
      | [(_, VStr device); (_, VStr ad)] =>
          if String.eqb ad "shoes.mp4" then Throw throttled
          else if String.eqb device "tv-1"
          then Ok {| Items := Some [record "a" 1000 5]; Count := Some 1;
                     ScannedCount := Some 1; LastEvaluatedKey := None |}
          else Ok {| Items := Some []; Count := Some 0;
                     ScannedCount := Some 3; LastEvaluatedKey := None |}
      | _ => Ok {| Items := Some []; Count := Some 0;
                   ScannedCount := Some 0; LastEvaluatedKey := None |}
      end
  | ScanCommand _ _ =>
      Ok {| Items := Some []; Count := Some 0;
            ScannedCount := Some 0; LastEvaluatedKey := None |}
  end.

(** A leaderboard entry with [plays] plays. *)
Definition entry (ad : string) (plays : Z) : Leaderboard.AdStat :=
  {| Leaderboard.adFilename := ad;
     Leaderboard.totalPlays := plays;
     Leaderboard.totalDuration := inject_Z (5 * plays);
     Leaderboard.averageDuration := 5%Q;
     Leaderboard.frequency := JS.Num (inject_Z plays);
     Leaderboard.deviceCount := 1;
     Leaderboard.lastPlayed := Some (TsAt 1000);
     Leaderboard.error := None |}.

(** Request bodies of [POST /api/stats]: one without a table name, one
    that asks for a scan of a table. *)
Definition noTable : Stats.Body :=
  {| Stats.b_tableName := None; Stats.b_limit := Some (VNum 10);
     Stats.partitionKey := None; Stats.partitionValue := None;
     Stats.sortKey := None; Stats.sortValue := None;
     Stats.sortValueStart := None; Stats.sortValueEnd := None;
     Stats.indexName := None |}.

Definition scanPlays : Stats.Body :=
  {| Stats.b_tableName := Some "attentv-ad-plays-prod"; Stats.b_limit := None;
     Stats.partitionKey := None; Stats.partitionValue := None;
     Stats.sortKey := None; Stats.sortValue := None;
     Stats.sortValueStart := None; Stats.sortValueEnd := None;
     Stats.indexName := None |}.

(** A store that rejects every command with the error [e]. *)
Definition failing (e : Error) (cmd : Command) (st : unit)
    : Outcome QueryOutput * unit :=
  (Throw e, st).

End Sample.


(** ** The store as the pagination walker is to meet it *)

Module Paging.

(** The continuation key a command carries. *)
Definition startKey (cmd : Command) : option DbKey :=
  match cmd with
  | QueryCommand params => ExclusiveStartKey params
  | ScanCommand _ _ => None
  end.

(** The command is a query for the records of [deviceId]: on the table
    of the plays, through the index of the devices, with the device as
    its only condition, and with nothing else set but, possibly, the
    key to start from. *)
Definition asksFor (deviceId : string) (cmd : Command) : Prop :=
  exists params,
    cmd = QueryCommand params /\
    TableName params = "attentv-ad-plays-prod" /\
    IndexName params = Some "device-index" /\
    KeyConditionExpression params = "#device = :device" /\
    FilterExpression params = None /\
    ExpressionAttributeNames params = [("#device", "device_id")] /\
    ExpressionAttributeValues params = [(":device", VStr deviceId)] /\
    Limit params = None.

(** The store returns [pages], one per query: to a query for the
    records of the device that carries the key [start] (none at first)
    it answers with the first page, and it goes on in the same way
    from the key which that page carries; the last page, and only the
    last, carries no key. *)
Inductive Returns {St : Type} (send : Command -> St -> Outcome QueryOutput * St)
    (deviceId : string) : option DbKey -> St -> list QueryOutput -> St -> Prop :=
| Returns_last start st page st' :
    (forall cmd, asksFor deviceId cmd -> startKey cmd = start ->
       send cmd st = (Ok page, st')) ->
    LastEvaluatedKey page = None ->
    Returns send deviceId start st [page] st'
| Returns_more start st page key st' pages st'' :
    (forall cmd, asksFor deviceId cmd -> startKey cmd = start ->
       send cmd st = (Ok page, st')) ->
    LastEvaluatedKey page = Some key ->
    Returns send deviceId (Some key) st' pages st'' ->
    Returns send deviceId start st (page :: pages) st''.

#[global] Instance JsVal_eq_dec : EqDecision JsVal.
Proof. solve_decision. Defined.

(** The page that follows the page carrying [key]. *)
Fixpoint after (key : DbKey) (pages : list QueryOutput) : option QueryOutput :=
  match pages with
  | page :: rest =>
      if decide (LastEvaluatedKey page = Some key) then head rest
      else after key rest
  | [] => None
  end.

(** A store double that serves by the key and by nothing else: a
    command without a key gets the first page, a command with the key
    of a page gets the page after it, and a command with any other key
    is rejected. A walker that does not pass the key on gets the first
    page again and again. *)
Definition keyed (pages : list QueryOutput) (cmd : Command) (st : unit)
    : Outcome QueryOutput * unit :=
  let found :=
    match startKey cmd with
    | None => head pages
    | Some key => after key pages
    end in
  (match found with
   | Some page => Ok page
   | None => Throw (mkError "The provided starting key is invalid"
                            "ValidationException")
   end, st).

End Paging.
(** ** Further notions the properties below are phrased with *)

Module Aux.

(** The store serves [pages] to the walker of [deviceId], each with a
    continuation key, and rejects the query that follows with [e]. *)
Inductive FailsAfter {St : Type} (send : Command -> St -> Outcome QueryOutput * St)
    (deviceId : string)
    : option DbKey -> St -> list QueryOutput -> Error -> St -> Prop :=
| FailsAfter_now start st e st' :
    send (QueryCommand (Walker.queryParams deviceId start)) st = (Throw e, st') ->
    FailsAfter send deviceId start st [] e st'
| FailsAfter_later start st page key st' pages e st'' :
    send (QueryCommand (Walker.queryParams deviceId start)) st = (Ok page, st') ->
    LastEvaluatedKey page = Some key ->
    FailsAfter send deviceId (Some key) st' pages e st'' ->
    FailsAfter send deviceId start st (page :: pages) e st''.

(** A store without state, seen as one with a trivial state. *)
Definition stateless (send : Command -> Outcome QueryOutput) (cmd : Command)
    (st : unit) : Outcome QueryOutput * unit :=
  (send cmd, st).

(** The store with a log of the commands it has seen. *)
Definition logged (send : Command -> Outcome QueryOutput)
    : Command -> unit * list Command -> Outcome QueryOutput * (unit * list Command) :=
  Walker.recording (stateless send).

(** A command is a query of the walker about one of [devices]. *)
Definition about (devices : list string) (cmd : Command) : Prop :=
  exists deviceId key,
    In deviceId devices /\ cmd = QueryCommand (Walker.queryParams deviceId key).

(** The record's timestamp falls on weekday [d] (0 is Sunday) in UTC. *)
Definition onDay (d : nat) (item : Item) : bool :=
  match timestamp item with
  | TsAt ms => (ms / 86400000 + 4) mod 7 =? Z.of_nat d
  | _ => false
  end.

(** The record's timestamp is readable and not before [bound]. *)
Definition since (bound : Z) (item : Item) : bool :=
  match timestamp item with
  | TsAt ts => bound <=? ts
  | _ => false
  end.

(** The record's timestamp falls in hour [h] of a weekday [d]. *)
Definition inSlot (h d : nat) (item : Item) : bool :=
  Spec.inHour h item && onDay d item.

End Aux.

(** ** A [Map] with keys that are numbers (lines 637 and, on the client,
    the hour map of the chart) *)

Module NumMap.

(** A key is a number or, as [None], NaN on the server and [null] on
    the client; [Map] compares keys by SameValueZero, under which NaN
    equals NaN. *)
Definition sameKey (a b : option nat) : bool :=
  match a, b with
  | Some x, Some y => Nat.eqb x y
  | None, None => true
  | _, _ => false
  end.

Section Ops.
Context {V : Type}.

Fixpoint get (m : list (option nat * V)) (key : option nat) : option V :=
  match m with
  | [] => None
  | (k, v) :: m' => if sameKey k key then Some v else get m' key
  end.

Fixpoint set (m : list (option nat * V)) (key : option nat) (v : V)
    : list (option nat * V) :=
  match m with
  | [] => [(key, v)]
  | (k, w) :: m' =>
      if sameKey k key then (k, v) :: m' else (k, w) :: set m' key v
  end.
End Ops.

End NumMap.

(** ** Day-of-week patterns (lines 636-662) *)

Module DayOfWeek.

Definition dayNames : list string :=
  ["Sunday"; "Monday"; "Tuesday"; "Wednesday"; "Thursday"; "Friday"; "Saturday"].

(** The body of [allItems.forEach]. *)
Definition visit (dayMap : list (option nat * Hourly.Bucket)) (item : Item)
    : list (option nat * Hourly.Bucket) :=
  if negb (hasTimestamp item) then dayMap
  else
    let dayOfWeek := Hourly.getUTCDay (timestamp item) in
    let existing :=
      match NumMap.get dayMap dayOfWeek with
      | Some b => b
      | None => {| Hourly.plays := 0; Hourly.duration := 0%Q |}
      end in
    NumMap.set dayMap dayOfWeek
      {| Hourly.plays := Hourly.plays existing + 1;
         Hourly.duration := (Hourly.duration existing + durationOr0 item)%Q |}.

(** An entry of [patterns]; [dayName] is [None] when [dayNames] has no
    such index ([undefined]). *)
Record Pattern := mkPattern {
  dayOfWeek : option nat;
  dayName : option string;
  plays : Z;
  duration : Q
}.

Definition toPattern (entry : option nat * Hourly.Bucket) : Pattern :=
  {| dayOfWeek := fst entry;
     dayName := match fst entry with
                | Some d => nth_error dayNames d
                | None => None
                end;
     plays := Hourly.plays (snd entry);
     duration := Hourly.duration (snd entry) |}.

Definition dayNum (d : option nat) : JS.jsnum :=
  match d with
  | Some n => JS.Num (inject_Z (Z.of_nat n))
  | None => JS.NaN
  end.

(** [(a, b) => a.dayOfWeek - b.dayOfWeek] *)
Definition byDay (a b : Pattern) : JS.jsnum :=
  JS.jsub (dayNum (dayOfWeek a)) (dayNum (dayOfWeek b)).

Definition dayOfWeekPatterns (allItems : list Item) : list Pattern :=
  let dayMap := fold_left visit allItems [] in
  JS.sort byDay (map toPattern dayMap).

End DayOfWeek.

Module AuxDay.

(** The bucket of the records [hits] of weekday [d]. *)
Definition dayBucket (d : nat) (hits : list Item) : DayOfWeek.Pattern :=
  {| DayOfWeek.dayOfWeek := Some d;
     DayOfWeek.dayName := nth_error DayOfWeek.dayNames d;
     DayOfWeek.plays := Z.of_nat (length hits);
     DayOfWeek.duration := sumDuration hits |}.

(** Pattern [a] is of a weekday not after that of [b]. *)
Definition dayLe (a b : DayOfWeek.Pattern) : Prop :=
  exists x y, DayOfWeek.dayOfWeek a = Some x /\
              DayOfWeek.dayOfWeek b = Some y /\ (x <= y)%nat.

(** The bucket of the records [hits] of hour [h] on weekday [d]. *)
Definition slotBucket (h d : nat) (hits : list Item) : Hourly.Pattern :=
  {| Hourly.hour := Some h;
     Hourly.dayOfWeek := Some (Some d);
     Hourly.p_plays := Z.of_nat (length hits);
     Hourly.p_duration := sumDuration hits |}.

(** The plays of a list of patterns, added up. *)
Definition hourlyPlays (patterns : list Hourly.Pattern) : Z :=
  fold_right Z.add 0 (map Hourly.p_plays patterns).

Definition dailyPlays (patterns : list DayOfWeek.Pattern) : Z :=
  fold_right Z.add 0 (map DayOfWeek.plays patterns).

(** The records that have a timestamp. *)
Definition stamped (allItems : list Item) : list Item :=
  List.filter hasTimestamp allItems.

(** The key of an hour and a weekday, as the template prints it. *)
Definition slotKey (h d : option nat) : string :=
  String.append (Hourly.toString h) (String.append "-" (Hourly.toString d)).

End AuxDay.

(** ** The hour chart of the client (HourOfDayHeatmap.tsx, lines 46-91) *)

Module Chart.

(** [x || 0] on a number *)
Definition orZero (q : Q) : Q := if Qeq_bool q 0 then 0%Q else q.

(** The body of [patterns.forEach] in the simple hourly aggregation. *)
Definition visit (hourMap : list (option nat * Hourly.Bucket))
    (pattern : Hourly.Pattern) : list (option nat * Hourly.Bucket) :=
  let existing :=
    match NumMap.get hourMap (Hourly.hour pattern) with
    | Some b => b
    | None => {| Hourly.plays := 0; Hourly.duration := 0%Q |}
    end in
  NumMap.set hourMap (Hourly.hour pattern)
    {| Hourly.plays := Hourly.plays existing + Hourly.p_plays pattern;
       Hourly.duration := (Hourly.duration existing + Hourly.p_duration pattern)%Q |}.

(** A row of the chart. *)
Record Row := mkRow { label : string; plays : Z; duration : Q }.

(** [Array.from({ length: 24 }, (_, i) => ...)] *)
Definition row (hourMap : list (option nat * Hourly.Bucket)) (i : nat) : Row :=
  {| label := String.append (Hourly.toString (Some i)) ":00";
     plays := match NumMap.get hourMap (Some i) with
              | Some b => Hourly.plays b
              | None => 0
              end;
     duration := match NumMap.get hourMap (Some i) with
                 | Some b => orZero (Hourly.duration b)
                 | None => 0%Q
                 end |}.

(** [chartData] for [includeDayOfWeek = false], from the patterns the
    route sent (an hour the route sent as NaN arrives as [null]). *)
Definition chartData (patterns : list Hourly.Pattern) : list Row :=
  let hourMap := fold_left visit patterns [] in
  map (row hourMap) (seq 0 24).

End Chart.

(** ** The time series of a device (lines 244-303) *)

Module Timeseries.

(** An entry of [timeSeriesData]. *)
Record Point := mkPoint {
  timestamp : Timestamp;
  ad_filename : option string;
  play_duration : option Q;
  play_id : string
}.

(** [item => ({ timestamp, ad_filename, play_duration, play_id })] *)
Definition project (item : Item) : Point :=
  match item with
  | mkItem id _ ad ts d =>
      {| timestamp := ts; ad_filename := ad; play_duration := d; play_id := id |}
  end.

(** The body of the reply: [{ deviceId, items, count }]. *)
Record Series := mkSeries { deviceId : string; items : list Point; count : Z }.

Section Route.
Context (send : Command -> Outcome QueryOutput).

(** The [while (hasMore)] loop of the route, with the query of the
    walker written out once more. *)
Fixpoint pages (fuel : nat) (device : string) (gathered : list Item)
    (lastEvaluatedKey : option DbKey) : Outcome (list Item) :=
  match fuel with
  | O => Pending
  | S fuel' =>
      response ← send (QueryCommand
                         {| TableName := tableName;
                            IndexName := Some "device-index";
                            KeyConditionExpression := "#device = :device";
                            FilterExpression := None;
                            ExpressionAttributeNames := [("#device", "device_id")];
                            ExpressionAttributeValues := [(":device", VStr device)];
                            ExclusiveStartKey := lastEvaluatedKey;
                            Limit := None |});
      let gathered' :=
        match Items response with
        | Some page => gathered ++ page
        | None => gathered
        end in
      match LastEvaluatedKey response with
      | Some key => pages fuel' device gathered' (Some key)
      | None => Ok gathered'
      end
  end.

(** [GET /api/stats/device/:deviceId/timeseries] *)
Definition getTimeseries (fuel : nat) (device : string)
    : Outcome (Http.Reply Series) :=
  tryCatch
    (gathered ← pages fuel device [] None;
     let timeSeriesData := map project gathered in
     Ok (Http.Success {| deviceId := device;
                         items := timeSeriesData;
                         count := Z.of_nat (length timeSeriesData) |}))
    (fun e => Ok (Http.serverError e "Failed to fetch time series data")).
End Route.

End Timeseries.

(** ** Device comparison (lines 916-972) *)

Module Comparison.

Record DeviceStat := mkDeviceStat {
  deviceId : string;
  totalPlays : Z;
  avgPlaysPerDay : JS.jsnum;
  totalDuration : Q
}.

(** The statistics of a device from its records. The average per day
    is computed as the frequency of the leaderboard is, on the records
    sorted in place by time. *)
Definition stat (device : string) (items : list Item) : DeviceStat :=
  let totalPlays := Z.of_nat (length items) in
  let totalDuration := sumDuration items in
  let sorted := JS.sort byTimeAscending items in
  {| deviceId := device;
     totalPlays := totalPlays;
     avgPlaysPerDay :=
       Leaderboard.round2 (Leaderboard.frequencyOf sorted totalPlays);
     totalDuration := totalDuration |}.

Section Route.
Context (s3 : ListObjectsInput -> Outcome ListObjectsOutput)
        (send : Command -> Outcome QueryOutput).

(** [getAllItemsForDevice] on the store as the request finds it. *)
Definition allItems (fuel : nat) (device : string) : Outcome (list Item) :=
  fst (Walker.getAllItemsForDevice (Aux.stateless send) fuel device tt).

(** The callback of [devices.map]: it has no [catch] of its own. *)
Definition deviceStat (fuel : nat) (device : string) : Outcome DeviceStat :=
  items ← allItems fuel device; Ok (stat device items).

(** [GET /api/stats/devices/comparison], past the cache. *)
Definition getComparison (fuel : nat) : Outcome (Http.Reply (list DeviceStat)) :=
  tryCatch
    (devices ← Listing.getAllDevices s3;
     deviceStats ← awaitAll (map (deviceStat fuel) devices);
     Ok (Http.Success deviceStats))
    (fun e => Ok (Http.serverError e "Failed to fetch device comparison")).
End Route.

End Comparison.

(** ** Latest screenshots (lines 1089-1159) *)

Module Screenshots.

(** An entry of [screenshots]; [lastModified] stands for the ISO string
    of that instant. *)
Record Entry := mkEntry {
  deviceId : string;
  screenshotUrl : option string;
  screenshotKey : option string;
  lastModified : option Z;
  error : option string
}.

(** [obj.Key && obj.Key.endsWith('.png')] *)
Definition isPng (obj : S3Object) : bool :=
  JS.truthyStr (Key obj) &&
  match Key obj with Some k => JS.endsWith k ".png" | None => false end.

(** [obj.LastModified?.getTime() || 0] *)
Definition modified (obj : S3Object) : Z := default 0 (LastModified obj).

(** "Sort by LastModified date (most recent first)". *)
Definition byLatest (a b : S3Object) : JS.jsnum :=
  JS.Num (inject_Z (modified b - modified a)).

Definition none (device : string) (err : option string) : Entry :=
  {| deviceId := device; screenshotUrl := None; screenshotKey := None;
     lastModified := None; error := err |}.

Section Route.
(** The bucket of the screenshots depends on the environment; the
    presigner may fail as any call may. *)
Context (SCREENSHOT_BUCKET : string)
        (s3 : ListObjectsInput -> Outcome ListObjectsOutput)
        (getSignedUrl : string -> string -> Z -> Outcome string).

(** The callback of [devices.map]. *)
Definition entry (device : string) : Outcome Entry :=
  tryCatch
    (response ← s3 {| Bucket := SCREENSHOT_BUCKET;
                      Prefix := Some (Listing.devicePrefix device);
                      Delimiter := None |};
     let screenshots :=
       JS.sort byLatest (List.filter isPng (default [] (Contents response))) in
     match screenshots with
     | [] => Ok (none device None)
     | latest :: _ =>
         let key := default "" (Key latest) in
         url ← getSignedUrl SCREENSHOT_BUCKET key 3600;
         Ok {| deviceId := device;
               screenshotUrl := Some url;
               screenshotKey := Some key;
               lastModified := LastModified latest;
               error := None |}
     end)
    (fun e => Ok (none device (Some (message e)))).

(** [GET /api/screenshots] *)
Definition getScreenshots : Outcome (Http.Reply (list Entry)) :=
  tryCatch
    (devices ← Listing.getAllDevices s3;
     screenshotData ← awaitAll (map entry devices);
     Ok (Http.Success screenshotData))
    (fun e => Ok (Http.serverError e "Failed to fetch screenshots")).
End Route.

End Screenshots.

(** ** The per-ad statistics of a device, with their cache (lines 305-430) *)

Module CachedAds.

Section Route.
Context (s3 : ListObjectsInput -> Outcome ListObjectsOutput)
        (send : Command -> Outcome QueryOutput).

(** [GET /api/stats/device/:deviceId/ads?refresh=...] with
    [deviceAdsCache]: [now] is the clock when the cache is read,
    [later] when the response is stored. Only a computed response is
    stored; the reply of the [catch] is not. *)
Definition getDeviceAdStats
    (cache : gmap string (Cache.CacheEntry (string * list DeviceAds.AdStat)))
    (forceRefresh : bool) (now later : Z) (fuel : nat) (deviceId : string)
    : Outcome (Http.Reply (string * list DeviceAds.AdStat)) *
      gmap string (Cache.CacheEntry (string * list DeviceAds.AdStat)) :=
  let (cached, cache1) :=
    if forceRefresh then (None, cache)
    else Cache.getCached cache deviceId Cache.CACHE_TTL now in
  match cached with
  | Some body => (Ok (Http.Success body), cache1)
  | None =>
      match DeviceAds.getDeviceAdStats s3 send fuel deviceId with
      | Ok (Http.Success response) =>
          (Ok (Http.Success response),
           Cache.setCached cache1 deviceId response later)
      | other => (other, cache1)
      end
  end.
End Route.

End CachedAds.


(** ** The aggregate routes around their computations (lines 489-753) *)

Module Aggregate.

Section Loop.
Context {St : Type} (send : Command -> St -> Outcome QueryOutput * St).

(** [for (const deviceId of devices) { const items = await
    getAllItemsForDevice(deviceId); allItems.push(...items) }]: the
    walks run one after the other on the store. *)
Fixpoint gatherAll (fuel : nat) (devices : list string) (allItems : list Item)
    (st : St) : Outcome (list Item) * St :=
  match devices with
  | [] => (Ok allItems, st)
  | deviceId :: rest =>
      match Walker.getAllItemsForDevice send fuel deviceId st with
      | (Ok items, st') => gatherAll fuel rest (allItems ++ items) st'
      | (Throw e, st') => (Throw e, st')
      | (Pending, st') => (Pending, st')
      end
  end.

(** The loop of the summary: it also visits the records of each device
    for [uniqueAds] and [totalDuration], with the body of the [forEach]
    that [getWeekStats] has. *)
Fixpoint gatherSummary (fuel : nat) (devices : list string)
    (acc : list Item * (gset string * Q)) (st : St)
    : Outcome (list Item * (gset string * Q)) * St :=
  match devices with
  | [] => (Ok acc, st)
  | deviceId :: rest =>
      match Walker.getAllItemsForDevice send fuel deviceId st with
      | (Ok items, st') =>
          gatherSummary fuel rest
            (fst acc ++ items, fold_left Week.visit items (snd acc)) st'
      | (Throw e, st') => (Throw e, st')
      | (Pending, st') => (Pending, st')
      end
  end.
End Loop.

(** The body of the summary. *)
Record Summary := mkSummary {
  totalPlays : Z;
  totalPlays24hr : Z;
  totalPlays7d : Z;
  totalPlays30d : Z;
  uniqueAds : Z;
  totalDuration : Q;
  activeDevices : Z;
  avgPlaysPerDevice : Q
}.

(** [Math.round(v * 100) / 100] *)
Definition round2 (v : Q) : Q :=
  (inject_Z (Qfloor (v * 100 + (1 # 2))) / 100)%Q.

Section Routes.
(** [atLeast item bound] stands for [item.timestamp >= iso], where
    [iso] is the ISO string of the instant [bound]: the route compares
    the stored attribute itself with that string, not the instant it
    denotes, so the outcome is left to the attribute. *)
Context (s3 : ListObjectsInput -> Outcome ListObjectsOutput)
        {St : Type} (send : Command -> St -> Outcome QueryOutput * St)
        (atLeast : Item -> Z -> bool).

(** What the four routes that gather all records share: the listing
    of the devices, the loop, the response and the [catch] with the
    message of the route. *)
Definition route {A B : Type}
    (loop : list string -> St -> Outcome A * St)
    (respond : list string -> A -> B) (fallback : string) (st : St)
    : Outcome (Http.Reply B) * St :=
  match Listing.getAllDevices s3 with
  | Ok devices =>
      let (gathered, st') := loop devices st in
      (tryCatch
         (a ← gathered; Ok (Http.Success (respond devices a)))
         (fun e => Ok (Http.serverError e fallback)),
       st')
  | Throw e => (Ok (Http.serverError e fallback), st)
  | Pending => (Pending, st)
  end.

(** [GET /api/stats/aggregate/hourly-patterns], past the cache. *)
Definition getHourlyPatterns (includeDayOfWeek : bool) (fuel : nat) (st : St)
    : Outcome (Http.Reply (list Hourly.Pattern)) * St :=
  route (fun devices => gatherAll send fuel devices [])
        (fun _ allItems => Hourly.hourlyPatterns includeDayOfWeek allItems)
        "Failed to fetch hourly patterns" st.

(** [GET /api/stats/aggregate/day-of-week], past the cache. *)
Definition getDayOfWeek (fuel : nat) (st : St)
    : Outcome (Http.Reply (list DayOfWeek.Pattern)) * St :=
  route (fun devices => gatherAll send fuel devices [])
        (fun _ allItems => DayOfWeek.dayOfWeekPatterns allItems)
        "Failed to fetch day of week patterns" st.

(** [GET /api/stats/aggregate/week-comparison], past the cache; [now]
    is the clock after the loop. *)
Definition getWeekComparison (now : Z) (fuel : nat) (st : St)
    : Outcome (Http.Reply Week.Comparison) * St :=
  route (fun devices => gatherAll send fuel devices [])
        (fun _ allItems => Week.weekComparison now allItems)
        "Failed to fetch week comparison" st.

Definition summaryOf (now : Z) (devices : list string)
    (acc : list Item * (gset string * Q)) : Summary :=
  let oneDayAgo := now - 24 * 60 * 60 * 1000 in
  let sevenDaysAgo := now - 7 * 24 * 60 * 60 * 1000 in
  let thirtyDaysAgo := now - 30 * 24 * 60 * 60 * 1000 in
  let allItems := fst acc in
  let totalPlays := Z.of_nat (length allItems) in
  let activeDevices := Z.of_nat (length devices) in
  let avgPlaysPerDevice :=
    if activeDevices >? 0
    then (inject_Z totalPlays / inject_Z activeDevices)%Q else 0%Q in
  {| totalPlays := totalPlays;
     totalPlays24hr :=
       Z.of_nat (length (List.filter (fun item => atLeast item oneDayAgo) allItems));
     totalPlays7d :=
       Z.of_nat (length (List.filter (fun item => atLeast item sevenDaysAgo) allItems));
     totalPlays30d :=
       Z.of_nat (length (List.filter (fun item => atLeast item thirtyDaysAgo) allItems));
     uniqueAds := Z.of_nat (size (fst (snd acc)));
     totalDuration := snd (snd acc);
     activeDevices := activeDevices;
     avgPlaysPerDevice := round2 avgPlaysPerDevice |}.

(** [GET /api/stats/aggregate/summary], past the cache; [now] is the
    clock before the loop. *)
Definition getSummary (now : Z) (fuel : nat) (st : St)
    : Outcome (Http.Reply Summary) * St :=
  route (fun devices => gatherSummary send fuel devices ([], (∅, 0%Q)))
        (summaryOf now) "Failed to fetch aggregate summary" st.
End Routes.

End Aggregate.

(** ** Reading a key condition *)

Module Expr.

(** What the spaces of an expression separate. *)
Fixpoint tokens (s : string) : list string :=
  match s with
  | EmptyString => [EmptyString]
  | String c s' =>
      if Ascii.eqb c " "%char then EmptyString :: tokens s'
      else match tokens s' with
           | t :: ts => String c t :: ts
           | [] => [String c EmptyString]
           end
  end.

(** The placeholders an expression mentions: of values ([:name]) and
    of attribute names ([#name]), in the order of their mention. *)
Definition valueRefs (expr : string) : list string :=
  List.filter (fun t => JS.startsWith t ":") (tokens expr).

Definition nameRefs (expr : string) : list string :=
  List.filter (fun t => JS.startsWith t "#") (tokens expr).

(** A body names a sort key and gives no value for it. *)
Definition bareSortKey (body : Stats.Body) : bool :=
  match Stats.sortKey body with
  | Some k => negb (String.eqb k "")
  | None => false
  end &&
  match Stats.sortValue body, Stats.sortValueStart body, Stats.sortValueEnd body with
  | None, None, None => true
  | _, _, _ => false
  end.

End Expr.

(** ** Stores for the examples *)

Module Fixture.

(** A store in which [tv-1] has three plays over two days, whatever the
    query about it, and every other device has none. *)
Definition plays (cmd : Command) : Outcome QueryOutput :=
  match cmd with
  | QueryCommand params =>
      match ExpressionAttributeValues params with
      | (_, VStr device) :: _ =>
          if String.eqb device "tv-1"
          then Ok {| Items := Some [Sample.record "b" 172800000 20;
                                    Sample.record "a" 0 10;
                                    Sample.record "c" 86400000 30];
                     Count := Some 3; ScannedCount := Some 3;
                     LastEvaluatedKey := None |}
          else Ok {| Items := Some []; Count := Some 0;
                     ScannedCount := Some 0; LastEvaluatedKey := None |}
      | _ => Ok {| Items := Some []; Count := Some 0;
                   ScannedCount := Some 0; LastEvaluatedKey := None |}
      end
  | ScanCommand _ _ =>
      Ok {| Items := Some []; Count := Some 0;
            ScannedCount := Some 0; LastEvaluatedKey := None |}
  end.

(** The records that [plays] holds of a device. *)
Definition recordsOf (device : string) : list Item :=
  if String.eqb device "tv-1"
  then [Sample.record "b" 172800000 20; Sample.record "a" 0 10;
        Sample.record "c" 86400000 30]
  else [].

(** The comparison of a timestamp with a bound, for records that keep
    their timestamps as instants. *)
Definition atLeast (item : Item) (bound : Z) : bool :=
  Week.dateGe (timestamp item) bound.

(** A store that serves [tv-1] and rejects the queries about every
    other device. *)
Definition partial (cmd : Command) : Outcome QueryOutput :=
  match cmd with
  | QueryCommand params =>
      match ExpressionAttributeValues params with
      | (_, VStr device) :: _ =>
          if String.eqb device "tv-1" then plays cmd else Throw Sample.throttled
      | _ => Throw Sample.throttled
      end
  | ScanCommand _ _ => Throw Sample.throttled
  end.

(** A bucket of screenshots: two devices, the objects of [tv-1] with
    two [.png] files among them, the listing of [tv-2] refused. *)
Definition denied : Error := mkError "Access Denied" "AccessDenied".

Definition shots (input : ListObjectsInput) : Outcome ListObjectsOutput :=
  match Prefix input with
  | None =>
      Ok {| CommonPrefixes := Some [Some "tv-2/"; Some "tv-1/"];
            Contents := None |}
  | Some prefix =>
      if String.eqb prefix "tv-1/"
      then Ok {| CommonPrefixes := None;
                 Contents := Some [mkObject (Some "tv-1/0900.png") (Some 900);
                                   mkObject (Some "tv-1/notes.txt") (Some 2000);
                                   mkObject (Some "tv-1/1000.png") (Some 1000);
                                   mkObject None (Some 5000)] |}
      else Throw denied
  end.

(** A signer that always answers. *)
Definition sign (bucket key : string) (expiresIn : Z) : Outcome string :=
  Ok (String.append "https://" (String.append bucket (String.append "/" key))).

(** A request for the plays of a device between two instants. *)
Definition between : Stats.Body :=
  {| Stats.b_tableName := Some "attentv-ad-plays-prod"; Stats.b_limit := None;
     Stats.partitionKey := Some "device_id";
     Stats.partitionValue := Some (VStr "tv-1");
     Stats.sortKey := Some "timestamp"; Stats.sortValue := None;
     Stats.sortValueStart := Some (VStr "2025-01-01");
     Stats.sortValueEnd := Some (VStr "2025-02-01");
     Stats.indexName := Some "device-index" |}.

(** A store that rejects every command. *)
Definition down (cmd : Command) : Outcome QueryOutput := Throw Sample.throttled.

(** A storage service that refuses every listing. *)
Definition closed (input : ListObjectsInput) : Outcome ListObjectsOutput :=
  Throw denied.

End Fixture.
(** * Properties *)

(** ** The cache *)

Section CacheFacts.
Context {T : Type}.
Implicit Types (cache : gmap string (Cache.CacheEntry T)) (k : string) (v : T).

Lemma getCached_absent cache k ttl now :
  cache !! k = None -> Cache.getCached cache k ttl now = (None, cache).
Proof. intros H. unfold Cache.getCached. by rewrite H. Qed.

Lemma getCached_fresh cache k v t0 ttl now :
  cache !! k = Some (Cache.mkEntry v t0) -> now - t0 <= ttl ->
  Cache.getCached cache k ttl now = (Some v, cache).
Proof.
  intros H Hage. unfold Cache.getCached. rewrite H. simpl.
  destruct (Z.gtb_spec (now - t0) ttl); [lia | done].
Qed.

Lemma getCached_stale cache k v t0 ttl now :
  cache !! k = Some (Cache.mkEntry v t0) -> ttl < now - t0 ->
  Cache.getCached cache k ttl now = (None, delete k cache).
Proof.
  intros H Hage. unfold Cache.getCached. rewrite H. simpl.
  destruct (Z.gtb_spec (now - t0) ttl); [done | lia].
Qed.

Lemma setCached_lookup cache k v t0 :
  Cache.setCached cache k v t0 !! k = Some (Cache.mkEntry v t0).
Proof. unfold Cache.setCached. apply lookup_insert_eq. Qed.

(** C2. After [setCached(cache, k, v)] at time [t0], a
    [getCached(cache, k, t)] at time [t1] returns [v] and leaves the
    map as it is while [t1 - t0 <= t]; once [t1 - t0 > t] it returns
    null and hands back the map without an entry for [k]; and a key
    that has no entry reads as null (for every ttl [t > 0]). *)
Theorem getCached_setCached cache k v (t t0 t1 : Z) :
  0 < t ->
  let cache' := Cache.setCached cache k v t0 in
  (t1 - t0 <= t -> Cache.getCached cache' k t t1 = (Some v, cache')) /\
  (t < t1 - t0 ->
     fst (Cache.getCached cache' k t t1) = None /\
     snd (Cache.getCached cache' k t t1) !! k = None /\
     forall k', k' <> k ->
       snd (Cache.getCached cache' k t t1) !! k' = cache !! k') /\
  (forall (c : gmap string (Cache.CacheEntry T)) k',
     c !! k' = None -> Cache.getCached c k' t t1 = (None, c)).
Proof.
  intros _ cache'. repeat split.
  - intros Hage. eapply getCached_fresh; [apply setCached_lookup | done].
  - erewrite getCached_stale; [done | apply setCached_lookup | done].
  - erewrite getCached_stale; [| apply setCached_lookup | done].
    apply lookup_delete_eq.
  - intros k' Hk'. erewrite getCached_stale; [| apply setCached_lookup | done].
    simpl. rewrite lookup_delete_ne by done.
    unfold cache', Cache.setCached. by rewrite lookup_insert_ne.
  - intros c k' Hnone. by apply getCached_absent.
Qed.
End CacheFacts.

(** C2 at a concrete cache: an entry put at 1000 ms is read back at
    31000 ms under the 30 s ttl. *)
Lemma getCached_setCached_witness :
  Cache.getCached
    (Cache.setCached (∅ : gmap string (Cache.CacheEntry nat)) "tv-1" 7%nat 1000)
    "tv-1" 30000 31000 =
  (Some 7%nat, Cache.setCached ∅ "tv-1" 7%nat 1000).
Proof.
  apply (getCached_setCached (T := nat) ∅ "tv-1" 7%nat 30000 1000 31000); lia.
Defined.

(** ** The pagination walker *)

Section WalkerFacts.
Context {St : Type} (send : Command -> St -> Outcome QueryOutput * St).
Implicit Types (pages : list QueryOutput) (st : St) (log : list Command).

(** One more page: the loop adds its items and goes on or stops. *)
Lemma walk_step fuel deviceId items start st page st' :
  send (QueryCommand (Walker.queryParams deviceId start)) st = (Ok page, st') ->
  Walker.walk send (S fuel) deviceId items start st =
    match LastEvaluatedKey page with
    | Some key =>
        Walker.walk send fuel deviceId (items ++ Spec.itemsOf page) (Some key) st'
    | None => (Ok (items ++ Spec.itemsOf page), st')
    end.
Proof.
  intros Hsend. simpl. rewrite Hsend. unfold Spec.itemsOf.
  destruct (Items page); simpl; rewrite ?app_nil_r; reflexivity.
Qed.

Lemma walk_serves deviceId start st pages st' :
  Spec.Serves send deviceId start st pages st' ->
  forall fuel items, (length pages <= fuel)%nat ->
    Walker.walk send fuel deviceId items start st =
      (Ok (items ++ concat (map Spec.itemsOf pages)), st').
Proof.
  induction 1 as [start st page st' Hsend Hkey
                 | start st page key st' pages st'' Hsend Hkey _ IH];
    intros fuel items Hfuel; simpl in Hfuel.
  - destruct fuel as [| fuel]; [lia |].
    rewrite (walk_step _ _ _ _ _ _ _ Hsend), Hkey. simpl. by rewrite app_nil_r.
  - destruct fuel as [| fuel]; [lia |].
    rewrite (walk_step _ _ _ _ _ _ _ Hsend), Hkey.
    rewrite IH by lia. simpl. by rewrite app_assoc.
Qed.

(** A walk that has settled is not changed by more fuel. *)
Lemma walk_more_fuel fuel extra deviceId items start st r st' :
  Walker.walk send fuel deviceId items start st = (r, st') -> r <> Pending ->
  Walker.walk send (fuel + extra) deviceId items start st = (r, st').
Proof.
  revert items start st.
  induction fuel as [| fuel IH]; intros items start st Hrun Hsettled;
    simpl in Hrun.
  - injection Hrun as <- <-. done.
  - simpl. destruct (send (QueryCommand (Walker.queryParams deviceId start)) st)
      as [[response | e |] st1]; [| done | done].
    destruct (LastEvaluatedKey response); [by apply IH | done].
Qed.

(** The recording store serves the same pages and notes the queries. *)
Lemma serves_recording deviceId start st pages st' :
  Spec.Serves send deviceId start st pages st' ->
  forall log,
    Spec.Serves (Walker.recording send) deviceId start (st, log) pages
      (st', log ++ map (fun k => QueryCommand (Walker.queryParams deviceId k))
                       (start :: map LastEvaluatedKey (removelast pages))).
Proof.
  induction 1 as [start st page st' Hsend Hkey
                 | start st page key st' pages st'' Hsend Hkey Hrest IH];
    intros log.
  - apply Spec.Serves_last; [| done].
    unfold Walker.recording. simpl. by rewrite Hsend.
  - eapply Spec.Serves_more; [| exact Hkey |].
    + unfold Walker.recording. simpl. by rewrite Hsend.
    + specialize (IH (log ++ [QueryCommand (Walker.queryParams deviceId start)])).
      rewrite <- app_assoc in IH. simpl in IH.
      assert (Hne : pages <> []) by (inversion Hrest; done).
      destruct pages as [| p ps]; [done |].
      change (removelast (page :: p :: ps)) with (page :: removelast (p :: ps)).
      simpl map. rewrite Hkey. exact IH.
Qed.

Lemma queriesFor_length deviceId pages :
  pages <> [] -> length (Spec.queriesFor deviceId pages) = length pages.
Proof.
  intros Hne. unfold Spec.queriesFor.
  rewrite length_map. simpl. rewrite length_map.
  destruct pages as [| p ps]; [done |].
  clear Hne. revert p. induction ps as [| q ps IH]; intros p; [done |].
  change (removelast (p :: q :: ps)) with (p :: removelast (q :: ps)).
  simpl. f_equal. apply IH.
Qed.

End WalkerFacts.

Section WalkerClaim.
Context {St : Type} (send : Command -> St -> Outcome QueryOutput * St).
Implicit Types (pages : list QueryOutput) (st : St) (log : list Command).

(** The query of the walker is a query for the records of the device,
    and it carries the key the walker was left with. *)
Lemma queryParams_asksFor deviceId start :
  Paging.asksFor deviceId (QueryCommand (Walker.queryParams deviceId start)) /\
  Paging.startKey (QueryCommand (Walker.queryParams deviceId start)) = start.
Proof. split; [| reflexivity]. eexists. by repeat split. Qed.

Lemma returns_serves deviceId start st pages st' :
  Paging.Returns send deviceId start st pages st' ->
  Spec.Serves send deviceId start st pages st'.
Proof.
  induction 1 as [start st page st' Hsend Hkey
                 | start st page key st' pages st'' Hsend Hkey _ IH].
  - apply Spec.Serves_last; [| done].
    apply Hsend; apply queryParams_asksFor.
  - eapply Spec.Serves_more; [| exact Hkey | exact IH].
    apply Hsend; apply queryParams_asksFor.
Qed.

Lemma queriesFor_asksFor deviceId pages :
  List.Forall (Paging.asksFor deviceId) (Spec.queriesFor deviceId pages) /\
  map Paging.startKey (Spec.queriesFor deviceId pages) =
    None :: map LastEvaluatedKey (removelast pages).
Proof.
  unfold Spec.queriesFor.
  generalize (None :: map LastEvaluatedKey (removelast pages)).
  intros keys. split.
  - apply List.Forall_forall. intros cmd Hin.
    apply in_map_iff in Hin as (start & <- & _). apply queryParams_asksFor.
  - rewrite map_map. induction keys as [| k keys IH]; [done |].
    cbn [map]. f_equal. exact IH.
Qed.

(** C3. When the store returns a finite sequence of pages, each but
    the last with a continuation key, [getAllItemsForDevice] (given
    fuel for that many iterations) returns the items of all pages,
    concatenated in page order, after exactly one query per page; each
    of them is a query for the records of the device, the first
    without [ExclusiveStartKey], each next one with the
    [LastEvaluatedKey] of the page before as its [ExclusiveStartKey],
    and none follows the page without a key. The stub of 2/2/1 records
    yields 5 records after 3 calls. *)
Theorem getAllItemsForDevice_concatenates_pages deviceId st pages st' fuel log :
  Paging.Returns send deviceId None st pages st' ->
  (length pages <= fuel)%nat ->
  (exists queries,
     Walker.getAllItemsForDevice (Walker.recording send) fuel deviceId (st, log) =
       (Ok (concat (map Spec.itemsOf pages)), (st', log ++ queries)) /\
     length queries = length pages /\
     List.Forall (Paging.asksFor deviceId) queries /\
     map Paging.startKey queries =
       None :: map LastEvaluatedKey (removelast pages)) /\
  (let run := Walker.getAllItemsForDevice (Walker.recording Walker.stub) 3
                "tv-1" (Sample.threePages, []) in
   (exists items, fst run = Ok items /\ length items = 5%nat) /\
   length (snd (snd run)) = 3%nat).
Proof.
  intros Hreturns Hfuel. apply returns_serves in Hreturns as Hserves.
  split.
  - exists (Spec.queriesFor deviceId pages). split; [| split].
    + unfold Walker.getAllItemsForDevice.
      rewrite (walk_serves (Walker.recording send) deviceId None (st, log) pages
                 (st', log ++ Spec.queriesFor deviceId pages)); [done | | done].
      by apply serves_recording.
    + apply queriesFor_length. inversion Hserves; done.
    + apply queriesFor_asksFor.
  - split; [eexists; split; [reflexivity | reflexivity] | reflexivity].
Qed.
End WalkerClaim.

Lemma stub_serves_threePages :
  Spec.Serves Walker.stub "tv-1" None Sample.threePages Sample.threePages [].
Proof.
  eapply Spec.Serves_more; [reflexivity | reflexivity |].
  eapply Spec.Serves_more; [reflexivity | reflexivity |].
  eapply Spec.Serves_last; reflexivity.
Qed.

(** The double that serves by the key returns the three pages of the
    sample to a walk that passes the keys on. *)
Lemma keyed_returns_threePages :
  Paging.Returns (Paging.keyed Sample.threePages) "tv-1" None tt
    Sample.threePages tt.
Proof.
  eapply Paging.Returns_more; [| reflexivity |].
  { intros cmd _ Hkey. unfold Paging.keyed. by rewrite Hkey. }
  eapply Paging.Returns_more; [| reflexivity |].
  { intros cmd _ Hkey. unfold Paging.keyed. by rewrite Hkey. }
  eapply Paging.Returns_last; [| reflexivity].
  intros cmd _ Hkey. unfold Paging.keyed. by rewrite Hkey.
Qed.

(** C3 at the double that serves three pages by the key. *)
Lemma getAllItemsForDevice_concatenates_pages_witness :
  exists queries,
    Walker.getAllItemsForDevice
      (Walker.recording (Paging.keyed Sample.threePages)) 3 "tv-1" (tt, []) =
      (Ok (concat (map Spec.itemsOf Sample.threePages)), (tt, [] ++ queries)) /\
    length queries = length Sample.threePages /\
    List.Forall (Paging.asksFor "tv-1") queries /\
    map Paging.startKey queries =
      None :: map LastEvaluatedKey (removelast Sample.threePages).
Proof.
  apply (getAllItemsForDevice_concatenates_pages (Paging.keyed Sample.threePages)
           "tv-1" tt Sample.threePages tt 3%nat []).
  - exact keyed_returns_threePages.
  - simpl. lia.
Defined.

(** ** Week-over-week comparison *)

Section WeekFacts.
Implicit Types (now ts : Z) (item : Item).

Lemma inCurrentWeek_spec now item ts :
  timestamp item = TsAt ts ->
  Week.inCurrentWeek now item = true <-> now - 7 * Week.msPerDay <= ts.
Proof.
  intros Hts. unfold Week.inCurrentWeek, hasTimestamp, Week.dateGe.
  rewrite Hts. simpl. rewrite Z.geb_le. reflexivity.
Qed.

Lemma inPreviousWeek_spec now item ts :
  timestamp item = TsAt ts ->
  Week.inPreviousWeek now item = true <->
  now - 14 * Week.msPerDay <= ts < now - 7 * Week.msPerDay.
Proof.
  intros Hts. unfold Week.inPreviousWeek, hasTimestamp, Week.dateGe, Week.dateLt.
  rewrite Hts. simpl. rewrite andb_true_iff, Z.geb_le, Z.ltb_lt. reflexivity.
Qed.

(** A record without a readable timestamp is in neither window. *)
Lemma windows_need_timestamp now item :
  getTime (timestamp item) = None ->
  Week.inCurrentWeek now item = false /\ Week.inPreviousWeek now item = false.
Proof.
  intros Hnone. unfold Week.inCurrentWeek, Week.inPreviousWeek, Week.dateGe.
  rewrite Hnone. destruct (hasTimestamp item); done.
Qed.

Lemma windows_disjoint now item :
  Week.inCurrentWeek now item && Week.inPreviousWeek now item = false.
Proof.
  destruct (timestamp item) as [| | ts] eqn:Hts.
  - destruct (windows_need_timestamp now item) as [-> _]; [by rewrite Hts | done].
  - destruct (windows_need_timestamp now item) as [-> _]; [by rewrite Hts | done].
  - destruct (Week.inCurrentWeek now item) eqn:Hc; [| done].
    destruct (Week.inPreviousWeek now item) eqn:Hp; [| done].
    apply (inCurrentWeek_spec now item ts Hts) in Hc.
    apply (inPreviousWeek_spec now item ts Hts) in Hp. lia.
Qed.

Lemma week_example_current now :
  Week.currentWeekItems now
    [Sample.record "a" (now - 3 * Week.msPerDay) 5;
     Sample.record "b" (now - 10 * Week.msPerDay) 5] =
  [Sample.record "a" (now - 3 * Week.msPerDay) 5].
Proof.
  unfold Week.currentWeekItems, Week.inCurrentWeek, Week.dateGe. simpl.
  assert ((now - 3 * Week.msPerDay >=? now - 7 * Week.msPerDay) = true) as ->
    by (apply Z.geb_le; unfold Week.msPerDay; lia).
  destruct (Z.geb_spec (now - 10 * Week.msPerDay) (now - 7 * Week.msPerDay))
    as [Hge |]; [unfold Week.msPerDay in Hge; lia | reflexivity].
Qed.

Lemma week_example_previous now :
  Week.previousWeekItems now
    [Sample.record "a" (now - 3 * Week.msPerDay) 5;
     Sample.record "b" (now - 10 * Week.msPerDay) 5] =
  [Sample.record "b" (now - 10 * Week.msPerDay) 5].
Proof.
  unfold Week.previousWeekItems, Week.inPreviousWeek, Week.dateGe, Week.dateLt.
  simpl.
  assert ((now - 3 * Week.msPerDay <? now - 7 * Week.msPerDay) = false) as ->
    by (apply Z.ltb_ge; unfold Week.msPerDay; lia).
  assert ((now - 10 * Week.msPerDay >=? now - 14 * Week.msPerDay) = true) as ->
    by (apply Z.geb_le; unfold Week.msPerDay; lia).
  assert ((now - 10 * Week.msPerDay <? now - 7 * Week.msPerDay) = true) as ->
    by (apply Z.ltb_lt; unfold Week.msPerDay; lia).
  rewrite andb_false_r. reflexivity.
Qed.

(** C1. A record with timestamp [ts] is in [currentWeek] iff
    [ts >= now - 7 days] and in [previousWeek] iff
    [now - 14 days <= ts < now - 7 days]; the plays of a window count the
    records in it, no record is in both, and one exactly 7 days old is
    in [currentWeek] only; every field of [change] is the [currentWeek]
    value minus the [previousWeek] value; records at [now - 3d] and
    [now - 10d] give plays 1 and 1, and a change of 0. *)
Theorem weekComparison_windows now (allItems : list Item) :
  let oneWeekAgo := now - 7 * Week.msPerDay in
  let twoWeeksAgo := now - 14 * Week.msPerDay in
  let c := Week.weekComparison now allItems in
  (forall item ts, timestamp item = TsAt ts ->
     (In item (Week.currentWeekItems now allItems) <->
        In item allItems /\ oneWeekAgo <= ts) /\
     (In item (Week.previousWeekItems now allItems) <->
        In item allItems /\ twoWeeksAgo <= ts < oneWeekAgo)) /\
  Week.plays (Week.currentWeek c) =
    Z.of_nat (length (Week.currentWeekItems now allItems)) /\
  Week.plays (Week.previousWeek c) =
    Z.of_nat (length (Week.previousWeekItems now allItems)) /\
  (forall item, ~ (In item (Week.currentWeekItems now allItems) /\
                   In item (Week.previousWeekItems now allItems))) /\
  (forall item, In item allItems -> timestamp item = TsAt oneWeekAgo ->
     In item (Week.currentWeekItems now allItems) /\
     ~ In item (Week.previousWeekItems now allItems)) /\
  Week.plays (Week.change c) =
    Week.plays (Week.currentWeek c) - Week.plays (Week.previousWeek c) /\
  Week.duration (Week.change c) =
    (Week.duration (Week.currentWeek c) - Week.duration (Week.previousWeek c))%Q /\
  Week.uniqueAds (Week.change c) =
    Week.uniqueAds (Week.currentWeek c) - Week.uniqueAds (Week.previousWeek c) /\
  (let two := Week.weekComparison now
                [Sample.record "a" (now - 3 * Week.msPerDay) 5;
                 Sample.record "b" (now - 10 * Week.msPerDay) 5] in
   Week.plays (Week.currentWeek two) = 1 /\
   Week.plays (Week.previousWeek two) = 1 /\
   Week.plays (Week.change two) = 0).
Proof.
  intros oneWeekAgo twoWeeksAgo c.
  split; [| split; [| split; [| split; [| split]]]].
  - intros item ts Hts. unfold Week.currentWeekItems, Week.previousWeekItems.
    rewrite !filter_In, (inCurrentWeek_spec now item ts Hts),
      (inPreviousWeek_spec now item ts Hts). done.
  - reflexivity.
  - reflexivity.
  - intros item [Hc Hp]. unfold Week.currentWeekItems, Week.previousWeekItems in *.
    apply filter_In in Hc as [_ Hc]. apply filter_In in Hp as [_ Hp].
    pose proof (windows_disjoint now item) as Hd. rewrite Hc, Hp in Hd. done.
  - intros item Hin Hts. unfold Week.currentWeekItems, Week.previousWeekItems.
    rewrite !filter_In, (inCurrentWeek_spec now item _ Hts),
      (inPreviousWeek_spec now item _ Hts). unfold oneWeekAgo. split; [split |].
    + done.
    + lia.
    + intros [_ ?]. lia.
  - split; [reflexivity | split; [reflexivity | split; [reflexivity |]]].
    cbv zeta. unfold Week.weekComparison.
    rewrite (week_example_current now), (week_example_previous now).
    repeat split; reflexivity.
Qed.
End WeekFacts.

(** ** Hourly patterns *)

Section HourMapFacts.
Implicit Types (m : Hourly.HourMap) (k : string) (v : Hourly.Bucket).

Lemma get_set_eq m k v : Hourly.get (Hourly.set m k v) k = Some v.
Proof.
  induction m as [| [k' w] m IH]; simpl.
  - by rewrite String.eqb_refl.
  - destruct (String.eqb k' k) eqn:E; simpl; rewrite E; done.
Qed.

Lemma get_set_ne m k k' v :
  k <> k' -> Hourly.get (Hourly.set m k v) k' = Hourly.get m k'.
Proof.
  intros Hne. induction m as [| [k0 w] m IH]; simpl.
  - destruct (String.eqb_spec k k'); done.
  - destruct (String.eqb_spec k0 k) as [-> |]; simpl.
    + destruct (String.eqb_spec k k'); done.
    + destruct (String.eqb_spec k0 k'); done.
Qed.

Lemma get_None_keys m k : Hourly.get m k = None -> ~ In k (map fst m).
Proof.
  induction m as [| [k' w] m IH]; simpl; [tauto |].
  destruct (String.eqb_spec k' k); [done |]. intros H [? | ?]; [done |].
  by apply IH.
Qed.

Lemma keys_set m k v :
  map fst (Hourly.set m k v) =
  match Hourly.get m k with
  | Some _ => map fst m
  | None => map fst m ++ [k]
  end.
Proof.
  induction m as [| [k' w] m IH]; simpl; [done |].
  destruct (String.eqb_spec k' k); simpl; [done |].
  rewrite IH. by destruct (Hourly.get m k).
Qed.

Lemma NoDup_keys_set m k v :
  NoDup (map fst m) -> NoDup (map fst (Hourly.set m k v)).
Proof.
  intros Hnd. rewrite keys_set.
  destruct (Hourly.get m k) eqn:Hget; [done |].
  apply get_None_keys in Hget.
  apply NoDup_ListNoDup, List.NoDup_app; repeat split.
  - by apply NoDup_ListNoDup.
  - constructor; [simpl; tauto | constructor].
  - intros x Hx [<- | []]. done.
Qed.

(** With distinct keys, the entries under one key are the one [get]
    finds. *)
Lemma filter_key m k :
  NoDup (map fst m) ->
  List.filter (fun e => String.eqb (fst e) k) m =
  match Hourly.get m k with Some v => [(k, v)] | None => [] end.
Proof.
  induction m as [| [k' w] m IH]; simpl; [done |].
  intros Hnd. apply NoDup_cons in Hnd as [Hk' Hnd].
  destruct (String.eqb_spec k' k) as [-> |].
  - f_equal. clear IH Hnd. induction m as [| [k0 w0] m IH]; simpl; [done |].
    destruct (String.eqb_spec k0 k) as [-> |].
    + exfalso. apply Hk'. simpl. apply elem_of_cons. by left.
    + apply IH. simpl in Hk'. by apply not_elem_of_cons in Hk' as [_ ?].
  - by apply IH.
Qed.
End HourMapFacts.

Section HourlyFacts.
Implicit Types (m : Hourly.HourMap) (item : Item) (h : nat).

(** Keys without a day of week: [Number] reads back what [toString]
    printed, and [split] finds no dash in it. *)
Lemma Number_toString (o : option nat) : Hourly.Number (Hourly.toString o) = o.
Proof.
  destruct o as [k |]; [| reflexivity].
  unfold Hourly.Number, Hourly.toString.
  by rewrite NilEmpty.usu, DecimalNat.Unsigned.of_to.
Qed.

Lemma toString_inj (o1 o2 : option nat) :
  Hourly.toString o1 = Hourly.toString o2 -> o1 = o2.
Proof.
  intros H. rewrite <- (Number_toString o1), <- (Number_toString o2). by rewrite H.
Qed.

Lemma split_digits (d : Decimal.uint) :
  Hourly.split (NilEmpty.string_of_uint d) = [NilEmpty.string_of_uint d].
Proof. induction d; simpl; rewrite ?IHd; reflexivity. Qed.

Lemma split_toString (o : option nat) :
  Hourly.split (Hourly.toString o) = [Hourly.toString o].
Proof. destruct o; [apply split_digits | reflexivity]. Qed.

Lemma hour_toPattern (o : option nat) (b : Hourly.Bucket) :
  Hourly.hour (Hourly.toPattern false (Hourly.toString o, b)) = o.
Proof.
  unfold Hourly.toPattern. simpl. rewrite split_toString. simpl.
  apply Number_toString.
Qed.

(** The key of a record is that of hour [h] exactly when the record
    falls in hour [h]. *)
Lemma inHour_key item h :
  Spec.inHour h item =
  hasTimestamp item &&
  String.eqb (Hourly.keyOf false (timestamp item)) (Hourly.toString (Some h)).
Proof.
  unfold Spec.inHour, hasTimestamp, Hourly.keyOf, Hourly.getUTCHours.
  destruct (timestamp item) as [| | ms]; simpl getTime; cbv iota beta.
  - reflexivity.
  - symmetry. apply String.eqb_neq. intros H.
    by apply (toString_inj None (Some h)) in H.
  - simpl andb. change Hourly.msPerHour with 3600000.
    pose proof (Z.mod_pos_bound (ms / 3600000) 24 ltac:(lia)) as Hb.
    destruct (Z.eqb_spec ((ms / 3600000) mod 24) (Z.of_nat h)) as [-> | Hne].
    + rewrite Nat2Z.id. symmetry. apply String.eqb_refl.
    + symmetry. apply String.eqb_neq. intros H.
      apply (toString_inj (Some _) (Some h)) in H. injection H as H. lia.
Qed.

Lemma hourKeys_set m k v :
  Spec.hourKeys m -> (exists o : option nat, k = Hourly.toString o) ->
  Spec.hourKeys (Hourly.set m k v).
Proof.
  intros Hm Hk. unfold Spec.hourKeys in *.
  induction m as [| [k' w] m IH]; simpl.
  - constructor; [done | constructor].
  - apply Forall_cons in Hm as [Hk' Hm].
    destruct (String.eqb k' k); constructor; auto.
Qed.

Lemma hourKeys_visit m item :
  Spec.hourKeys m -> Spec.hourKeys (Hourly.visit false m item).
Proof.
  intros Hm. unfold Hourly.visit.
  destruct (hasTimestamp item); simpl; [| done].
  apply hourKeys_set; [done |]. unfold Hourly.keyOf. eauto.
Qed.

Lemma NoDup_keys_visit m item :
  NoDup (map fst m) -> NoDup (map fst (Hourly.visit false m item)).
Proof.
  intros Hm. unfold Hourly.visit.
  destruct (hasTimestamp item); simpl; [| done]. by apply NoDup_keys_set.
Qed.

Lemma get_visit m item h :
  Hourly.get (Hourly.visit false m item) (Hourly.toString (Some h)) =
  if Spec.inHour h item
  then Spec.tally (Hourly.get m (Hourly.toString (Some h))) item
  else Hourly.get m (Hourly.toString (Some h)).
Proof.
  rewrite inHour_key. unfold Hourly.visit.
  destruct (hasTimestamp item); cbn [negb andb]; [| done].
  destruct (String.eqb_spec (Hourly.keyOf false (timestamp item))
              (Hourly.toString (Some h))) as [-> | Hne].
  - rewrite get_set_eq. unfold Spec.tally.
    by destruct (Hourly.get m (Hourly.toString (Some h))).
  - by rewrite get_set_ne.
Qed.

Lemma get_fold (allItems : list Item) m h :
  Hourly.get (fold_left (Hourly.visit false) allItems m) (Hourly.toString (Some h)) =
  fold_left Spec.tally (List.filter (Spec.inHour h) allItems)
    (Hourly.get m (Hourly.toString (Some h))).
Proof.
  revert m. induction allItems as [| item rest IH]; intros m; simpl; [done |].
  rewrite IH, get_visit. by destruct (Spec.inHour h item).
Qed.

Lemma tally_fold (hits : list Item) (b : Hourly.Bucket) :
  fold_left Spec.tally hits (Some b) =
  Some {| Hourly.plays := Hourly.plays b + Z.of_nat (length hits);
          Hourly.duration :=
            fold_left (fun sum item => (sum + durationOr0 item)%Q) hits
              (Hourly.duration b) |}.
Proof.
  revert b. induction hits as [| item rest IH]; intros b.
  - simpl. rewrite Z.add_0_r. by destruct b.
  - cbn [fold_left]. unfold Spec.tally at 2. cbn [default from_option id].
    rewrite IH. cbn [Hourly.plays Hourly.duration length]. do 2 f_equal. lia.
Qed.

Lemma fold_invariants (allItems : list Item) m :
  NoDup (map fst m) -> Spec.hourKeys m ->
  NoDup (map fst (fold_left (Hourly.visit false) allItems m)) /\
  Spec.hourKeys (fold_left (Hourly.visit false) allItems m).
Proof.
  revert m. induction allItems as [| item rest IH]; intros m Hnd Hk; simpl.
  - done.
  - apply IH; [by apply NoDup_keys_visit | by apply hourKeys_visit].
Qed.
End HourlyFacts.

Section HourlyClaim.

Lemma filter_map_swap {A B : Type} (f : A -> B) (p : B -> bool) (l : list A) :
  List.filter p (map f l) = map f (List.filter (fun a => p (f a)) l).
Proof.
  induction l as [| a l IH]; simpl; [done |].
  destruct (p (f a)); simpl; by rewrite IH.
Qed.

(** The patterns of hour [h] are the entries of the map under the key
    of [h]. *)
Lemma patterns_of_hour (m : Hourly.HourMap) (h : nat) :
  NoDup (map fst m) -> Spec.hourKeys m ->
  List.filter (fun p => bool_decide (Hourly.hour p = Some h))
    (map (Hourly.toPattern false) m) =
  match Hourly.get m (Hourly.toString (Some h)) with
  | Some b => [Hourly.toPattern false (Hourly.toString (Some h), b)]
  | None => []
  end.
Proof.
  intros Hnd Hkeys. rewrite filter_map_swap.
  rewrite (List.filter_ext_in _
             (fun e => String.eqb (fst e) (Hourly.toString (Some h)))).
  - rewrite filter_key by done.
    by destruct (Hourly.get m (Hourly.toString (Some h))).
  - intros [k b] Hin. unfold Spec.hourKeys in Hkeys.
    rewrite List.Forall_forall in Hkeys.
    destruct (Hkeys _ Hin) as [o Ho]. simpl in Ho. subst k.
    rewrite hour_toPattern. simpl fst.
    destruct (String.eqb_spec (Hourly.toString o) (Hourly.toString (Some h)))
      as [Heq | Hne].
    + apply toString_inj in Heq. by apply bool_decide_eq_true.
    + apply bool_decide_eq_false. by intros ->.
Qed.

(** C4 (amended). With [includeDayOfWeek = false], the patterns hold
    one bucket for each UTC hour in which at least one record falls,
    with the number of those records as [plays] and the sum of their
    durations as [duration], and no bucket for an hour in which no
    record falls. Records in hours 3, 3 and 14 yield the two buckets
    [{hour: 3, plays: 2}] and [{hour: 14, plays: 1}], and nothing else. *)
Theorem hourlyPatterns_populated_hours (allItems : list Item) (h : nat) :
  let hits := List.filter (Spec.inHour h) allItems in
  List.filter (fun p => bool_decide (Hourly.hour p = Some h))
    (Hourly.hourlyPatterns false allItems) =
    match hits with
    | [] => []
    | _ :: _ => [Spec.bucketOf h hits]
    end /\
  Hourly.hourlyPatterns false Sample.hours_3_3_14 =
    [Spec.bucketOf 3 (firstn 2 Sample.hours_3_3_14);
     Spec.bucketOf 14 (skipn 2 Sample.hours_3_3_14)] /\
  map Hourly.p_plays (Hourly.hourlyPatterns false Sample.hours_3_3_14) = [2; 1].
Proof.
  intros hits. split; [| split; reflexivity].
  unfold Hourly.hourlyPatterns.
  destruct (fold_invariants allItems []) as [Hnd Hkeys];
    [constructor | constructor |].
  rewrite patterns_of_hour by done.
  rewrite get_fold. fold hits. simpl Hourly.get.
  destruct hits as [| item rest]; [done |].
  cbn [fold_left]. unfold Spec.tally at 2. cbn [default from_option id].
  rewrite tally_fold. f_equal.
  unfold Hourly.toPattern, Spec.bucketOf, sumDuration.
  cbn [fst snd Hourly.plays Hourly.duration fold_left length].
  rewrite split_toString. cbn [map]. rewrite Number_toString. f_equal. lia.
Qed.

(** C4 as stated fails: with records in hours 3, 3 and 14 the patterns
    are not 24 buckets, and hour 0 has none. *)
Lemma hourlyPatterns_all_hours_counterexample :
  ~ (forall h : nat, (h < 24)%nat ->
       exists p, In p (Hourly.hourlyPatterns false Sample.hours_3_3_14) /\
                 Hourly.hour p = Some h /\
                 (List.filter (Spec.inHour h) Sample.hours_3_3_14 = [] ->
                  Hourly.p_plays p = 0)).
Proof.
  intros Hall. destruct (Hall 0%nat ltac:(lia)) as (p & Hin & Hhour & _).
  vm_compute in Hin. destruct Hin as [<- | [<- | []]]; discriminate Hhour.
Qed.
End HourlyClaim.

(** ** [Array.prototype.sort] *)

Section SortFacts.
Context {A : Type} (comparefn : A -> A -> JS.jsnum).
Implicit Types (x y : A) (l : list A).

Lemma insert_Permutation x l : Permutation (JS.insert comparefn x l) (x :: l).
Proof.
  induction l as [| y l IH]; simpl; [done |].
  destruct (JS.positive (comparefn x y)); [| done].
  rewrite IH. apply perm_swap.
Qed.

Lemma sort_Permutation l : Permutation (JS.sort comparefn l) l.
Proof.
  induction l as [| x l IH]; simpl; [done |].
  unfold JS.sort in *. simpl. rewrite insert_Permutation. by constructor.
Qed.

Lemma sort_length l : length (JS.sort comparefn l) = length l.
Proof. apply Permutation_length, sort_Permutation. Qed.

Lemma sort_nonempty x l : JS.sort comparefn (x :: l) <> [].
Proof.
  intros H. pose proof (sort_length (x :: l)) as Hlen.
  rewrite H in Hlen. discriminate Hlen.
Qed.

(** When, on the elements of the array, the comparator decides an
    order [R] (no positive answer puts [x] before [y], a positive one
    [y] before [x]), the sorted array is in that order. *)
Section Ordered.
Context (R : A -> A -> Prop) (P : A -> Prop).
Hypothesis keeps : forall x y, P x -> P y ->
  JS.positive (comparefn x y) = false -> R x y.
Hypothesis swaps : forall x y, P x -> P y ->
  JS.positive (comparefn x y) = true -> R y x.

Lemma insert_HdRel z x l :
  R z x -> HdRel R z l -> HdRel R z (JS.insert comparefn x l).
Proof.
  intros Hzx Hl. destruct l as [| y l]; simpl; [by constructor |].
  destruct (JS.positive (comparefn x y)); [| by constructor].
  constructor. by inversion Hl.
Qed.

Lemma insert_Sorted x l :
  P x -> List.Forall P l -> Sorted R l -> Sorted R (JS.insert comparefn x l).
Proof.
  intros Hx HP Hl. induction l as [| y l IH]; simpl.
  - by repeat constructor.
  - apply List.Forall_cons_iff in HP as [Hy HP].
    apply Sorted_inv in Hl as [Hl Hhd].
    destruct (JS.positive (comparefn x y)) eqn:Hc.
    + constructor; [by apply IH |]. apply insert_HdRel; [| done]. by apply swaps.
    + constructor; [by constructor |]. constructor. by apply keeps.
Qed.

Lemma sort_Sorted l : List.Forall P l -> Sorted R (JS.sort comparefn l).
Proof.
  induction l as [| x l IH]; intros HP; [constructor |].
  apply List.Forall_cons_iff in HP as [Hx HP].
  change (JS.sort comparefn (x :: l))
    with (JS.insert comparefn x (JS.sort comparefn l)).
  apply insert_Sorted; [done | | by apply IH].
  eapply Permutation_Forall; [| exact HP].
  symmetry. apply sort_Permutation.
Qed.
End Ordered.
End SortFacts.

(** The order of strings. *)
Section StringOrder.

Lemma ascii_compare_N (a b : ascii) :
  Ascii.compare a b = (N_of_ascii a ?= N_of_ascii b)%N.
Proof. reflexivity. Qed.

Lemma string_compare_trans (c : comparison) (x y z : string) :
  c <> Eq -> String.compare x y = c -> String.compare y z = c ->
  String.compare x z = c.
Proof.
  intros Hc. revert y z.
  induction x as [| a x IH]; intros [| b y] [| d z]; simpl; try congruence.
  rewrite !ascii_compare_N.
  destruct (N.compare_spec (N_of_ascii a) (N_of_ascii b)) as [Hab | Hab | Hab];
    destruct (N.compare_spec (N_of_ascii b) (N_of_ascii d)) as [Hbd | Hbd | Hbd];
    destruct (N.compare_spec (N_of_ascii a) (N_of_ascii d)) as [Had | Had | Had];
    try lia; try congruence; intros; subst; eauto.
Qed.

Lemma ascending_trans (x y z : string) :
  Spec.ascending x y -> Spec.ascending y z -> Spec.ascending x z.
Proof.
  unfold Spec.ascending, String.leb. intros Hxy Hyz.
  destruct (String.compare x y) eqn:Exy; [| | done].
  - apply String.compare_eq_iff in Exy. by subst.
  - destruct (String.compare y z) eqn:Eyz; [| | done].
    + apply String.compare_eq_iff in Eyz. subst. by rewrite Exy.
    + by rewrite (string_compare_trans Lt x y z).
Qed.

Lemma ascending_Transitive : Transitive Spec.ascending.
Proof. intros x y z. apply ascending_trans. Qed.

(** [sort()] puts strings in ascending order and keeps them all. *)
Lemma sortStrings_sorted (l : list string) :
  StronglySorted Spec.ascending (JS.sortStrings l).
Proof.
  apply Sorted_StronglySorted; [apply ascending_Transitive |].
  apply (sort_Sorted JS.defaultCompare Spec.ascending (fun _ => True)).
  - intros x y _ _. unfold JS.defaultCompare, Spec.ascending, String.leb.
    destruct (String.compare x y); cbv; congruence.
  - intros x y _ _. unfold JS.defaultCompare, Spec.ascending, String.leb.
    rewrite (String.compare_antisym y x).
    destruct (String.compare x y); cbv; congruence.
  - by apply List.Forall_forall.
Qed.

Lemma sortStrings_Permutation (l : list string) : Permutation (JS.sortStrings l) l.
Proof. apply sort_Permutation. Qed.
End StringOrder.

(** ** Device and ad listings *)

Section ListingFacts.
Context (s3 : ListObjectsInput -> Outcome ListObjectsOutput).

Lemma endsWith_unfold (s p : string) :
  JS.endsWith s p =
  String.eqb s p || match s with "" => false | String _ s' => JS.endsWith s' p end.
Proof. by destruct s. Qed.

Lemma endsWith_spec (s p : string) :
  JS.endsWith s p = true <-> exists pre, s = String.append pre p.
Proof.
  split.
  - induction s as [| c s IH]; rewrite endsWith_unfold; intros H;
      apply orb_true_iff in H as [H | H].
    + apply String.eqb_eq in H. by exists "".
    + done.
    + apply String.eqb_eq in H. by exists "".
    + destruct (IH H) as [pre ->]. by exists (String c pre).
  - intros [pre ->]. induction pre as [| c pre IH]; rewrite endsWith_unfold.
    + change (String.append "" p) with p. by rewrite String.eqb_refl.
    + change (String.append (String c pre) p) with (String c (String.append pre p)).
      cbv iota. rewrite IH. apply orb_true_r.
Qed.

Lemma strings_In (l : list (option string)) (x : string) :
  In x (Listing.strings l) <-> In (Some x) l.
Proof.
  unfold Listing.strings. rewrite in_flat_map. split.
  - intros [[y |] [Hin Hx]]; simpl in Hx; [| done].
    destruct Hx as [-> | []]. done.
  - intros Hin. exists (Some x). split; [done | by left].
Qed.

Lemma devicesOf_spec (response : ListObjectsOutput) (d : string) :
  In d (Listing.devicesOf response) <->
  d <> "" /\ d <> "ad_metrics" /\
  exists p, In (Some p) (default [] (CommonPrefixes response)) /\
            d = JS.removeFirst p "/".
Proof.
  unfold Listing.devicesOf. rewrite strings_In, filter_In, in_map_iff.
  unfold Listing.isDevice, JS.truthyStr. rewrite andb_true_iff, !negb_true_iff.
  split.
  - intros [[[p |] [Hp Hin]] [Hne Hmetrics]]; simpl in Hp; [| done].
    injection Hp as Hp. apply String.eqb_neq in Hne, Hmetrics. eauto.
  - intros (Hne & Hmetrics & p & Hin & ->). split.
    + by exists (Some p).
    + by split; apply String.eqb_neq.
Qed.

Lemma adsOf_spec (prefix : string) (response : ListObjectsOutput) (a : string) :
  In a (Listing.adsOf prefix response) <->
  JS.endsWith a ".mp4" = true /\
  exists obj key, In obj (default [] (Contents response)) /\
                  Key obj = Some key /\ a = JS.removeFirst key prefix.
Proof.
  unfold Listing.adsOf. rewrite strings_In, filter_In, in_map_iff.
  unfold Listing.isAd, JS.truthyStr. rewrite andb_true_iff, negb_true_iff.
  split.
  - intros [[obj [Hkey Hin]] [_ Hmp4]].
    destruct (Key obj) as [key |] eqn:Ekey; simpl in Hkey; [| done].
    injection Hkey as Hkey. split; [done |]. exists obj, key. by repeat split.
  - intros (Hmp4 & obj & key & Hin & Hkey & ->). split.
    + exists obj. by rewrite Hkey.
    + split; [| done]. apply String.eqb_neq. intros Hempty.
      rewrite Hempty in Hmp4. discriminate Hmp4.
Qed.

Lemma getDevices_inv (devices : list string) :
  Listing.getDevices s3 = Ok (Http.Success devices) ->
  exists response,
    Listing.listPrefixes s3 = Ok response /\
    devices = JS.sortStrings (Listing.devicesOf response).
Proof.
  unfold Listing.getDevices.
  destruct (Listing.listPrefixes s3) as [response | e |]; simpl; [| done | done].
  intros H. injection H as <-. eauto.
Qed.

Lemma getDeviceAds_inv (deviceId id : string) (ads : list string) :
  Listing.getDeviceAds s3 deviceId = Ok (Http.Success (id, ads)) ->
  exists response,
    Listing.listObjects s3 deviceId = Ok response /\ id = deviceId /\
    ads = JS.sortStrings (Listing.adsOf (Listing.devicePrefix deviceId) response).
Proof.
  unfold Listing.getDeviceAds.
  destruct (Listing.listObjects s3 deviceId) as [response | e |]; simpl;
    [| done | done].
  intros H. injection H as <- <-. eauto.
Qed.

(** C10. The string array of every successful reply of
    [GET /api/devices] and of [GET /api/devices/:id/ads] is in ascending
    order of JavaScript's default string comparison; the devices are the
    names of the bucket's prefixes other than [ad_metrics], the ads the
    names under the device's prefix that end in [.mp4]. When the listing
    succeeds, so does the reply. *)
Theorem listings_sorted_and_filtered (deviceId : string) :
  (forall devices, Listing.getDevices s3 = Ok (Http.Success devices) ->
     StronglySorted Spec.ascending devices /\
     exists response, Listing.listPrefixes s3 = Ok response /\
       forall d, In d devices <->
         d <> "" /\ d <> "ad_metrics" /\
         exists p, In (Some p) (default [] (CommonPrefixes response)) /\
                   d = JS.removeFirst p "/") /\
  (forall id ads,
     Listing.getDeviceAds s3 deviceId = Ok (Http.Success (id, ads)) ->
     id = deviceId /\ StronglySorted Spec.ascending ads /\
     exists response, Listing.listObjects s3 deviceId = Ok response /\
       forall a, In a ads <->
         JS.endsWith a ".mp4" = true /\
         exists obj key, In obj (default [] (Contents response)) /\
           Key obj = Some key /\
           a = JS.removeFirst key (Listing.devicePrefix deviceId)) /\
  (forall response, Listing.listPrefixes s3 = Ok response ->
     exists devices, Listing.getDevices s3 = Ok (Http.Success devices)) /\
  (forall response, Listing.listObjects s3 deviceId = Ok response ->
     exists ads, Listing.getDeviceAds s3 deviceId = Ok (Http.Success (deviceId, ads))).
Proof.
  split; [| split; [| split]].
  - intros devices H. apply getDevices_inv in H as (response & Hlist & ->).
    split; [apply sortStrings_sorted |]. exists response. split; [done |].
    intros d. rewrite <- devicesOf_spec.
    split; apply Permutation_in;
      [| symmetry]; apply sortStrings_Permutation.
  - intros id ads H. apply getDeviceAds_inv in H as (response & Hlist & -> & ->).
    split; [done |]. split; [apply sortStrings_sorted |].
    exists response. split; [done |].
    intros a. rewrite <- adsOf_spec.
    split; apply Permutation_in;
      [| symmetry]; apply sortStrings_Permutation.
  - intros response H. unfold Listing.getDevices. rewrite H. simpl. eauto.
  - intros response H. unfold Listing.getDeviceAds. rewrite H. simpl. eauto.
Qed.
End ListingFacts.

(** The sample bucket: [ad_metrics] is left out, the rest is sorted. *)
Example sample_listings :
  Listing.getDevices Sample.s3 = Ok (Http.Success ["tv-1"; "tv-2"]) /\
  Listing.getDeviceAds Sample.s3 "tv-1" =
    Ok (Http.Success ("tv-1", ["duck.mp4"; "shoes.mp4"])).
Proof. split; reflexivity. Qed.

(** ** Per-ad statistics of a device *)

Section AggregateFacts.
Implicit Types (items : list Item) (ad : string).

Lemma durationOr0_durationOf (item : Item) :
  (durationOr0 item == Spec.durationOf item)%Q.
Proof.
  unfold durationOr0, Spec.durationOf.
  destruct (play_duration item) as [d |]; simpl; [| reflexivity].
  destruct (Qeq_bool d 0) eqn:E; [| reflexivity].
  apply Qeq_bool_eq in E. by rewrite E.
Qed.

Lemma fold_sum_from (items : list Item) (q : Q) :
  (fold_left (fun sum item => sum + durationOr0 item) items q ==
   q + fold_right Qplus 0 (map Spec.durationOf items))%Q.
Proof.
  revert q. induction items as [| item rest IH]; intros q; simpl.
  - by rewrite Qplus_0_r.
  - rewrite IH, durationOr0_durationOf. by rewrite Qplus_assoc.
Qed.

(** [totalDuration] is the sum of the durations. *)
Lemma sumDuration_sum items :
  (sumDuration items == fold_right Qplus 0 (map Spec.durationOf items))%Q.
Proof. unfold sumDuration. rewrite fold_sum_from. apply Qplus_0_l. Qed.

Lemma average_positive (totalDuration : Q) (totalPlays : Z) :
  0 < totalPlays ->
  average totalDuration totalPlays = (totalDuration / inject_Z totalPlays)%Q.
Proof.
  intros H. unfold average. destruct (Z.gtb_spec totalPlays 0); [done | lia].
Qed.

Lemma average_zero (totalDuration : Q) (totalPlays : Z) :
  totalPlays <= 0 -> average totalDuration totalPlays = 0%Q.
Proof.
  intros H. unfold average. destruct (Z.gtb_spec totalPlays 0); [lia | done].
Qed.

(** C7. For the records [items] of an ad, [totalPlays] is their number,
    [totalDuration] the sum of their durations (0 for a record without
    one), [averageDuration] is [totalDuration / totalPlays] when there is
    a play and 0 otherwise, and [lastPlayed] is null when there is no
    record; one record of duration 5 gives a total and an average of 5. *)
Theorem aggregate_per_ad ad items :
  let stat := DeviceAds.aggregate ad items in
  DeviceAds.adFilename stat = ad /\
  DeviceAds.totalPlays stat = Z.of_nat (length items) /\
  (DeviceAds.totalDuration stat ==
     fold_right Qplus 0 (map Spec.durationOf items))%Q /\
  (0 < DeviceAds.totalPlays stat ->
     DeviceAds.averageDuration stat =
       (DeviceAds.totalDuration stat / inject_Z (DeviceAds.totalPlays stat))%Q) /\
  (DeviceAds.totalPlays stat = 0 -> DeviceAds.averageDuration stat = 0%Q) /\
  (items = [] ->
     DeviceAds.lastPlayed stat = None /\ DeviceAds.averageDuration stat = 0%Q) /\
  (forall item, play_duration item = Some 5%Q ->
     DeviceAds.totalPlays (DeviceAds.aggregate ad [item]) = 1 /\
     DeviceAds.totalDuration (DeviceAds.aggregate ad [item]) = 5%Q /\
     DeviceAds.averageDuration (DeviceAds.aggregate ad [item]) = 5%Q).
Proof.
  intros stat.
  split; [reflexivity |]. split; [reflexivity |].
  split; [apply sumDuration_sum |].
  split; [intros Hplays; by apply average_positive |].
  split; [intros Hplays; apply average_zero; simpl in *; lia |].
  split; [intros ->; by split |].
  intros item Hfive.
  unfold DeviceAds.aggregate, sumDuration, durationOr0. simpl.
  rewrite Hfive. by repeat split.
Qed.
End AggregateFacts.

(** ** The fan-out over the ads *)

Section FanOutFacts.
Context {A B : Type}.

Lemma awaitAll_values (bs : list B) : awaitAll (map Ok bs) = Ok bs.
Proof. induction bs as [| b bs IH]; simpl; [done |]. by rewrite IH. Qed.

Lemma awaitAll_Ok (ps : list (Outcome B)) (bs : list B) :
  awaitAll ps = Ok bs <-> ps = map Ok bs.
Proof.
  split; [| intros ->; apply awaitAll_values].
  revert bs. induction ps as [| p ps IH]; intros bs H; simpl in H.
  - by injection H as <-.
  - destruct p as [b | e |], (awaitAll ps) as [l | e' |]; try discriminate H.
    injection H as <-. simpl. f_equal. by apply IH.
Qed.

(** When every started call settles with a value, so does the whole. *)
Lemma awaitAll_map (f : A -> Outcome B) (g : A -> B) (l : list A) :
  (forall a, In a l -> f a = Ok (g a)) ->
  awaitAll (map f l) = Ok (map g l).
Proof.
  intros H. apply awaitAll_Ok. rewrite map_map.
  apply map_ext_in. exact H.
Qed.

Lemma awaitAll_map_inv (f : A -> Outcome B) (l : list A) (bs : list B) :
  awaitAll (map f l) = Ok bs -> List.Forall2 (fun a b => f a = Ok b) l bs.
Proof.
  intros H. apply awaitAll_Ok in H. revert bs H.
  induction l as [| a l IH]; intros [| b bs] H; simpl in H; try discriminate H.
  - constructor.
  - injection H as Ha Hl. constructor; [done | by apply IH].
Qed.
End FanOutFacts.

Section DeviceAdsFacts.
Context (s3 : ListObjectsInput -> Outcome ListObjectsOutput)
        (send : Command -> Outcome QueryOutput).



End DeviceAdsFacts.

Section LeaderboardFacts.
Context (s3 : ListObjectsInput -> Outcome ListObjectsOutput)
        (send : Command -> Outcome QueryOutput).

Lemma board_adStat_cases fuel devices ad :
  Leaderboard.adStat send fuel devices ad =
  match Leaderboard.perDevice send fuel ad devices ([], ∅) with
  | Ok acc => Ok (Leaderboard.aggregate ad (fst acc) (snd acc))
  | Throw e => Ok (Leaderboard.degraded ad e)
  | Pending => Pending
  end.
Proof.
  unfold Leaderboard.adStat.
  by destruct (Leaderboard.perDevice send fuel ad devices ([], ∅)).
Qed.





End LeaderboardFacts.

(** ** Ranking the leaderboard *)

Section RankFacts.
Implicit Types (sortBy : string) (a b c : Leaderboard.AdStat).

Lemma positive_Num (q : Q) : JS.positive (JS.Num q) = true <-> (0 < q)%Q.
Proof.
  unfold JS.positive. rewrite negb_true_iff.
  destruct (Qle_bool q 0) eqn:E.
  - apply Qle_bool_iff in E. split; [done | lra].
  - split; [intros _ | done].
    destruct (Qlt_le_dec 0 q) as [| Hle]; [done |].
    apply Qle_bool_iff in Hle. congruence.
Qed.

Lemma not_positive_Num (q : Q) : JS.positive (JS.Num q) = false <-> (q <= 0)%Q.
Proof.
  rewrite <- not_true_iff_false, positive_Num. split; intros H; lra.
Qed.

Lemma descending_trans sortBy a b c :
  Spec.descending sortBy a b -> Spec.descending sortBy b c ->
  Spec.descending sortBy a c.
Proof.
  unfold Spec.descending.
  destruct (String.eqb sortBy "duration"); [intros; lra |].
  destruct (String.eqb sortBy "frequency"); [| lia].
  intros (p & q & Ha & Hb & Hqp) (q' & r & Hb' & Hc & Hrq).
  rewrite Hb in Hb'. injection Hb' as <-.
  exists p, r. split; [done | split; [done | lra]].
Qed.

(** On entries whose frequency is a number, the comparator decides the
    descending order of the requested field. *)
Lemma compareBy_keeps sortBy a b :
  (String.eqb sortBy "frequency" = true -> Spec.numeric a /\ Spec.numeric b) ->
  JS.positive (Leaderboard.compareBy sortBy a b) = false ->
  Spec.descending sortBy a b.
Proof.
  unfold Leaderboard.compareBy, Spec.descending. intros Hnum.
  destruct (String.eqb sortBy "duration").
  { rewrite not_positive_Num. intros; lra. }
  destruct (String.eqb sortBy "frequency").
  - destruct (Hnum eq_refl) as [[p Hp] [q Hq]]. rewrite Hp, Hq. simpl JS.jsub.
    rewrite not_positive_Num. intros. exists p, q. split; [done | split; [done | lra]].
  - rewrite not_positive_Num. intros H.
    change 0%Q with (inject_Z 0) in H. rewrite <- Zle_Qle in H. lia.
Qed.

Lemma compareBy_swaps sortBy a b :
  (String.eqb sortBy "frequency" = true -> Spec.numeric a /\ Spec.numeric b) ->
  JS.positive (Leaderboard.compareBy sortBy a b) = true ->
  Spec.descending sortBy b a.
Proof.
  unfold Leaderboard.compareBy, Spec.descending. intros Hnum.
  destruct (String.eqb sortBy "duration").
  { rewrite positive_Num. intros; lra. }
  destruct (String.eqb sortBy "frequency").
  - destruct (Hnum eq_refl) as [[p Hp] [q Hq]]. rewrite Hp, Hq. simpl JS.jsub.
    rewrite positive_Num. intros. exists q, p. split; [done | split; [done | lra]].
  - rewrite positive_Num. intros H.
    change 0%Q with (inject_Z 0) in H. rewrite <- Zlt_Qlt in H. lia.
Qed.

Lemma sort_compareBy_sorted sortBy (adStats : list Leaderboard.AdStat) :
  (String.eqb sortBy "frequency" = true -> List.Forall Spec.numeric adStats) ->
  StronglySorted (Spec.descending sortBy)
    (JS.sort (Leaderboard.compareBy sortBy) adStats).
Proof.
  intros Hnum. apply Sorted_StronglySorted.
  { intros a b c. apply descending_trans. }
  apply (sort_Sorted _ _
           (fun a => String.eqb sortBy "frequency" = true -> Spec.numeric a)).
  - intros a b Ha Hb. apply compareBy_keeps. auto.
  - intros a b Ha Hb. apply compareBy_swaps. auto.
  - apply List.Forall_forall. intros a Hin Hfreq.
    specialize (Hnum Hfreq). rewrite List.Forall_forall in Hnum. auto.
Qed.

Lemma slice0_firstn {A : Type} (l : list A) (e : Z) :
  0 <= e -> JS.slice0 l e = firstn (Z.to_nat e) l.
Proof.
  intros He. unfold JS.slice0.
  destruct (Z.ltb_spec e 0); [lia |].
  destruct (Z.le_gt_cases e (Z.of_nat (length l))).
  - by rewrite Z.min_l.
  - rewrite Z.min_r by lia. rewrite Nat2Z.id.
    rewrite !firstn_all2; [done | lia | lia].
Qed.



Lemma rank_spec sortBy (limit : Z) (adStats : list Leaderboard.AdStat) :
  0 <= limit ->
  (String.eqb sortBy "frequency" = true -> List.Forall Spec.numeric adStats) ->
  exists ranked,
    Permutation ranked adStats /\
    StronglySorted (Spec.descending sortBy) ranked /\
    Leaderboard.ads (Leaderboard.rank sortBy limit adStats) =
      firstn (Z.to_nat limit) ranked /\
    Leaderboard.total (Leaderboard.rank sortBy limit adStats) =
      Z.of_nat (length adStats).
Proof.
  intros Hlimit Hnum.
  exists (JS.sort (Leaderboard.compareBy sortBy) adStats).
  split; [apply sort_Permutation |].
  split; [by apply sort_compareBy_sorted |].
  unfold Leaderboard.rank. simpl.
  split; [by apply slice0_firstn | by rewrite sort_length].
Qed.

(** Outside these conditions: a negative limit cuts from the end, and
    a record without a readable timestamp makes the frequency NaN. *)
Example rank_negative_limit :
  map Leaderboard.totalPlays
    (Leaderboard.ads
       (Leaderboard.rank "plays" (-1)
          [Sample.entry "a" 10; Sample.entry "b" 30; Sample.entry "c" 20])) =
  [30; 20].
Proof. reflexivity. Qed.

Example frequency_unreadable_timestamp :
  Leaderboard.frequency
    (Leaderboard.aggregate "duck.mp4"
       [mkItem "a" "tv-1" (Some "duck.mp4") TsInvalid (Some 5%Q)] {["tv-1"]}) =
  JS.NaN.
Proof. reflexivity. Qed.
End RankFacts.

(** ** The ads of the leaderboard and their entries *)

Section CollectFacts.
Context (s3 : ListObjectsInput -> Outcome ListObjectsOutput).




End CollectFacts.

Section EntryFacts.
Context (send : Command -> Outcome QueryOutput).







End EntryFacts.

Section LeaderboardClaims.
Context (s3 : ListObjectsInput -> Outcome ListObjectsOutput)
        (send : Command -> Outcome QueryOutput).

Lemma getLeaderboard_inv fuel limitParam sortByParam board :
  Leaderboard.getLeaderboard s3 send fuel limitParam sortByParam =
    Ok (Http.Success board) ->
  exists devices allAds adStats,
    Listing.getAllDevices s3 = Ok devices /\
    Leaderboard.collectAds s3 devices [] = Ok allAds /\
    awaitAll (map (Leaderboard.adStat send fuel devices) allAds) = Ok adStats /\
    board = Leaderboard.rank (Leaderboard.sortByOf sortByParam)
              (Leaderboard.limitOf limitParam) adStats.
Proof.
  intros Hrun. unfold Leaderboard.getLeaderboard, Http.serverError in Hrun.
  destruct (Listing.getAllDevices s3) as [devices | e |]; simpl in Hrun;
    [| discriminate | discriminate].
  destruct (Leaderboard.collectAds s3 devices []) as [allAds | e |] eqn:Hads;
    simpl in Hrun; [| discriminate | discriminate].
  destruct (awaitAll (map (Leaderboard.adStat send fuel devices) allAds))
    as [adStats | e |] eqn:Hall; simpl in Hrun; [| discriminate | discriminate].
  injection Hrun as <-. by exists devices, allAds, adStats.
Qed.






End LeaderboardClaims.

Section DeviceCountFacts.
Context (send : Command -> Outcome QueryOutput).

(** Every device whose query is answered with an [Items] array, empty
    or not, ends up in [deviceSet]. *)
Lemma pages_deviceSet fuel deviceId ad acc key acc' :
  Spec.alwaysItems send ->
  Leaderboard.pages send fuel deviceId ad acc key = Ok acc' ->
  snd acc' = {[deviceId]} ∪ snd acc.
Proof.
  intros Hitems. revert acc key.
  induction fuel as [| fuel IH]; intros acc key Hrun; simpl in Hrun; [done |].
  destruct (send (QueryCommand (adQueryParams deviceId ad key)))
    as [response | e |] eqn:Hsend; simpl in Hrun; [| done | done].
  destruct (Items response) as [page |] eqn:Hpage;
    [| by apply Hitems in Hsend].
  destruct (LastEvaluatedKey response).
  - apply IH in Hrun. rewrite Hrun. simpl.
    by rewrite (assoc_L (∪)), (idemp_L (∪)).
  - by injection Hrun as <-.
Qed.

Lemma perDevice_deviceSet fuel ad devices acc acc' :
  Spec.alwaysItems send ->
  Leaderboard.perDevice send fuel ad devices acc = Ok acc' ->
  snd acc' = list_to_set devices ∪ snd acc.
Proof.
  intros Hitems. revert acc.
  induction devices as [| d devices IH]; intros acc Hrun; simpl in Hrun.
  - injection Hrun as <-. simpl. by rewrite (left_id_L ∅ (∪)).
  - destruct (Leaderboard.pages send fuel d ad acc None) as [acc1 | e |] eqn:Hp;
      simpl in Hrun; [| done | done].
    apply IH in Hrun. apply pages_deviceSet in Hp; [| done].
    rewrite Hrun, Hp. simpl.
    by rewrite (assoc_L (∪)), (comm_L (∪) (list_to_set devices)).
Qed.

(** So [deviceCount] is the number of devices asked, whatever they
    played. *)
Lemma deviceCount_all_devices fuel devices ad stat :
  Spec.alwaysItems send -> List.NoDup devices ->
  Leaderboard.adStat send fuel devices ad = Ok stat ->
  Leaderboard.error stat = None ->
  Leaderboard.deviceCount stat = Z.of_nat (length devices).
Proof.
  intros Hitems Hnd. rewrite board_adStat_cases.
  destruct (Leaderboard.perDevice send fuel ad devices ([], ∅))
    as [acc | e |] eqn:Hrun; intros H; [| | done]; injection H as <-;
    [| done].
  intros _. apply perDevice_deviceSet in Hrun; [| done].
  simpl. rewrite Hrun. f_equal. simpl snd.
  rewrite (right_id_L ∅ (∪)). apply size_list_to_set.
  by apply NoDup_ListNoDup.
Qed.
End DeviceCountFacts.

(** C5 fails on the code. In the sample store only [tv-1] has a record
    of [duck.mp4]; [tv-2] answers with an empty page, and the entry of
    [duck.mp4] still shows a [deviceCount] of 2. *)
Theorem leaderboard_deviceCount_counts_empty_pages :
  exists board duck,
    Leaderboard.getLeaderboard Sample.s3 Sample.send 5 None None =
      Ok (Http.Success board) /\
    In duck (Leaderboard.ads board) /\
    Leaderboard.adFilename duck = "duck.mp4" /\
    Leaderboard.totalPlays duck = 1 /\
    Leaderboard.deviceCount duck = 2 /\
    Spec.devicesWithPlays Sample.send 5 ["tv-1"; "tv-2"] "duck.mp4" = ["tv-1"].
Proof.
  eexists. eexists. split; [vm_compute; reflexivity |].
  split; [left; reflexivity |]. repeat split.
Qed.

Section FanOutClaim.
Context (s3 : ListObjectsInput -> Outcome ListObjectsOutput)
        (send : Command -> Outcome QueryOutput).

End FanOutClaim.

(** ** The generic query route *)

Section StatsFacts.
Context {St : Type} (send : Command -> St -> Outcome QueryOutput * St).
Implicit Types (body : Stats.Body) (st : St) (log : list Command).

Lemma postStats_no_table body st :
  JS.truthyStr (Stats.b_tableName body) = false ->
  Stats.postStats send body st =
    (Ok (Http.Failure 400
           {| Http.error := "Table name is required"; Http.code := None |}), st).
Proof. intros H. unfold Stats.postStats. by rewrite H. Qed.

Lemma postStats_sends body st table :
  Stats.b_tableName body = Some table -> table <> "" ->
  Stats.postStats send body st =
    let (answer, st') := send (Stats.commandOf table body) st in
    (match answer with
     | Ok response =>
         Ok (Http.Success
               {| Stats.items := default [] (Items response);
                  Stats.count := Stats.orZero (Count response);
                  Stats.scannedCount := Stats.orZero (ScannedCount response) |})
     | Throw e => Ok (Http.serverError e "Failed to fetch statistics")
     | Pending => Pending
     end, st').
Proof.
  intros Htable Hne. unfold Stats.postStats. rewrite Htable. simpl.
  apply String.eqb_neq in Hne. rewrite Hne. simpl.
  destruct (send (Stats.commandOf table body) st) as [[response | e |] st'];
    reflexivity.
Qed.
End StatsFacts.

Section StatsClaim.
Context {St : Type} (send : Command -> St -> Outcome QueryOutput * St).
Implicit Types (body : Stats.Body) (st : St) (log : list Command).

(** C9 (amended). Without a table name in the body, [POST /api/stats]
    answers 400 with the body [{error: 'Table name is required'}], which
    has no [code], and sends nothing to the store. With a table name, one
    command goes to the store; when the store rejects it with an error,
    the answer is 500 with the error's name as [code] and its message as
    [error], or ['Failed to fetch statistics'] when the message is
    empty; when the store answers, the reply is a 200. *)
Theorem postStats_error_replies body st log :
  (JS.truthyStr (Stats.b_tableName body) = false ->
     Stats.postStats (Walker.recording send) body (st, log) =
       (Ok (Http.Failure 400
              {| Http.error := "Table name is required"; Http.code := None |}),
        (st, log))) /\
  (forall table e st',
     Stats.b_tableName body = Some table -> table <> "" ->
     send (Stats.commandOf table body) st = (Throw e, st') ->
     Stats.postStats (Walker.recording send) body (st, log) =
       (Ok (Http.Failure 500
              {| Http.error := if String.eqb (message e) ""
                               then "Failed to fetch statistics" else message e;
                 Http.code := Some (name e) |}),
        (st', log ++ [Stats.commandOf table body]))) /\
  (forall table response st',
     Stats.b_tableName body = Some table -> table <> "" ->
     send (Stats.commandOf table body) st = (Ok response, st') ->
     exists result,
       Stats.postStats (Walker.recording send) body (st, log) =
         (Ok (Http.Success result), (st', log ++ [Stats.commandOf table body])) /\
       Http.status (Http.Success result) = 200).
Proof.
  split; [| split].
  - apply postStats_no_table.
  - intros table e st' Htable Hne Hsend.
    rewrite (postStats_sends _ _ _ table Htable Hne).
    unfold Walker.recording. simpl. by rewrite Hsend.
  - intros table response st' Htable Hne Hsend.
    rewrite (postStats_sends _ _ _ table Htable Hne).
    unfold Walker.recording. simpl. rewrite Hsend. by eexists.
Qed.
End StatsClaim.

(** C9 as stated fails: the 400 reply carries no [code], and an error
    with an empty message does not reach the 500 reply as it is. *)
Lemma postStats_error_body_counterexample :
  ~ (forall body status reply,
       fst (Stats.postStats (Sample.failing (mkError "" "NetworkError")) body tt) =
         Ok (Http.Failure status reply) ->
       exists kind, Http.code reply = Some kind) /\
  ~ (forall body reply,
       fst (Stats.postStats (Sample.failing (mkError "" "NetworkError")) body tt) =
         Ok (Http.Failure 500 reply) ->
       Http.error reply = "" /\ Http.code reply = Some "NetworkError").
Proof.
  split.
  - intros Hcode.
    destruct (Hcode Sample.noTable 400 _ eq_refl) as [kind Hkind].
    discriminate Hkind.
  - intros Hpass.
    destruct (Hpass Sample.scanPlays _ eq_refl) as [Hmessage _].
    discriminate Hmessage.
Qed.

(** ** The sample store, end to end *)

Lemma sample_send_readable : Spec.readableRecords Sample.send.
Proof.
  intros cmd out page Hsend Hitems. unfold Sample.send in Hsend.
  repeat case_match; simplify_eq; simpl in Hitems; simplify_eq;
    repeat constructor.
  by exists 1000.
Qed.


(** * Further properties of the server *)

(** ** The cache: overwriting and independence of keys *)

Section CacheMore.
Context {T : Type}.
Implicit Types (cache : gmap string (Cache.CacheEntry T)) (k : string) (v : T).

Lemma getCached_other_keys cache k k' ttl now :
  k' <> k -> snd (Cache.getCached cache k ttl now) !! k' = cache !! k'.
Proof.
  intros Hne. unfold Cache.getCached.
  destruct (cache !! k) as [entry |]; [| done].
  destruct (now - Cache.timestamp entry >? ttl); [| done].
  simpl. by apply lookup_delete_ne.
Qed.

(** X1. A second [setCached] on a key replaces the value and restarts
    its clock: the new value is read for [ttl] after the second write,
    however old the first one is, and the map is the one a single write
    would have left. A read evicts nothing but the key it reads, and a
    write to one key leaves what every other key reads as it was. *)
Theorem setCached_overwrites cache k v1 v2 (t0 t1 ttl now : Z) :
  now - t1 <= ttl ->
  let twice := Cache.setCached (Cache.setCached cache k v1 t0) k v2 t1 in
  Cache.getCached twice k ttl now = (Some v2, Cache.setCached cache k v2 t1) /\
  (forall k' ttl' now', k' <> k ->
     snd (Cache.getCached cache k ttl' now') !! k' = cache !! k' /\
     fst (Cache.getCached (Cache.setCached cache k v1 t0) k' ttl' now') =
       fst (Cache.getCached cache k' ttl' now')).
Proof.
  intros Hage twice. split.
  - assert (twice = Cache.setCached cache k v2 t1) as ->.
    { unfold twice, Cache.setCached. apply insert_insert_eq. }
    eapply getCached_fresh; [apply setCached_lookup | done].
  - intros k' ttl' now' Hne. split; [by apply getCached_other_keys |].
    unfold Cache.getCached, Cache.setCached.
    rewrite lookup_insert_ne by done.
    destruct (cache !! k') as [entry |]; [| done].
    by destruct (now' - Cache.timestamp entry >? ttl').
Qed.
End CacheMore.

(** X1 with a first write that is long stale. *)
Lemma setCached_overwrites_witness :
  Cache.getCached
    (Cache.setCached (Cache.setCached (∅ : gmap string (Cache.CacheEntry nat))
                        "tv-1" 1%nat 0) "tv-1" 2%nat 90000)
    "tv-1" 30000 100000 =
  (Some 2%nat, Cache.setCached ∅ "tv-1" 2%nat 90000).
Proof.
  apply (setCached_overwrites (T := nat) ∅ "tv-1" 1%nat 2%nat 0 90000 30000 100000).
  lia.
Defined.

(** ** The walker when the store fails *)

Section WalkerFailure.
Context {St : Type} (send : Command -> St -> Outcome QueryOutput * St).

Lemma walk_fails deviceId start st pages e st' :
  Aux.FailsAfter send deviceId start st pages e st' ->
  forall fuel items, (length pages < fuel)%nat ->
    Walker.walk send fuel deviceId items start st = (Throw e, st').
Proof.
  induction 1 as [start st e st' Hsend
                 | start st page key st' pages e st'' Hsend Hkey _ IH];
    intros fuel items Hfuel; simpl in Hfuel.
  - destruct fuel as [| fuel]; [lia |]. simpl. by rewrite Hsend.
  - destruct fuel as [| fuel]; [lia |].
    rewrite (walk_step _ _ _ _ _ _ _ _ Hsend), Hkey. apply IH. lia.
Qed.

Lemma fails_recording deviceId start st pages e st' :
  Aux.FailsAfter send deviceId start st pages e st' ->
  forall log,
    Aux.FailsAfter (Walker.recording send) deviceId start (st, log) pages e
      (st', log ++ map (fun k => QueryCommand (Walker.queryParams deviceId k))
                       (start :: map LastEvaluatedKey pages)).
Proof.
  induction 1 as [start st e st' Hsend
                 | start st page key st' pages e st'' Hsend Hkey _ IH];
    intros log.
  - apply Aux.FailsAfter_now. unfold Walker.recording. simpl. by rewrite Hsend.
  - eapply Aux.FailsAfter_later; [| exact Hkey |].
    + unfold Walker.recording. simpl. by rewrite Hsend.
    + specialize (IH (log ++ [QueryCommand (Walker.queryParams deviceId start)])).
      rewrite <- app_assoc in IH. simpl in IH. simpl map. rewrite Hkey. exact IH.
Qed.

End WalkerFailure.

Section WalkerFailureClaim.
Context {St : Type} (send : Command -> St -> Outcome QueryOutput * St).

(** X2. When the store rejects a query of the walk, after any number
    of pages, [getAllItemsForDevice] throws that error: the records of
    the pages before are not returned, and no query follows the rejected
    one (one query per page served, plus the rejected one). *)
Theorem getAllItemsForDevice_aborts deviceId st pages e st' fuel log :
  Aux.FailsAfter send deviceId None st pages e st' ->
  (length pages < fuel)%nat ->
  Walker.getAllItemsForDevice (Walker.recording send) fuel deviceId (st, log) =
    (Throw e,
     (st', log ++ map (fun k => QueryCommand (Walker.queryParams deviceId k))
                      (None :: map LastEvaluatedKey pages))) /\
  length (None :: map LastEvaluatedKey pages) = S (length pages).
Proof.
  intros Hfails Hfuel. split; [| simpl; by rewrite length_map].
  unfold Walker.getAllItemsForDevice.
  apply (walk_fails (Walker.recording send) deviceId None (st, log) pages e);
    [by apply fails_recording | done].
Qed.
End WalkerFailureClaim.

(** X2 at a stub that serves one page and then runs out. *)
Lemma getAllItemsForDevice_aborts_witness :
  Walker.getAllItemsForDevice (Walker.recording Walker.stub) 5 "tv-1"
    ([Sample.page1], []) =
  (Throw (mkError "no more pages" "StubExhausted"),
   ([], [] ++ map (fun k => QueryCommand (Walker.queryParams "tv-1" k))
                  (None :: map LastEvaluatedKey [Sample.page1]))).
Proof.
  apply (getAllItemsForDevice_aborts Walker.stub "tv-1" [Sample.page1]
           [Sample.page1] (mkError "no more pages" "StubExhausted") [] 5%nat []).
  - eapply Aux.FailsAfter_later; [reflexivity | reflexivity |].
    apply Aux.FailsAfter_now. reflexivity.
  - simpl. lia.
Defined.

(** ** Maps with numeric keys *)

Section NumMapFacts.
Context {V : Type}.
Implicit Types (m : list (option nat * V)) (k : option nat) (v : V).

Lemma sameKey_spec (a b : option nat) : reflect (a = b) (NumMap.sameKey a b).
Proof.
  destruct a as [x |], b as [y |]; simpl; try (constructor; congruence).
  destruct (Nat.eqb_spec x y); constructor; congruence.
Qed.

Lemma num_get_set_eq m k v : NumMap.get (NumMap.set m k v) k = Some v.
Proof.
  induction m as [| [k' w] m IH]; simpl.
  - by destruct (sameKey_spec k k).
  - destruct (sameKey_spec k' k) as [-> |]; simpl.
    + by destruct (sameKey_spec k k).
    + by destruct (sameKey_spec k' k).
Qed.

Lemma num_get_set_ne m k k' v :
  k <> k' -> NumMap.get (NumMap.set m k v) k' = NumMap.get m k'.
Proof.
  intros Hne. induction m as [| [k0 w] m IH]; simpl.
  - by destruct (sameKey_spec k k').
  - destruct (sameKey_spec k0 k) as [-> |]; simpl.
    + by destruct (sameKey_spec k k').
    + by destruct (sameKey_spec k0 k').
Qed.

Lemma num_get_None_keys m k : NumMap.get m k = None -> ~ In k (map fst m).
Proof.
  induction m as [| [k' w] m IH]; simpl; [tauto |].
  destruct (sameKey_spec k' k); [done |]. intros H [? | ?]; [done |].
  by apply IH.
Qed.

Lemma num_keys_set m k v :
  map fst (NumMap.set m k v) =
  match NumMap.get m k with
  | Some _ => map fst m
  | None => map fst m ++ [k]
  end.
Proof.
  induction m as [| [k' w] m IH]; simpl; [done |].
  destruct (sameKey_spec k' k); simpl; [done |].
  rewrite IH. by destruct (NumMap.get m k).
Qed.

Lemma num_NoDup_keys_set m k v :
  List.NoDup (map fst m) -> List.NoDup (map fst (NumMap.set m k v)).
Proof.
  intros Hnd. rewrite num_keys_set.
  destruct (NumMap.get m k) eqn:Hget; [done |].
  apply num_get_None_keys in Hget.
  apply List.NoDup_app; repeat split; [done | repeat constructor; by intros [] |].
  intros x Hx [<- | []]. done.
Qed.

Lemma num_filter_key m k :
  List.NoDup (map fst m) ->
  List.filter (fun e => NumMap.sameKey (fst e) k) m =
  match NumMap.get m k with Some v => [(k, v)] | None => [] end.
Proof.
  induction m as [| [k' w] m IH]; simpl; [done |].
  intros Hnd. apply List.NoDup_cons_iff in Hnd as [Hk' Hnd].
  destruct (sameKey_spec k' k) as [-> |].
  - f_equal. clear IH Hnd. induction m as [| [k0 w0] m IH]; simpl; [done |].
    destruct (sameKey_spec k0 k) as [-> |].
    + exfalso. apply Hk'. by left.
    + apply IH. intros Hin. apply Hk'. by right.
  - by apply IH.
Qed.
End NumMapFacts.

(** ** Day-of-week patterns *)

Section DayOfWeekFacts.
Implicit Types (m : list (option nat * Hourly.Bucket)) (item : Item) (d : nat).

Lemma filter_Permutation_list {A : Type} (f : A -> bool) (l l' : list A) :
  Permutation l l' -> Permutation (List.filter f l) (List.filter f l').
Proof.
  induction 1 as [| x l l' _ IH | x y l | l1 l2 l3 _ IH1 _ IH2]; simpl.
  - done.
  - destruct (f x); [by constructor | done].
  - destruct (f x), (f y); try done. apply perm_swap.
  - by etransitivity.
Qed.

Lemma num_set_In {V : Type} (m : list (option nat * V)) k v e :
  In e (NumMap.set m k v) -> e = (k, v) \/ In e m.
Proof.
  induction m as [| [k' w] m IH]; simpl.
  - intros [<- | []]. by left.
  - destruct (sameKey_spec k' k) as [-> |]; simpl.
    + intros [<- | ?]; [by left | right; by right].
    + intros [<- | ?]; [right; by left |].
      destruct (IH H) as [-> | ?]; [by left | right; by right].
Qed.

Lemma num_get_In {V : Type} (m : list (option nat * V)) k v :
  NumMap.get m k = Some v -> In (k, v) m.
Proof.
  induction m as [| [k' w] m IH]; simpl; [done |].
  destruct (sameKey_spec k' k) as [-> |].
  - intros H. injection H as ->. by left.
  - intros H. right. by apply IH.
Qed.

Lemma onDay_key item d :
  Aux.onDay d item =
  hasTimestamp item &&
  NumMap.sameKey (Hourly.getUTCDay (timestamp item)) (Some d).
Proof.
  unfold Aux.onDay, hasTimestamp, Hourly.getUTCDay.
  destruct (timestamp item) as [| | ms]; simpl; [done | done |].
  change Week.msPerDay with 86400000.
  pose proof (Z.mod_pos_bound (ms / 86400000 + 4) 7 ltac:(lia)) as Hb.
  destruct (Z.eqb_spec ((ms / 86400000 + 4) mod 7) (Z.of_nat d)) as [-> | Hne].
  - rewrite Nat2Z.id. symmetry. apply Nat.eqb_refl.
  - symmetry. apply Nat.eqb_neq. lia.
Qed.

Lemma get_day_visit m item d :
  NumMap.get (DayOfWeek.visit m item) (Some d) =
  if Aux.onDay d item then Spec.tally (NumMap.get m (Some d)) item
  else NumMap.get m (Some d).
Proof.
  rewrite onDay_key. unfold DayOfWeek.visit.
  destruct (hasTimestamp item); cbn [negb andb]; [| done].
  destruct (sameKey_spec (Hourly.getUTCDay (timestamp item)) (Some d))
    as [-> | Hne].
  - rewrite num_get_set_eq. unfold Spec.tally.
    by destruct (NumMap.get m (Some d)).
  - by rewrite num_get_set_ne.
Qed.

Lemma get_day_fold (allItems : list Item) m d :
  NumMap.get (fold_left DayOfWeek.visit allItems m) (Some d) =
  fold_left Spec.tally (List.filter (Aux.onDay d) allItems)
    (NumMap.get m (Some d)).
Proof.
  revert m. induction allItems as [| item rest IH]; intros m; simpl; [done |].
  rewrite IH, get_day_visit. by destruct (Aux.onDay d item).
Qed.

Lemma day_keys_NoDup (allItems : list Item) m :
  List.NoDup (map fst m) ->
  List.NoDup (map fst (fold_left DayOfWeek.visit allItems m)).
Proof.
  revert m. induction allItems as [| item rest IH]; intros m Hnd; simpl;
    [done |].
  apply IH. unfold DayOfWeek.visit.
  destruct (hasTimestamp item); simpl; [| done]. by apply num_NoDup_keys_set.
Qed.

(** With readable timestamps, every entry is of a weekday and holds at
    least one play. *)
Lemma day_entries (allItems : list Item) m :
  List.Forall (fun item => timestamp item <> TsInvalid) allItems ->
  List.Forall (fun e => (exists d, fst e = Some d /\ (d < 7)%nat) /\
                        1 <= Hourly.plays (snd e)) m ->
  List.Forall (fun e => (exists d, fst e = Some d /\ (d < 7)%nat) /\
                        1 <= Hourly.plays (snd e))
    (fold_left DayOfWeek.visit allItems m).
Proof.
  revert m. induction allItems as [| item rest IH]; intros m Hitems Hm; simpl;
    [done |].
  apply List.Forall_cons_iff in Hitems as [Hitem Hitems].
  apply IH; [done |]. unfold DayOfWeek.visit.
  destruct (timestamp item) as [| | ms] eqn:Hts;
    unfold hasTimestamp; rewrite Hts; simpl; [done | done |].
  apply List.Forall_forall. intros e Hin.
  apply num_set_In in Hin as [-> | Hin].
  - split.
    + eexists. split; [reflexivity |].
      pose proof (Z.mod_pos_bound (ms / Week.msPerDay + 4) 7 ltac:(lia)). lia.
    + simpl. rewrite List.Forall_forall in Hm.
      destruct (NumMap.get m _) as [b |] eqn:Hget; simpl; [| lia].
      apply num_get_In in Hget.
      destruct (Hm _ Hget) as [_ Hplays]. simpl in Hplays. lia.
  - rewrite List.Forall_forall in Hm. by apply Hm.
Qed.

Lemma dayLe_trans (a b c : DayOfWeek.Pattern) :
  AuxDay.dayLe a b -> AuxDay.dayLe b c -> AuxDay.dayLe a c.
Proof.
  intros (x & y & Ha & Hb & Hxy) (y' & z & Hb' & Hc & Hyz).
  rewrite Hb in Hb'. injection Hb' as <-.
  exists x, z. split; [done | split; [done | lia]].
Qed.

Lemma byDay_positive (x y : nat) (a b : DayOfWeek.Pattern) :
  DayOfWeek.dayOfWeek a = Some x -> DayOfWeek.dayOfWeek b = Some y ->
  JS.positive (DayOfWeek.byDay a b) = true <-> (y < x)%nat.
Proof.
  intros Ha Hb. unfold DayOfWeek.byDay. rewrite Ha, Hb. simpl JS.jsub.
  rewrite positive_Num. unfold Qminus. rewrite <- inject_Z_opp, <- inject_Z_plus.
  change 0%Q with (inject_Z 0). rewrite <- Zlt_Qlt. lia.
Qed.
End DayOfWeekFacts.

Section DayOfWeekClaim.

(** X3. The day-of-week route, for records whose timestamps can be
    read: the patterns come in ascending order of the weekday, every
    pattern is of a weekday 0-6 with its English name and at least one
    play, and weekday [d] has a pattern exactly when a record falls on
    it, with the number of those records as [plays] and the sum of
    their durations as [duration]. Days without records are left out. *)
Theorem dayOfWeekPatterns_sorted_buckets (allItems : list Item) :
  List.Forall (fun item => timestamp item <> TsInvalid) allItems ->
  StronglySorted AuxDay.dayLe (DayOfWeek.dayOfWeekPatterns allItems) /\
  List.Forall
    (fun p => exists d name,
       DayOfWeek.dayOfWeek p = Some d /\ (d < 7)%nat /\
       nth_error DayOfWeek.dayNames d = Some name /\
       DayOfWeek.dayName p = Some name /\ 1 <= DayOfWeek.plays p)
    (DayOfWeek.dayOfWeekPatterns allItems) /\
  (forall d,
     List.filter (fun p => bool_decide (DayOfWeek.dayOfWeek p = Some d))
       (DayOfWeek.dayOfWeekPatterns allItems) =
     match List.filter (Aux.onDay d) allItems with
     | [] => []
     | hits => [AuxDay.dayBucket d hits]
     end).
Proof.
  intros Hitems. unfold DayOfWeek.dayOfWeekPatterns.
  set (m := fold_left DayOfWeek.visit allItems []).
  assert (List.NoDup (map fst m)) as Hnd by (apply day_keys_NoDup; constructor).
  assert (List.Forall
            (fun e => (exists d, fst e = Some d /\ (d < 7)%nat) /\
                      1 <= Hourly.plays (snd e)) m) as Hentries
    by (apply day_entries; [done | constructor]).
  split; [| split].
  - apply Sorted_StronglySorted; [intros a b c; apply dayLe_trans |].
    apply (sort_Sorted _ _ (fun p => exists d, DayOfWeek.dayOfWeek p = Some d)).
    + intros a b [x Ha] [y Hb] Hpos. exists x, y. split; [done | split; [done |]].
      destruct (Nat.le_gt_cases x y) as [| Hlt]; [done |].
      apply (byDay_positive x y a b Ha Hb) in Hlt. congruence.
    + intros a b [x Ha] [y Hb] Hpos. exists y, x. split; [done | split; [done |]].
      apply (byDay_positive x y a b Ha Hb) in Hpos. lia.
    + apply List.Forall_map. eapply List.Forall_impl; [| exact Hentries].
      intros [k b] [(d & Hk & _) _]. by exists d.
  - eapply Permutation_Forall; [symmetry; apply sort_Permutation |].
    apply List.Forall_map. eapply List.Forall_impl; [| exact Hentries].
    intros [k b] [(d & Hk & Hd) Hplays]. simpl in Hk, Hplays. subst k.
    assert (exists name, nth_error DayOfWeek.dayNames d = Some name) as [name Hname].
    { do 7 (destruct d as [| d]; [by eexists |]). lia. }
    exists d, name. unfold DayOfWeek.toPattern. simpl. by rewrite Hname.
  - intros d.
    pose proof (filter_Permutation_list
                  (fun p => bool_decide (DayOfWeek.dayOfWeek p = Some d)) _ _
                  (sort_Permutation DayOfWeek.byDay (map DayOfWeek.toPattern m)))
      as Hperm.
    rewrite filter_map_swap in Hperm.
    rewrite (List.filter_ext _ (fun e => NumMap.sameKey (fst e) (Some d)))
      in Hperm.
    2: { intros [k b]. simpl.
         destruct (sameKey_spec k (Some d)) as [-> |];
           [by apply bool_decide_eq_true | by apply bool_decide_eq_false]. }
    rewrite num_filter_key in Hperm by done.
    unfold m in Hperm. rewrite get_day_fold in Hperm. simpl NumMap.get in Hperm.
    destruct (List.filter (Aux.onDay d) allItems) as [| item rest] eqn:Hhits.
    + simpl in Hperm. symmetry in Hperm. by apply Permutation_nil in Hperm.
    + cbn [fold_left] in Hperm. unfold Spec.tally at 2 in Hperm.
      cbn [default from_option id] in Hperm. rewrite tally_fold in Hperm.
      simpl map in Hperm. symmetry in Hperm.
      apply Permutation_length_1_inv in Hperm. unfold m. rewrite Hperm. f_equal.
      unfold DayOfWeek.toPattern, AuxDay.dayBucket, sumDuration.
      cbn [fst snd Hourly.plays Hourly.duration fold_left length].
      f_equal. lia.
Qed.
End DayOfWeekClaim.

(** X3 at records of hours 3, 3 and 14 of a Thursday. *)
Lemma dayOfWeekPatterns_sorted_buckets_witness :
  StronglySorted AuxDay.dayLe (DayOfWeek.dayOfWeekPatterns Sample.hours_3_3_14) /\
  List.Forall
    (fun p => exists d name,
       DayOfWeek.dayOfWeek p = Some d /\ (d < 7)%nat /\
       nth_error DayOfWeek.dayNames d = Some name /\
       DayOfWeek.dayName p = Some name /\ 1 <= DayOfWeek.plays p)
    (DayOfWeek.dayOfWeekPatterns Sample.hours_3_3_14) /\
  (forall d,
     List.filter (fun p => bool_decide (DayOfWeek.dayOfWeek p = Some d))
       (DayOfWeek.dayOfWeekPatterns Sample.hours_3_3_14) =
     match List.filter (Aux.onDay d) Sample.hours_3_3_14 with
     | [] => []
     | hits => [AuxDay.dayBucket d hits]
     end).
Proof.
  apply (dayOfWeekPatterns_sorted_buckets Sample.hours_3_3_14).
  repeat constructor; discriminate.
Defined.

(** ** Hourly patterns by day of week: the keys and their read-back *)

Section SlotKeyFacts.
Implicit Types (m : Hourly.HourMap) (item : Item) (h d : nat).

Lemma append_cons (c : ascii) (s t : string) :
  String.append (String c s) t = String c (String.append s t).
Proof. reflexivity. Qed.

Lemma split_digits_dash (u : Decimal.uint) (rest : string) :
  Hourly.split (String.append (NilEmpty.string_of_uint u) (String "-" rest)) =
  NilEmpty.string_of_uint u :: Hourly.split rest.
Proof.
  induction u; cbn [NilEmpty.string_of_uint]; rewrite ?append_cons;
    [reflexivity | cbn [Hourly.split Ascii.eqb Bool.eqb]; by rewrite IHu ..].
Qed.

Lemma split_slotKey (h d : option nat) :
  Hourly.split (AuxDay.slotKey h d) = [Hourly.toString h; Hourly.toString d].
Proof.
  unfold AuxDay.slotKey. change (String.append "-" ?s) with (String "-" s).
  destruct h as [h |].
  - unfold Hourly.toString at 1 3. rewrite split_digits_dash.
    by rewrite split_toString.
  - change (Hourly.toString None) with "NaN". rewrite !append_cons.
    change (String.append "" ?s) with s.
    cbn [Hourly.split Ascii.eqb Bool.eqb]. by rewrite split_toString.
Qed.

(** The pattern of an entry shows the hour and the weekday its key was
    printed from. *)
Lemma toPattern_slotKey (h d : option nat) (b : Hourly.Bucket) :
  Hourly.hour (Hourly.toPattern true (AuxDay.slotKey h d, b)) = h /\
  Hourly.dayOfWeek (Hourly.toPattern true (AuxDay.slotKey h d, b)) = Some d.
Proof.
  unfold Hourly.toPattern. cbn [fst snd]. rewrite split_slotKey. cbn [map].
  by rewrite !Number_toString.
Qed.

Lemma slotKey_inj (h d h' d' : option nat) :
  AuxDay.slotKey h d = AuxDay.slotKey h' d' -> h = h' /\ d = d'.
Proof.
  intros H.
  pose proof (toPattern_slotKey h d {| Hourly.plays := 0; Hourly.duration := 0 |})
    as [H1 H2].
  pose proof (toPattern_slotKey h' d' {| Hourly.plays := 0; Hourly.duration := 0 |})
    as [H3 H4].
  rewrite H in H1, H2. split; congruence.
Qed.

Lemma keyOf_true (ts : Timestamp) :
  Hourly.keyOf true ts =
  AuxDay.slotKey (Hourly.getUTCHours ts) (Hourly.getUTCDay ts).
Proof. reflexivity. Qed.

Lemma inSlot_key item h d :
  Aux.inSlot h d item =
  hasTimestamp item &&
  String.eqb (Hourly.keyOf true (timestamp item))
    (AuxDay.slotKey (Some h) (Some d)).
Proof.
  rewrite keyOf_true. unfold Aux.inSlot, Spec.inHour, Aux.onDay, hasTimestamp,
    Hourly.getUTCHours, Hourly.getUTCDay.
  destruct (timestamp item) as [| | ms]; simpl getTime; cbv iota beta.
  - reflexivity.
  - symmetry. apply String.eqb_neq. intros H. by apply slotKey_inj in H as [? _].
  - simpl andb. change Hourly.msPerHour with 3600000.
    change Week.msPerDay with 86400000.
    pose proof (Z.mod_pos_bound (ms / 3600000) 24 ltac:(lia)) as Hb.
    pose proof (Z.mod_pos_bound (ms / 86400000 + 4) 7 ltac:(lia)) as Hb'.
    destruct (Z.eqb_spec ((ms / 3600000) mod 24) (Z.of_nat h)) as [-> | Hne];
      [destruct (Z.eqb_spec ((ms / 86400000 + 4) mod 7) (Z.of_nat d))
         as [-> | Hne] |]; simpl andb.
    + rewrite !Nat2Z.id. symmetry. apply String.eqb_refl.
    + symmetry. apply String.eqb_neq. intros H.
      apply slotKey_inj in H as [_ H]. injection H as H. lia.
    + symmetry. apply String.eqb_neq. intros H.
      apply slotKey_inj in H as [H _]. injection H as H. lia.
Qed.

Lemma hour_set_In m k (v : Hourly.Bucket) e :
  In e (Hourly.set m k v) -> e = (k, v) \/ In e m.
Proof.
  induction m as [| [k' w] m IH]; simpl.
  - intros [<- | []]. by left.
  - destruct (String.eqb_spec k' k) as [-> |]; simpl.
    + intros [<- | ?]; [by left | right; by right].
    + intros [<- | ?]; [right; by left |].
      destruct (IH H) as [-> | ?]; [by left | right; by right].
Qed.

(** Every key of the map is the print of an hour and a weekday. *)
Lemma slotKeys_fold (allItems : list Item) m :
  List.Forall (fun e => exists o1 o2 : option nat, fst e = AuxDay.slotKey o1 o2) m ->
  List.Forall (fun e => exists o1 o2 : option nat, fst e = AuxDay.slotKey o1 o2)
    (fold_left (Hourly.visit true) allItems m).
Proof.
  revert m. induction allItems as [| item rest IH]; intros m Hm; simpl; [done |].
  apply IH. unfold Hourly.visit.
  destruct (hasTimestamp item); simpl negb; cbv iota; [| done].
  apply List.Forall_forall. intros e Hin.
  apply hour_set_In in Hin as [-> | Hin].
  - rewrite keyOf_true. simpl fst. eauto.
  - rewrite List.Forall_forall in Hm. by apply Hm.
Qed.

Lemma keys_NoDup_fold (b : bool) (allItems : list Item) m :
  NoDup (map fst m) ->
  NoDup (map fst (fold_left (Hourly.visit b) allItems m)).
Proof.
  revert m. induction allItems as [| item rest IH]; intros m Hm; simpl; [done |].
  apply IH. unfold Hourly.visit.
  destruct (hasTimestamp item); simpl negb; cbv iota; [| done].
  by apply NoDup_keys_set.
Qed.

Lemma get_slot_visit m item h d :
  Hourly.get (Hourly.visit true m item) (AuxDay.slotKey (Some h) (Some d)) =
  if Aux.inSlot h d item
  then Spec.tally (Hourly.get m (AuxDay.slotKey (Some h) (Some d))) item
  else Hourly.get m (AuxDay.slotKey (Some h) (Some d)).
Proof.
  rewrite inSlot_key. unfold Hourly.visit.
  destruct (hasTimestamp item); cbn [negb andb]; [| done].
  destruct (String.eqb_spec (Hourly.keyOf true (timestamp item))
              (AuxDay.slotKey (Some h) (Some d))) as [-> | Hne].
  - rewrite get_set_eq. unfold Spec.tally.
    by destruct (Hourly.get m (AuxDay.slotKey (Some h) (Some d))).
  - by rewrite get_set_ne.
Qed.

Lemma get_slot_fold (allItems : list Item) m h d :
  Hourly.get (fold_left (Hourly.visit true) allItems m)
    (AuxDay.slotKey (Some h) (Some d)) =
  fold_left Spec.tally (List.filter (Aux.inSlot h d) allItems)
    (Hourly.get m (AuxDay.slotKey (Some h) (Some d))).
Proof.
  revert m. induction allItems as [| item rest IH]; intros m; simpl; [done |].
  rewrite IH, get_slot_visit. by destruct (Aux.inSlot h d item).
Qed.
End SlotKeyFacts.

Section SlotClaim.

(** X4. With [includeDayOfWeek = true] the hour and the weekday of a
    record are printed into one key and read back from it without loss:
    every pattern carries a [dayOfWeek], and the hour [h] of weekday [d]
    has a pattern exactly when a record falls in it, with the number of
    those records as [plays] and the sum of their durations. *)
Theorem hourlyPatterns_by_day (allItems : list Item) (h d : nat) :
  List.filter
    (fun p => bool_decide (Hourly.hour p = Some h /\
                           Hourly.dayOfWeek p = Some (Some d)))
    (Hourly.hourlyPatterns true allItems) =
    match List.filter (Aux.inSlot h d) allItems with
    | [] => []
    | hits => [AuxDay.slotBucket h d hits]
    end /\
  List.Forall (fun p => exists o, Hourly.dayOfWeek p = Some o)
    (Hourly.hourlyPatterns true allItems) /\
  List.Forall (fun p => Hourly.dayOfWeek p = None)
    (Hourly.hourlyPatterns false allItems).
Proof.
  unfold Hourly.hourlyPatterns.
  set (m := fold_left (Hourly.visit true) allItems []).
  assert (NoDup (map fst m)) as Hnd by (apply keys_NoDup_fold; constructor).
  assert (List.Forall
            (fun e => exists o1 o2 : option nat, fst e = AuxDay.slotKey o1 o2) m)
    as Hkeys by (apply slotKeys_fold; constructor).
  split; [| split].
  - rewrite filter_map_swap.
    rewrite (List.filter_ext_in _
               (fun e => String.eqb (fst e) (AuxDay.slotKey (Some h) (Some d)))).
    2: { intros [k b] Hin. rewrite List.Forall_forall in Hkeys.
         destruct (Hkeys _ Hin) as (o1 & o2 & Hk). simpl in Hk. subst k.
         destruct (toPattern_slotKey o1 o2 b) as [-> ->]. simpl fst.
         destruct (String.eqb_spec (AuxDay.slotKey o1 o2)
                     (AuxDay.slotKey (Some h) (Some d))) as [Heq | Hne].
         - apply slotKey_inj in Heq as [-> ->]. by apply bool_decide_eq_true.
         - apply bool_decide_eq_false. intros [-> Hd]. by injection Hd as ->. }
    rewrite filter_key by done. unfold m. rewrite get_slot_fold.
    simpl Hourly.get.
    destruct (List.filter (Aux.inSlot h d) allItems) as [| item rest]; [done |].
    cbn [fold_left]. unfold Spec.tally at 2. cbn [default from_option id].
    rewrite tally_fold. simpl map. f_equal.
    unfold Hourly.toPattern, AuxDay.slotBucket, sumDuration.
    cbn [fst snd Hourly.plays Hourly.duration fold_left length].
    rewrite split_slotKey. cbn [map]. rewrite !Number_toString. f_equal. lia.
  - apply List.Forall_map. eapply List.Forall_impl; [| exact Hkeys].
    intros [k b] (o1 & o2 & Hk). simpl in Hk. subst k.
    destruct (toPattern_slotKey o1 o2 b) as [_ ->]. by eexists.
  - apply List.Forall_map. by apply List.Forall_forall.
Qed.
End SlotClaim.

(** ** No record is lost or counted twice *)

Section ConservationFacts.

Lemma hour_set_sum (m : Hourly.HourMap) (k : string) (v : Hourly.Bucket) :
  fold_right Z.add 0 (map (fun e => Hourly.plays (snd e)) (Hourly.set m k v)) =
  fold_right Z.add 0 (map (fun e => Hourly.plays (snd e)) m)
  - match Hourly.get m k with Some b => Hourly.plays b | None => 0 end
  + Hourly.plays v.
Proof.
  induction m as [| [k' w] m IH]; cbn [Hourly.set Hourly.get]; [simpl; lia |].
  destruct (String.eqb k' k); cbn [map fold_right snd]; [lia |].
  rewrite IH. lia.
Qed.

Lemma num_set_sum (m : list (option nat * Hourly.Bucket)) (k : option nat)
    (v : Hourly.Bucket) :
  fold_right Z.add 0 (map (fun e => Hourly.plays (snd e)) (NumMap.set m k v)) =
  fold_right Z.add 0 (map (fun e => Hourly.plays (snd e)) m)
  - match NumMap.get m k with Some b => Hourly.plays b | None => 0 end
  + Hourly.plays v.
Proof.
  induction m as [| [k' w] m IH]; cbn [NumMap.set NumMap.get]; [simpl; lia |].
  destruct (NumMap.sameKey k' k); cbn [map fold_right snd]; [lia |].
  rewrite IH. lia.
Qed.

Lemma hour_fold_sum (b : bool) (allItems : list Item) (m : Hourly.HourMap) :
  fold_right Z.add 0
    (map (fun e => Hourly.plays (snd e)) (fold_left (Hourly.visit b) allItems m)) =
  fold_right Z.add 0 (map (fun e => Hourly.plays (snd e)) m)
  + Z.of_nat (length (AuxDay.stamped allItems)).
Proof.
  revert m. induction allItems as [| item rest IH]; intros m; simpl; [lia |].
  rewrite IH. unfold Hourly.visit, AuxDay.stamped. simpl List.filter.
  destruct (hasTimestamp item); simpl negb; cbv iota; [| lia].
  rewrite hour_set_sum.
  destruct (Hourly.get m _); cbn [Hourly.plays length]; lia.
Qed.

Lemma day_fold_sum (allItems : list Item) (m : list (option nat * Hourly.Bucket)) :
  fold_right Z.add 0
    (map (fun e => Hourly.plays (snd e)) (fold_left DayOfWeek.visit allItems m)) =
  fold_right Z.add 0 (map (fun e => Hourly.plays (snd e)) m)
  + Z.of_nat (length (AuxDay.stamped allItems)).
Proof.
  revert m. induction allItems as [| item rest IH]; intros m; simpl; [lia |].
  rewrite IH. unfold DayOfWeek.visit, AuxDay.stamped. simpl List.filter.
  destruct (hasTimestamp item); simpl negb; cbv iota; [| lia].
  rewrite num_set_sum.
  destruct (NumMap.get m _); cbn [Hourly.plays length]; lia.
Qed.

Lemma sum_Permutation (l l' : list Z) :
  Permutation l l' -> fold_right Z.add 0 l = fold_right Z.add 0 l'.
Proof. induction 1; simpl; lia. Qed.

(** X5. Every record that has a timestamp is counted in exactly one
    bucket, and a record without one in none: the plays of the hourly
    patterns, with or without the day of week, and those of the
    day-of-week patterns each add up to the number of records that have
    a timestamp. *)
Theorem patterns_count_every_record (includeDayOfWeek : bool)
    (allItems : list Item) :
  AuxDay.hourlyPlays (Hourly.hourlyPatterns includeDayOfWeek allItems) =
    Z.of_nat (length (AuxDay.stamped allItems)) /\
  AuxDay.dailyPlays (DayOfWeek.dayOfWeekPatterns allItems) =
    Z.of_nat (length (AuxDay.stamped allItems)).
Proof.
  split.
  - unfold AuxDay.hourlyPlays, Hourly.hourlyPatterns. rewrite map_map.
    change (fun x => Hourly.p_plays (Hourly.toPattern includeDayOfWeek x))
      with (fun e : string * Hourly.Bucket => Hourly.plays (snd e)).
    by rewrite hour_fold_sum.
  - unfold AuxDay.dailyPlays, DayOfWeek.dayOfWeekPatterns.
    rewrite (sum_Permutation _ _
               (Permutation_map DayOfWeek.plays
                  (sort_Permutation DayOfWeek.byDay _))).
    rewrite map_map.
    change (fun x => DayOfWeek.plays (DayOfWeek.toPattern x))
      with (fun e : option nat * Hourly.Bucket => Hourly.plays (snd e)).
    by rewrite day_fold_sum.
Qed.
End ConservationFacts.

(** ** From the hourly route to the chart *)

Section ChartFacts.

Lemma hour_bucket (allItems : list Item) (h : nat) :
  List.filter (fun p => bool_decide (Hourly.hour p = Some h))
    (Hourly.hourlyPatterns false allItems) =
  match List.filter (Spec.inHour h) allItems with
  | [] => []
  | hits => [Spec.bucketOf h hits]
  end.
Proof.
  unfold Hourly.hourlyPatterns.
  destruct (fold_invariants allItems []) as [Hnd Hkeys];
    [constructor | constructor |].
  rewrite patterns_of_hour, get_fold by done. simpl Hourly.get.
  destruct (List.filter (Spec.inHour h) allItems) as [| item rest]; [done |].
  cbn [fold_left]. unfold Spec.tally at 2. cbn [default from_option id].
  rewrite tally_fold. f_equal.
  unfold Hourly.toPattern, Spec.bucketOf, sumDuration.
  cbn [fst snd Hourly.plays Hourly.duration fold_left length].
  rewrite split_toString. cbn [map]. rewrite Number_toString. f_equal. lia.
Qed.

Lemma chart_get_visit (m : list (option nat * Hourly.Bucket))
    (p : Hourly.Pattern) (k : option nat) :
  NumMap.get (Chart.visit m p) k =
  if NumMap.sameKey (Hourly.hour p) k
  then Some {| Hourly.plays :=
                 match NumMap.get m k with
                 | Some b => Hourly.plays b
                 | None => 0
                 end + Hourly.p_plays p;
               Hourly.duration :=
                 (match NumMap.get m k with
                  | Some b => Hourly.duration b
                  | None => 0
                  end + Hourly.p_duration p)%Q |}
  else NumMap.get m k.
Proof.
  unfold Chart.visit.
  destruct (sameKey_spec (Hourly.hour p) k) as [-> | Hne].
  - rewrite num_get_set_eq. by destruct (NumMap.get m k).
  - by rewrite num_get_set_ne.
Qed.

Lemma chart_get_none (patterns : list Hourly.Pattern)
    (m : list (option nat * Hourly.Bucket)) (k : option nat) :
  List.filter (fun p => NumMap.sameKey (Hourly.hour p) k) patterns = [] ->
  NumMap.get (fold_left Chart.visit patterns m) k = NumMap.get m k.
Proof.
  revert m. induction patterns as [| p rest IH]; intros m Hnone; simpl; [done |].
  simpl in Hnone. destruct (NumMap.sameKey (Hourly.hour p) k) eqn:Hp; [done |].
  rewrite IH by done. by rewrite chart_get_visit, Hp.
Qed.

Lemma chart_get_one (patterns : list Hourly.Pattern) (p : Hourly.Pattern)
    (m : list (option nat * Hourly.Bucket)) (k : option nat) :
  NumMap.get m k = None ->
  List.filter (fun p => NumMap.sameKey (Hourly.hour p) k) patterns = [p] ->
  NumMap.get (fold_left Chart.visit patterns m) k =
  Some {| Hourly.plays := 0 + Hourly.p_plays p;
          Hourly.duration := (0 + Hourly.p_duration p)%Q |}.
Proof.
  revert m. induction patterns as [| q rest IH]; intros m Hm Hone; [done |].
  simpl in Hone. simpl fold_left.
  destruct (NumMap.sameKey (Hourly.hour q) k) eqn:Hq.
  - injection Hone as -> Hrest.
    rewrite chart_get_none by done. by rewrite chart_get_visit, Hq, Hm.
  - apply IH; [| done]. by rewrite chart_get_visit, Hq.
Qed.

Lemma orZero_eq (q : Q) : (Chart.orZero q == q)%Q.
Proof.
  unfold Chart.orZero. destruct (Qeq_bool q 0) eqn:E; [| reflexivity].
  apply Qeq_bool_eq in E. by rewrite E.
Qed.

(** X6. The hour chart of the client, fed with the patterns of the
    hourly route, has 24 rows, one per hour 0-23 in order, labelled
    [h:00]; the row of hour [h] shows the number of records that fall in
    that hour and the sum of their durations, 0 for an hour without
    records. So the hours the route leaves out are filled in here. *)
Theorem chart_rows_all_hours (allItems : list Item) :
  let rows := Chart.chartData (Hourly.hourlyPatterns false allItems) in
  length rows = 24%nat /\
  forall h, (h < 24)%nat ->
    exists r,
      nth_error rows h = Some r /\
      Chart.label r = String.append (Hourly.toString (Some h)) ":00" /\
      Chart.plays r = Z.of_nat (length (List.filter (Spec.inHour h) allItems)) /\
      (Chart.duration r == sumDuration (List.filter (Spec.inHour h) allItems))%Q.
Proof.
  intros rows. split; [reflexivity |]. intros h Hh.
  exists (Chart.row (fold_left Chart.visit (Hourly.hourlyPatterns false allItems) [])
            h).
  split.
  - unfold rows, Chart.chartData. rewrite nth_error_map.
    rewrite nth_error_seq. destruct (Nat.ltb_spec h 24); [done | lia].
  - split; [reflexivity |].
    pose proof (hour_bucket allItems h) as Hbucket.
    rewrite (List.filter_ext _ (fun p => NumMap.sameKey (Hourly.hour p) (Some h)))
      in Hbucket.
    2: { intros p. destruct (sameKey_spec (Hourly.hour p) (Some h));
           [by apply bool_decide_eq_true | by apply bool_decide_eq_false]. }
    unfold Chart.row. cbn [Chart.plays Chart.duration].
    destruct (List.filter (Spec.inHour h) allItems) as [| item rest].
    + rewrite chart_get_none by done. split; reflexivity.
    + rewrite (chart_get_one _ _ [] (Some h) eq_refl Hbucket).
      cbn [Hourly.plays Hourly.duration Spec.bucketOf Hourly.p_plays
           Hourly.p_duration].
      split; [reflexivity |]. rewrite orZero_eq. apply Qplus_0_l.
Qed.
End ChartFacts.

(** ** The two weeks of the comparison, together *)

Section WeekMore.
Implicit Types (now : Z) (item : Item) (items : list Item).

Lemma filter_split {A : Type} (p q r : A -> bool) (l : list A) :
  (forall x, p x && q x = false) -> (forall x, r x = p x || q x) ->
  Permutation (List.filter p l ++ List.filter q l) (List.filter r l).
Proof.
  intros Hdisj Hor. induction l as [| x l IH]; simpl; [done |].
  specialize (Hdisj x). rewrite (Hor x).
  destruct (p x), (q x); simpl in *; try done.
  - by constructor.
  - rewrite <- Permutation_middle. by constructor.
Qed.

Lemma since_windows now item :
  Aux.since (now - 14 * Week.msPerDay) item =
  Week.inCurrentWeek now item || Week.inPreviousWeek now item.
Proof.
  unfold Aux.since, Week.inCurrentWeek, Week.inPreviousWeek, hasTimestamp,
    Week.dateGe, Week.dateLt.
  destruct (timestamp item) as [| | ts]; simpl; [done | done |].
  unfold Week.msPerDay.
  destruct (Z.leb_spec (now - 14 * (24 * 60 * 60 * 1000)) ts),
    (Z.geb_spec ts (now - 7 * (24 * 60 * 60 * 1000))),
    (Z.geb_spec ts (now - 14 * (24 * 60 * 60 * 1000))),
    (Z.ltb_spec ts (now - 7 * (24 * 60 * 60 * 1000))); simpl; try done; lia.
Qed.

Lemma visit_ads_size items (acc : gset string * Q) :
  (size (fst (fold_left Week.visit items acc)) <= size (fst acc) + length items)%nat.
Proof.
  revert acc. induction items as [| item rest IH]; intros acc; simpl; [lia |].
  etransitivity; [apply IH |]. unfold Week.visit. cbn [fst].
  destruct (JS.truthyStr (ad_filename item)); [| lia].
  destruct (ad_filename item) as [ad |]; [| lia].
  rewrite size_union_alt, size_singleton.
  pose proof (subseteq_size (fst acc ∖ {[ad]}) (fst acc)
                ltac:(apply subseteq_difference_l; done)). lia.
Qed.

Lemma getWeekStats_uniqueAds items :
  0 <= Week.uniqueAds (Week.getWeekStats items) <=
  Week.plays (Week.getWeekStats items).
Proof.
  unfold Week.getWeekStats. cbn [Week.uniqueAds Week.plays].
  pose proof (visit_ads_size items (∅, 0%Q)) as H. cbn [fst] in H.
  rewrite size_empty in H. lia.
Qed.

(** X7. The two windows of the week comparison split the records of
    the last 14 days and later between them: together they hold each
    record with a readable timestamp not before [now - 14 days] once,
    and no other. The current week has no upper end, so a record
    stamped after [now] is counted in it. In each window [uniqueAds] is
    at most [plays]. *)
Theorem week_windows_partition now (allItems : list Item) :
  Permutation
    (Week.currentWeekItems now allItems ++ Week.previousWeekItems now allItems)
    (List.filter (Aux.since (now - 14 * Week.msPerDay)) allItems) /\
  Week.plays (Week.currentWeek (Week.weekComparison now allItems)) +
  Week.plays (Week.previousWeek (Week.weekComparison now allItems)) =
    Z.of_nat (length (List.filter (Aux.since (now - 14 * Week.msPerDay)) allItems)) /\
  (forall item ts,
     In item allItems -> timestamp item = TsAt ts -> now < ts ->
     In item (Week.currentWeekItems now allItems)) /\
  0 <= Week.uniqueAds (Week.currentWeek (Week.weekComparison now allItems)) <=
    Week.plays (Week.currentWeek (Week.weekComparison now allItems)) /\
  0 <= Week.uniqueAds (Week.previousWeek (Week.weekComparison now allItems)) <=
    Week.plays (Week.previousWeek (Week.weekComparison now allItems)).
Proof.
  assert (Permutation
            (Week.currentWeekItems now allItems ++
             Week.previousWeekItems now allItems)
            (List.filter (Aux.since (now - 14 * Week.msPerDay)) allItems))
    as Hperm.
  { apply filter_split; [apply windows_disjoint | apply since_windows]. }
  split; [done |]. split; [| split; [| split]].
  - apply Permutation_length in Hperm. rewrite length_app in Hperm.
    unfold Week.weekComparison, Week.getWeekStats. cbn [Week.currentWeek
      Week.previousWeek Week.plays]. lia.
  - intros item ts Hin Hts Hfuture. unfold Week.currentWeekItems.
    apply filter_In. split; [done |].
    apply (inCurrentWeek_spec now item ts Hts). unfold Week.msPerDay. lia.
  - apply getWeekStats_uniqueAds.
  - apply getWeekStats_uniqueAds.
Qed.
End WeekMore.

(** ** The time series route *)

Section TimeseriesFacts.
Context (send : Command -> Outcome QueryOutput).

(** The loop of the route gathers what the walker gathers. *)
Lemma timeseries_pages_walk fuel device gathered key :
  Timeseries.pages send fuel device gathered key =
  fst (Walker.walk (Aux.stateless send) fuel device gathered key tt).
Proof.
  revert gathered key. induction fuel as [| fuel IH]; intros gathered key;
    [done |].
  cbn [Timeseries.pages Walker.walk]. unfold Aux.stateless at 1.
  change (QueryCommand _) with (QueryCommand (Walker.queryParams device key)).
  destruct (send (QueryCommand (Walker.queryParams device key)))
    as [response | e |]; simpl; [| done | done].
  destruct (LastEvaluatedKey response); [apply IH | done].
Qed.

(** X8. The time-series route pages through the store exactly as
    [getAllItemsForDevice] does: its items are the records that helper
    returns for the device, each cut down to its four fields, in the
    same order, and [count] is their number; an error of the store
    becomes a 500 with the error's name as [code]. *)
Theorem timeseries_follows_walker (fuel : nat) (device : string) :
  Timeseries.getTimeseries send fuel device =
  match fst (Walker.getAllItemsForDevice (Aux.stateless send) fuel device tt) with
  | Ok gathered =>
      Ok (Http.Success
            {| Timeseries.deviceId := device;
               Timeseries.items := map Timeseries.project gathered;
               Timeseries.count := Z.of_nat (length gathered) |})
  | Throw e =>
      Ok (Http.Failure 500
            {| Http.error := if String.eqb (message e) ""
                             then "Failed to fetch time series data"
                             else message e;
               Http.code := Some (name e) |})
  | Pending => Pending
  end.
Proof.
  unfold Timeseries.getTimeseries, Walker.getAllItemsForDevice.
  rewrite timeseries_pages_walk.
  destruct (fst (Walker.walk (Aux.stateless send) fuel device [] None tt));
    simpl; [| done | done].
  by rewrite length_map.
Qed.
End TimeseriesFacts.

(** ** Plays per day *)

Section FrequencyFacts.

Lemma max1_ge (x : Q) : (1 <= (if Qle_bool 1 x then x else 1))%Q.
Proof.
  destruct (Qle_bool 1 x) eqn:E; [by apply Qle_bool_iff | apply Qle_refl].
Qed.

Lemma max1_le (x : Q) : (x <= 1)%Q -> ((if Qle_bool 1 x then x else 1) == 1)%Q.
Proof.
  intros Hx. destruct (Qle_bool 1 x) eqn:E; [| reflexivity].
  apply Qle_bool_iff in E. by apply Qle_antisym.
Qed.

Lemma per_day_bounds (n : Z) (dd : Q) :
  0 <= n -> (1 <= dd)%Q -> (0 <= inject_Z n / dd <= inject_Z n)%Q.
Proof.
  intros Hn Hdd. assert (0 <= inject_Z n)%Q as Hn'.
  { change 0%Q with (inject_Z 0). by rewrite <- Zle_Qle. }
  split.
  - apply Qle_shift_div_l; [lra | lra].
  - apply Qle_shift_div_r; [lra | nra].
Qed.

(** Rounding to two decimals keeps a value between 0 and a whole
    number there. *)
Lemma round2_bounds (y : Q) (n : Z) :
  (0 <= y <= inject_Z n)%Q ->
  (0 <= inject_Z (Qfloor (y * 100 + (1 # 2))) / 100 <= inject_Z n)%Q.
Proof.
  intros [Hlo Hhi].
  assert (0 <= Qfloor (y * 100 + (1 # 2))) as Hz0.
  { change 0 with (Qfloor 0). apply Qfloor_resp_le. lra. }
  assert (Qfloor (y * 100 + (1 # 2)) <= 100 * n) as Hz1.
  { pose proof (Qfloor_le (y * 100 + (1 # 2))) as Hfl.
    assert (inject_Z (Qfloor (y * 100 + (1 # 2))) < inject_Z (100 * n + 1))%Q
      as Hlt.
    { rewrite inject_Z_plus, inject_Z_mult.
      change (inject_Z 100) with 100%Q. change (inject_Z 1) with 1%Q. lra. }
    rewrite <- Zlt_Qlt in Hlt. lia. }
  rewrite Zle_Qle in Hz0, Hz1. rewrite inject_Z_mult in Hz1.
  change (inject_Z 100) with 100%Q in Hz1. change (inject_Z 0) with 0%Q in Hz0.
  split.
  - apply Qle_shift_div_l; [lra | lra].
  - apply Qle_shift_div_r; [lra | lra].
Qed.

Lemma round2_whole (y : Q) (n : Z) :
  (y == inject_Z n)%Q ->
  (inject_Z (Qfloor (y * 100 + (1 # 2))) / 100 == inject_Z n)%Q.
Proof.
  intros Hy.
  assert (Qfloor (y * 100 + (1 # 2)) = 100 * n) as ->.
  { pose proof (Qfloor_le (y * 100 + (1 # 2))) as Hfl.
    pose proof (Qlt_floor (y * 100 + (1 # 2))) as Hlt.
    assert (inject_Z (Qfloor (y * 100 + (1 # 2))) < inject_Z (100 * n + 1))%Q
      as H1.
    { rewrite inject_Z_plus, inject_Z_mult.
      change (inject_Z 100) with 100%Q. change (inject_Z 1) with 1%Q. lra. }
    assert (inject_Z (100 * n - 1) < inject_Z (Qfloor (y * 100 + (1 # 2))))%Q
      as H2.
    { rewrite inject_Z_plus in Hlt. unfold Zminus.
      rewrite inject_Z_plus, inject_Z_mult.
      change (inject_Z 100) with 100%Q. change (inject_Z (- (1))) with (-1)%Q.
      change (inject_Z 1) with 1%Q in Hlt. lra. }
    rewrite <- Zlt_Qlt in H1, H2. lia. }
  rewrite inject_Z_mult. change (inject_Z 100) with 100%Q. field.
Qed.

(** The first and the last record of a sorted array are records of
    the array. *)
Lemma first_last_In (first : Item) (rest : list Item) :
  In first (first :: rest) /\ In (List.last (first :: rest) first) (first :: rest).
Proof.
  split; [by left |].
  destruct (exists_last (l := first :: rest)) as (l' & z & Heq); [done |].
  rewrite Heq, List.last_last. apply in_app_iff. right. by left.
Qed.

Lemma frequency_value (items : list Item) (n : Z) :
  List.Forall Spec.readable items -> 0 <= n ->
  exists q,
    Leaderboard.round2 (Leaderboard.frequencyOf (JS.sort byTimeAscending items) n) =
      JS.Num q /\
    (0 <= q <= inject_Z n)%Q /\
    ((forall a b ta tb, In a items -> In b items ->
        timestamp a = TsAt ta -> timestamp b = TsAt tb ->
        tb - ta <= 1000 * 60 * 60 * 24) ->
     items <> [] -> (q == inject_Z n)%Q).
Proof.
  intros Hall Hn.
  assert (List.Forall Spec.readable (JS.sort byTimeAscending items)) as Hsorted
    by (eapply Permutation_Forall; [symmetry; apply sort_Permutation | done]).
  destruct (JS.sort byTimeAscending items) as [| first rest] eqn:Hsort.
  - exists (inject_Z (Qfloor (0 * 100 + (1 # 2))) / 100)%Q.
    split; [reflexivity |]. split.
    + apply (round2_bounds 0 n). split; [lra |].
      change 0%Q with (inject_Z 0). by rewrite <- Zle_Qle.
    + intros _ Hne. destruct items as [| x l]; [done |].
      exfalso. by apply (sort_nonempty byTimeAscending x l).
  - destruct (first_last_In first rest) as [Hin1 Hin2].
    rewrite List.Forall_forall in Hsorted.
    destruct (Hsorted _ Hin1) as [t1 H1]. destruct (Hsorted _ Hin2) as [t2 H2].
    unfold Leaderboard.frequencyOf. rewrite H1, H2.
    cbn [getTime timeNum JS.jsub JS.jdiv JS.max1 Leaderboard.round2 JS.jmul
         JS.round].
    set (x := ((inject_Z t2 - inject_Z t1) / inject_Z (1000 * 60 * 60 * 24))%Q).
    set (dd := if Qle_bool 1 x then x else 1%Q).
    exists (inject_Z (Qfloor (inject_Z n / dd * 100 + (1 # 2))) / 100)%Q.
    split; [reflexivity |]. split.
    + apply round2_bounds, per_day_bounds; [done | apply max1_ge].
    + intros Hspan _. apply round2_whole.
      assert (Permutation (first :: rest) items) as Hperm
        by (rewrite <- Hsort; apply sort_Permutation).
      assert (t2 - t1 <= 1000 * 60 * 60 * 24) as Hday.
      { apply (Hspan first (List.last (first :: rest) first));
          [by eapply Permutation_in | by eapply Permutation_in | done | done]. }
      assert (dd == 1)%Q as ->.
      { apply max1_le. unfold x. apply Qle_shift_div_r; [done |].
        rewrite Qmult_1_l. unfold Qminus.
        rewrite <- inject_Z_opp, <- inject_Z_plus, <- Zle_Qle. lia. }
      field.
Qed.
End FrequencyFacts.

(** ** The comparison of the devices *)

Section FanOutFailure.
Context {B : Type}.

(** [Promise.all] rejects as soon as one of its promises does. *)
Lemma awaitAll_Throw (ps : list (Outcome B)) (e : Error) :
  In (Throw e) ps -> exists e', awaitAll ps = Throw e' /\ In (Throw e') ps.
Proof.
  induction ps as [| p ps IH]; intros Hin; [done |].
  destruct p as [b | e0 |].
  - destruct Hin as [Heq | Hin]; [discriminate Heq |].
    destruct (IH Hin) as (e' & Hall & Hin').
    exists e'. simpl. rewrite Hall. split; [done | by right].
  - exists e0. split; [done | by left].
  - destruct Hin as [Heq | Hin]; [discriminate Heq |].
    destruct (IH Hin) as (e' & Hall & Hin').
    exists e'. simpl. rewrite Hall. split; [done | by right].
Qed.

Lemma awaitAll_Throw_inv (ps : list (Outcome B)) (e : Error) :
  awaitAll ps = Throw e -> In (Throw e) ps.
Proof.
  induction ps as [| p ps IH]; [done |]. simpl.
  destruct p as [b | e0 |].
  - destruct (awaitAll ps) as [l | e1 |]; [done | | done].
    intros [= ->]. right. by apply IH.
  - intros [= ->]. by left.
  - destruct (awaitAll ps) as [l | e1 |]; [done | | done].
    intros [= ->]. right. by apply IH.
Qed.
End FanOutFailure.

Section ComparisonFacts.
Context (s3 : ListObjectsInput -> Outcome ListObjectsOutput)
        (send : Command -> Outcome QueryOutput).

Lemma comparison_stat_bounds (device : string) (items : list Item) :
  List.Forall Spec.readable items ->
  Comparison.deviceId (Comparison.stat device items) = device /\
  exists q,
    Comparison.avgPlaysPerDay (Comparison.stat device items) = JS.Num q /\
    (0 <= q <= inject_Z (Comparison.totalPlays (Comparison.stat device items)))%Q.
Proof.
  intros Hall. split; [done |].
  destruct (frequency_value items (Z.of_nat (length items)) Hall) as (q & Hq & Hb & _);
    [lia |].
  exists q. by split.
Qed.

(** X9. When the walk of every listed device succeeds on records with
    readable timestamps, the comparison answers with one entry per
    device, in the order of the listing; an entry counts all records of
    its device, and its average per day is a number between 0 and that
    count. *)
Theorem comparison_entries (fuel : nat) (devices : list string)
    (items : string -> list Item) :
  Listing.getAllDevices s3 = Ok devices ->
  (forall d, In d devices ->
     Comparison.allItems send fuel d = Ok (items d) /\
     List.Forall Spec.readable (items d)) ->
  exists stats,
    Comparison.getComparison s3 send fuel = Ok (Http.Success stats) /\
    map Comparison.deviceId stats = devices /\
    map Comparison.totalPlays stats =
      map (fun d => Z.of_nat (length (items d))) devices /\
    List.Forall
      (fun s => exists q,
         Comparison.avgPlaysPerDay s = JS.Num q /\
         (0 <= q <= inject_Z (Comparison.totalPlays s))%Q)
      stats.
Proof.
  intros Hdev Hwalks.
  exists (map (fun d => Comparison.stat d (items d)) devices).
  split; [| split; [| split]].
  - unfold Comparison.getComparison. rewrite Hdev. cbn [mbind Outcome_bind].
    rewrite (awaitAll_map _ (fun d => Comparison.stat d (items d))); [done |].
    intros d Hd. unfold Comparison.deviceStat.
    by rewrite (proj1 (Hwalks d Hd)).
  - rewrite map_map. cbn [Comparison.stat Comparison.deviceId]. apply map_id.
  - by rewrite map_map.
  - apply List.Forall_forall. intros s Hs. apply in_map_iff in Hs.
    destruct Hs as (d & <- & Hd).
    apply (comparison_stat_bounds d (items d)), Hwalks, Hd.
Qed.

(** X10. The comparison does not isolate failures: when the walk of one
    listed device is rejected, the whole request is answered with
    status 500 and the name of the error of a rejected walk, whatever
    the other devices have. *)
Theorem comparison_fails_as_a_whole (fuel : nat) (devices : list string)
    (d : string) (e : Error) :
  Listing.getAllDevices s3 = Ok devices ->
  In d devices ->
  Comparison.allItems send fuel d = Throw e ->
  exists d' e',
    In d' devices /\ Comparison.allItems send fuel d' = Throw e' /\
    Comparison.getComparison s3 send fuel =
      Ok (Http.Failure 500
            {| Http.error := Http.messageOr e' "Failed to fetch device comparison";
               Http.code := Some (name e') |}).
Proof.
  intros Hdev Hd Hwalk.
  assert (In (Throw e) (map (Comparison.deviceStat send fuel) devices)) as Hin.
  { apply in_map_iff. exists d. split; [| done].
    unfold Comparison.deviceStat. by rewrite Hwalk. }
  destruct (awaitAll_Throw _ _ Hin) as (e' & Hall & Hin').
  apply in_map_iff in Hin'. destruct Hin' as (d' & Hstat & Hd').
  exists d', e'. split; [done |]. split.
  - unfold Comparison.deviceStat in Hstat.
    destruct (Comparison.allItems send fuel d') as [l | e0 |]; [done | | done].
    cbn in Hstat. by injection Hstat as ->.
  - unfold Comparison.getComparison. rewrite Hdev. cbn [mbind Outcome_bind].
    by rewrite Hall.
Qed.
End ComparisonFacts.

(** X9 at a store in which one of the two devices has three plays. *)
Lemma comparison_entries_witness :
  exists stats,
    Comparison.getComparison Sample.s3 Fixture.plays 5 = Ok (Http.Success stats) /\
    map Comparison.deviceId stats = ["tv-1"; "tv-2"] /\
    map Comparison.totalPlays stats =
      map (fun d => Z.of_nat (length
             (if String.eqb d "tv-1"
              then [Sample.record "b" 172800000 20; Sample.record "a" 0 10;
                    Sample.record "c" 86400000 30]
              else [])))
          ["tv-1"; "tv-2"] /\
    List.Forall
      (fun s => exists q,
         Comparison.avgPlaysPerDay s = JS.Num q /\
         (0 <= q <= inject_Z (Comparison.totalPlays s))%Q)
      stats.
Proof.
  apply (comparison_entries Sample.s3 Fixture.plays 5 ["tv-1"; "tv-2"]
           (fun d => if String.eqb d "tv-1"
                     then [Sample.record "b" 172800000 20; Sample.record "a" 0 10;
                           Sample.record "c" 86400000 30]
                     else [])).
  - reflexivity.
  - intros d [<- | [<- | []]].
    + split; [reflexivity |].
      repeat constructor; eexists; reflexivity.
    + split; [reflexivity | constructor].
Defined.

(** X10 at a store that rejects the queries about [tv-2]. *)
Lemma comparison_fails_as_a_whole_witness :
  exists d' e',
    In d' ["tv-1"; "tv-2"] /\
    Comparison.allItems Fixture.partial 5 d' = Throw e' /\
    Comparison.getComparison Sample.s3 Fixture.partial 5 =
      Ok (Http.Failure 500
            {| Http.error := Http.messageOr e' "Failed to fetch device comparison";
               Http.code := Some (name e') |}).
Proof.
  apply (comparison_fails_as_a_whole Sample.s3 Fixture.partial 5 ["tv-1"; "tv-2"]
           "tv-2" Sample.throttled).
  - reflexivity.
  - right. by left.
  - reflexivity.
Defined.

(** ** Latest screenshots *)

Section ScreenshotFacts.
Context (SCREENSHOT_BUCKET : string)
        (s3 : ListObjectsInput -> Outcome ListObjectsOutput)
        (getSignedUrl : string -> string -> Z -> Outcome string).

Lemma byLatest_sorted (objs : list S3Object) :
  StronglySorted (fun a b => Screenshots.modified b <= Screenshots.modified a)
    (JS.sort Screenshots.byLatest objs).
Proof.
  apply Sorted_StronglySorted; [intros a b c; lia |].
  apply (sort_Sorted Screenshots.byLatest _ (fun _ => True)).
  - intros x y _ _ H. apply not_positive_Num in H.
    change 0%Q with (inject_Z 0) in H. rewrite <- Zle_Qle in H. lia.
  - intros x y _ _ H. apply positive_Num in H.
    change 0%Q with (inject_Z 0) in H. rewrite <- Zlt_Qlt in H. lia.
  - by apply List.Forall_forall.
Qed.

Lemma isPng_spec (obj : S3Object) :
  Screenshots.isPng obj = true <->
  exists k, Key obj = Some k /\ k <> "" /\ JS.endsWith k ".png" = true.
Proof.
  unfold Screenshots.isPng, JS.truthyStr. destruct (Key obj) as [k |].
  - rewrite andb_true_iff, negb_true_iff. split.
    + intros [Hne Hpng]. exists k. split; [done |]. split; [| done].
      intros ->. discriminate Hne.
    + intros (k' & [= <-] & Hne & Hpng). split; [| done].
      by apply String.eqb_neq.
  - split; [done | by intros (k & ? & _)].
Qed.

(** The first object of the sorted listing: a [.png] object of the
    listing that no [.png] object of the listing is younger than. *)
Lemma latest_png (contents : list S3Object) (latest : S3Object)
    (rest : list S3Object) :
  JS.sort Screenshots.byLatest (List.filter Screenshots.isPng contents) =
    latest :: rest ->
  In latest contents /\ Screenshots.isPng latest = true /\
  forall obj, In obj contents -> Screenshots.isPng obj = true ->
    Screenshots.modified obj <= Screenshots.modified latest.
Proof.
  intros Hsort.
  pose proof (sort_Permutation Screenshots.byLatest
                (List.filter Screenshots.isPng contents)) as Hperm.
  pose proof (byLatest_sorted (List.filter Screenshots.isPng contents)) as Hsorted.
  rewrite Hsort in Hperm, Hsorted.
  assert (forall obj, In obj (latest :: rest) <->
                      In obj contents /\ Screenshots.isPng obj = true) as Hmem.
  { intros obj. rewrite <- filter_In. split; apply Permutation_in; [done |].
    by symmetry. }
  destruct (proj1 (Hmem latest) ltac:(by left)) as [Hin Hpng].
  split; [done |]. split; [done |].
  intros obj Hobj Hp. apply StronglySorted_inv in Hsorted as [_ Hhd].
  destruct (proj2 (Hmem obj) (conj Hobj Hp)) as [<- | Hrest]; [lia |].
  rewrite List.Forall_forall in Hhd. by apply Hhd.
Qed.

(** X11. The screenshot of a device whose listing succeeds: without a
    [.png] object the entry is empty and carries no error; otherwise
    the link is asked for a [.png] key of the listing that no other
    [.png] object is younger than, and a failure of the signing leaves
    an empty entry with the message of the error. *)
Theorem screenshot_is_latest_png (device : string) (response : ListObjectsOutput) :
  s3 {| Bucket := SCREENSHOT_BUCKET;
        Prefix := Some (Listing.devicePrefix device);
        Delimiter := None |} = Ok response ->
  let contents := default [] (Contents response) in
  (List.filter Screenshots.isPng contents = [] /\
   Screenshots.entry SCREENSHOT_BUCKET s3 getSignedUrl device =
     Ok (Screenshots.none device None)) \/
  exists latest key,
    In latest contents /\ Key latest = Some key /\
    JS.endsWith key ".png" = true /\
    (forall obj, In obj contents -> Screenshots.isPng obj = true ->
       Screenshots.modified obj <= Screenshots.modified latest) /\
    Screenshots.entry SCREENSHOT_BUCKET s3 getSignedUrl device =
      match getSignedUrl SCREENSHOT_BUCKET key 3600 with
      | Ok url =>
          Ok {| Screenshots.deviceId := device;
                Screenshots.screenshotUrl := Some url;
                Screenshots.screenshotKey := Some key;
                Screenshots.lastModified := LastModified latest;
                Screenshots.error := None |}
      | Throw e => Ok (Screenshots.none device (Some (message e)))
      | Pending => Pending
      end.
Proof.
  intros Hs3 contents. unfold Screenshots.entry. rewrite Hs3.
  cbn [mbind Outcome_bind]. fold contents.
  destruct (JS.sort Screenshots.byLatest (List.filter Screenshots.isPng contents))
    as [| latest rest] eqn:Hsort.
  - left. split; [| done].
    destruct (List.filter Screenshots.isPng contents) as [| x l]; [done |].
    exfalso. by apply (sort_nonempty Screenshots.byLatest x l).
  - right. destruct (latest_png contents latest rest Hsort) as (Hin & Hpng & Hmax).
    apply isPng_spec in Hpng as (key & Hkey & _ & Hends).
    exists latest, key. rewrite Hkey. cbn [default from_option id].
    repeat (split; [done |]).
    by destruct (getSignedUrl SCREENSHOT_BUCKET key 3600).
Qed.

Lemma entry_never_throws (device : string) (e : Error) :
  Screenshots.entry SCREENSHOT_BUCKET s3 getSignedUrl device <> Throw e.
Proof.
  unfold Screenshots.entry.
  destruct (s3 _) as [response | e0 |]; cbn [mbind Outcome_bind]; [| done | done].
  destruct (JS.sort _ _) as [| latest rest]; [done |].
  by destruct (getSignedUrl _ _ _).
Qed.

Lemma entry_deviceId (device : string) (entry : Screenshots.Entry) :
  Screenshots.entry SCREENSHOT_BUCKET s3 getSignedUrl device = Ok entry ->
  Screenshots.deviceId entry = device.
Proof.
  unfold Screenshots.entry.
  destruct (s3 _) as [response | e0 |]; cbn [mbind Outcome_bind];
    [| by intros [= <-] | done].
  destruct (JS.sort _ _) as [| latest rest]; [by intros [= <-] |].
  destruct (getSignedUrl _ _ _); cbn; [by intros [= <-] | by intros [= <-] | done].
Qed.

Lemma getAllDevices_settles :
  Listing.getAllDevices s3 = Pending \/
  exists devices, Listing.getAllDevices s3 = Ok devices.
Proof.
  unfold Listing.getAllDevices.
  destruct (Listing.listPrefixes s3); cbn; eauto.
Qed.

(** X12. The screenshots route never answers with an error: no failure
    of the storage service or of the signing reaches the handler of
    the route, so a reply is a success with one entry per listed
    device, in the order of the listing. *)
Theorem screenshots_never_fail :
  Screenshots.getScreenshots SCREENSHOT_BUCKET s3 getSignedUrl = Pending \/
  exists devices entries,
    Listing.getAllDevices s3 = Ok devices /\
    Screenshots.getScreenshots SCREENSHOT_BUCKET s3 getSignedUrl =
      Ok (Http.Success entries) /\
    map Screenshots.deviceId entries = devices.
Proof.
  unfold Screenshots.getScreenshots.
  destruct getAllDevices_settles as [-> | (devices & ->)]; [by left |].
  cbn [mbind Outcome_bind].
  destruct (awaitAll (map (Screenshots.entry SCREENSHOT_BUCKET s3 getSignedUrl)
                          devices)) as [entries | e |] eqn:Hall.
  - right. exists devices, entries. split; [done |]. split; [done |].
    apply awaitAll_map_inv in Hall.
    induction Hall as [| d entry ds es Hd _ IH]; [done |].
    cbn [map]. f_equal; [by apply entry_deviceId | done].
  - exfalso. apply awaitAll_Throw_inv, in_map_iff in Hall as (d & Hd & _).
    by apply entry_never_throws in Hd.
  - by left.
Qed.
End ScreenshotFacts.

(** X11 at a listing with two [.png] objects, an older and a younger. *)
Lemma screenshot_is_latest_png_witness :
  let contents :=
    [mkObject (Some "tv-1/0900.png") (Some 900);
     mkObject (Some "tv-1/notes.txt") (Some 2000);
     mkObject (Some "tv-1/1000.png") (Some 1000);
     mkObject None (Some 5000)] in
  (List.filter Screenshots.isPng contents = [] /\
   Screenshots.entry "shots" Fixture.shots Fixture.sign "tv-1" =
     Ok (Screenshots.none "tv-1" None)) \/
  exists latest key,
    In latest contents /\ Key latest = Some key /\
    JS.endsWith key ".png" = true /\
    (forall obj, In obj contents -> Screenshots.isPng obj = true ->
       Screenshots.modified obj <= Screenshots.modified latest) /\
    Screenshots.entry "shots" Fixture.shots Fixture.sign "tv-1" =
      match Fixture.sign "shots" key 3600 with
      | Ok url =>
          Ok {| Screenshots.deviceId := "tv-1";
                Screenshots.screenshotUrl := Some url;
                Screenshots.screenshotKey := Some key;
                Screenshots.lastModified := LastModified latest;
                Screenshots.error := None |}
      | Throw e => Ok (Screenshots.none "tv-1" (Some (message e)))
      | Pending => Pending
      end.
Proof.
  exact (screenshot_is_latest_png "shots" Fixture.shots Fixture.sign "tv-1"
           {| CommonPrefixes := None;
              Contents := Some [mkObject (Some "tv-1/0900.png") (Some 900);
                                mkObject (Some "tv-1/notes.txt") (Some 2000);
                                mkObject (Some "tv-1/1000.png") (Some 1000);
                                mkObject None (Some 5000)] |}
           eq_refl).
Defined.

(** ** The cache in front of the per-ad statistics *)

Section CachedAdsFacts.
Context (s3 s3' : ListObjectsInput -> Outcome ListObjectsOutput)
        (send send' : Command -> Outcome QueryOutput).
Implicit Types
  (cache : gmap string (Cache.CacheEntry (string * list DeviceAds.AdStat))).

(** X13. A computed reply is served again: after a request that was
    answered with computed statistics and stored them at [later], a
    request for the same device within 30 seconds of [later] gets the
    same body without a look at the storage service or the store,
    whatever they hold by then, and leaves the cache as it is; a
    request with [refresh=true] computes anew. *)
Theorem deviceAds_served_from_cache cache (now later now' later' : Z)
    (fuel fuel' : nat) (deviceId : string)
    (response : string * list DeviceAds.AdStat) :
  DeviceAds.getDeviceAdStats s3 send fuel deviceId = Ok (Http.Success response) ->
  now' - later <= Cache.CACHE_TTL ->
  let first := CachedAds.getDeviceAdStats s3 send cache true now later fuel deviceId in
  fst first = Ok (Http.Success response) /\
  CachedAds.getDeviceAdStats s3' send' (snd first) false now' later' fuel' deviceId =
    (Ok (Http.Success response), snd first) /\
  fst (CachedAds.getDeviceAdStats s3' send' (snd first) true now' later' fuel'
         deviceId) =
    DeviceAds.getDeviceAdStats s3' send' fuel' deviceId.
Proof.
  intros Hcompute Hfresh first.
  assert (first = (Ok (Http.Success response),
                   Cache.setCached cache deviceId response later)) as ->.
  { unfold first, CachedAds.getDeviceAdStats. by rewrite Hcompute. }
  cbn [fst snd]. split; [done |]. split.
  - unfold CachedAds.getDeviceAdStats.
    by rewrite (getCached_fresh _ _ response later _ _ (setCached_lookup _ _ _ _)).
  - unfold CachedAds.getDeviceAdStats.
    by destruct (DeviceAds.getDeviceAdStats s3' send' fuel' deviceId)
      as [[body | status body] | e |].
Qed.

(** X14. An entry older than 30 seconds is never served: the request
    is answered with what the computation gives, and the entry is
    replaced by the computed statistics or, when the computation does
    not give any, dropped from the cache. *)
Theorem deviceAds_stale_entry_dropped cache (entry : Cache.CacheEntry _)
    (now later : Z) (fuel : nat) (deviceId : string) :
  cache !! deviceId = Some entry ->
  Cache.CACHE_TTL < now - Cache.timestamp entry ->
  let computed := DeviceAds.getDeviceAdStats s3 send fuel deviceId in
  let result := CachedAds.getDeviceAdStats s3 send cache false now later fuel deviceId in
  fst result = computed /\
  snd result !! deviceId =
    match computed with
    | Ok (Http.Success response) => Some (Cache.mkEntry response later)
    | _ => None
    end /\
  forall other, other <> deviceId -> snd result !! other = cache !! other.
Proof.
  intros Hentry Hstale computed result. destruct entry as [v t0].
  unfold result, CachedAds.getDeviceAdStats.
  rewrite (getCached_stale _ _ v t0 _ _ Hentry Hstale). fold computed.
  destruct computed as [[response | status body] | e |]; cbn [fst snd];
    (split; [done |]); unfold Cache.setCached.
  - split; [by rewrite lookup_insert_eq |].
    intros other Hother. rewrite lookup_insert_ne by done.
    by rewrite lookup_delete_ne.
  - split; [by rewrite lookup_delete_eq |].
    intros other Hother. by rewrite lookup_delete_ne.
  - split; [by rewrite lookup_delete_eq |].
    intros other Hother. by rewrite lookup_delete_ne.
  - split; [by rewrite lookup_delete_eq |].
    intros other Hother. by rewrite lookup_delete_ne.
Qed.
End CachedAdsFacts.

(** X13 at the sample store, then at a storage service that refuses
    every listing. *)
Lemma deviceAds_served_from_cache_witness :
  exists response,
    let first :=
      CachedAds.getDeviceAdStats Sample.s3 Sample.send ∅ true 0 100 5 "tv-1" in
    fst first = Ok (Http.Success response) /\
    CachedAds.getDeviceAdStats Fixture.closed Fixture.partial (snd first) false
      30100 30200 5 "tv-1" =
      (Ok (Http.Success response), snd first) /\
    fst (CachedAds.getDeviceAdStats Fixture.closed Fixture.partial (snd first) true
           30100 30200 5 "tv-1") =
      DeviceAds.getDeviceAdStats Fixture.closed Fixture.partial 5 "tv-1".
Proof.
  eexists.
  apply (deviceAds_served_from_cache Sample.s3 Fixture.closed Sample.send
           Fixture.partial ∅ 0 100 30100 30200 5 5 "tv-1").
  - reflexivity.
  - unfold Cache.CACHE_TTL. lia.
Defined.

(** X14 at an entry written at 0 and read at 40000, when the storage
    service refuses the listing. *)
Lemma deviceAds_stale_entry_dropped_witness :
  let cache := Cache.setCached ∅ "tv-1" ("tv-1", []) 0 in
  let computed := DeviceAds.getDeviceAdStats Fixture.closed Sample.send 5 "tv-1" in
  let result :=
    CachedAds.getDeviceAdStats Fixture.closed Sample.send cache false 40000 40100 5
      "tv-1" in
  fst result = computed /\
  snd result !! "tv-1" =
    match computed with
    | Ok (Http.Success response) => Some (Cache.mkEntry response 40100)
    | _ => None
    end /\
  forall other, other <> "tv-1" -> snd result !! other = cache !! other.
Proof.
  apply (deviceAds_stale_entry_dropped Fixture.closed Sample.send
           (Cache.setCached ∅ "tv-1" ("tv-1", []) 0)
           (Cache.mkEntry ("tv-1", []) 0) 40000 40100 5 "tv-1").
  - apply setCached_lookup.
  - unfold Cache.CACHE_TTL. simpl. lia.
Defined.

(** ** The query of [POST /api/stats] *)

Section StatsQuery.

(** X15. In a query that [POST /api/stats] builds, the values defined
    are exactly the placeholders of values the key condition mentions,
    in the order of their mention. The names defined are the
    placeholders of names it mentions, except for a body that names a
    sort key and gives no value for it: then [#sk] is defined and the
    condition does not mention it. *)
Theorem commandOf_placeholders (table : string) (body : Stats.Body)
    (params : QueryParams) :
  Stats.commandOf table body = QueryCommand params ->
  map fst (ExpressionAttributeValues params) =
    Expr.valueRefs (KeyConditionExpression params) /\
  map fst (ExpressionAttributeNames params) =
    Expr.nameRefs (KeyConditionExpression params) ++
    (if Expr.bareSortKey body then ["#sk"] else []).
Proof.
  destruct body as [tn lim pk pv sk v lo hi idx].
  unfold Stats.commandOf, Expr.bareSortKey, Stats.sortCondition.
  cbn [Stats.partitionKey Stats.partitionValue Stats.sortKey Stats.sortValue
       Stats.sortValueStart Stats.sortValueEnd Stats.b_limit Stats.indexName].
  destruct pk as [pk |]; [| done]. destruct pv as [pv |]; [| done].
  destruct (String.eqb pk ""); [done |]. cbn [negb].
  destruct sk as [sk |]; [destruct (String.eqb sk "") |];
    destruct lo as [lo |], hi as [hi |], v as [v |];
    intros [= <-]; by vm_compute.
Qed.

(** X16. The precedence of the sort-key conditions: with both bounds
    of a range the exact value plays no part in the command, and with
    an exact value a single bound plays none. *)
Theorem sortCondition_precedence (table : string) (tn : option string)
    (lim : option JsVal) (pk : option string) (pv : option JsVal)
    (sk : option string) (v v' : option JsVal) (lo hi bound : JsVal)
    (exact : JsVal) (idx : option string) :
  Stats.commandOf table (Stats.mkBody tn lim pk pv sk v (Some lo) (Some hi) idx) =
    Stats.commandOf table (Stats.mkBody tn lim pk pv sk v' (Some lo) (Some hi) idx) /\
  Stats.commandOf table (Stats.mkBody tn lim pk pv sk (Some exact) (Some bound) None idx) =
    Stats.commandOf table (Stats.mkBody tn lim pk pv sk (Some exact) None None idx) /\
  Stats.commandOf table (Stats.mkBody tn lim pk pv sk (Some exact) None (Some bound) idx) =
    Stats.commandOf table (Stats.mkBody tn lim pk pv sk (Some exact) None None idx).
Proof.
  unfold Stats.commandOf, Stats.sortCondition.
  cbn [Stats.partitionKey Stats.partitionValue Stats.sortKey Stats.sortValue
       Stats.sortValueStart Stats.sortValueEnd Stats.b_limit Stats.indexName].
  by destruct v, v'.
Qed.
End StatsQuery.

(** X15 at a request for the plays of a device between two instants. *)
Lemma commandOf_placeholders_witness :
  let params :=
    {| TableName := "attentv-ad-plays-prod";
       IndexName := Some "device-index";
       KeyConditionExpression :=
         "#pk = :pk AND #sk BETWEEN :sk_start AND :sk_end";
       FilterExpression := None;
       ExpressionAttributeNames := [("#pk", "device_id"); ("#sk", "timestamp")];
       ExpressionAttributeValues :=
         [(":pk", VStr "tv-1"); (":sk_start", VStr "2025-01-01");
          (":sk_end", VStr "2025-02-01")];
       ExclusiveStartKey := None;
       Limit := Some (VNum 100) |} in
  map fst (ExpressionAttributeValues params) =
    Expr.valueRefs (KeyConditionExpression params) /\
  map fst (ExpressionAttributeNames params) =
    Expr.nameRefs (KeyConditionExpression params) ++
    (if Expr.bareSortKey Fixture.between then ["#sk"] else []).
Proof.
  exact (commandOf_placeholders "attentv-ad-plays-prod" Fixture.between _ eq_refl).
Defined.

(** ** When a listing of the storage service fails *)

Section ListingFailure.
Context (s3 : ListObjectsInput -> Outcome ListObjectsOutput)
        (send : Command -> Outcome QueryOutput).

(** X17. A failure of the listing of the devices reaches the client of
    [GET /api/devices] only: that route answers with status 500, while
    the helper [getAllDevices] turns the failure into an empty list, so
    the leaderboard, the comparison of the devices and the screenshots
    answer with a success that holds nothing. *)
Theorem device_listing_failure (e : Error) (fuel : nat)
    (limitParam : option Z) (sortByParam : option string)
    (bucket : string) (getSignedUrl : string -> string -> Z -> Outcome string) :
  Listing.listPrefixes s3 = Throw e ->
  Listing.getDevices s3 =
    Ok (Http.Failure 500
          {| Http.error := Http.messageOr e "Failed to list devices";
             Http.code := Some (name e) |}) /\
  Leaderboard.getLeaderboard s3 send fuel limitParam sortByParam =
    Ok (Http.Success {| Leaderboard.ads := []; Leaderboard.total := 0 |}) /\
  Comparison.getComparison s3 send fuel = Ok (Http.Success []) /\
  Screenshots.getScreenshots bucket s3 getSignedUrl = Ok (Http.Success []).
Proof.
  intros Hlist.
  assert (Listing.getAllDevices s3 = Ok []) as Hdev
    by (unfold Listing.getAllDevices; by rewrite Hlist).
  split; [unfold Listing.getDevices; by rewrite Hlist |].
  split; [| split].
  - unfold Leaderboard.getLeaderboard. rewrite Hdev.
    cbn [mbind Outcome_bind Leaderboard.collectAds map awaitAll tryCatch].
    unfold Leaderboard.rank. cbn [JS.sort fold_right length].
    by destruct (Leaderboard.limitOf limitParam).
  - unfold Comparison.getComparison. by rewrite Hdev.
  - unfold Screenshots.getScreenshots. by rewrite Hdev.
Qed.

Lemma collectAds_Throw (devices : list string) (acc : list string)
    (d : string) (e : Error) :
  In d devices -> Listing.listObjects s3 d = Throw e ->
  (forall d', In d' devices -> Listing.listObjects s3 d' <> Pending) ->
  exists d' e',
    In d' devices /\ Listing.listObjects s3 d' = Throw e' /\
    Leaderboard.collectAds s3 devices acc = Throw e'.
Proof.
  revert acc. induction devices as [| d0 devices IH]; intros acc Hd He Hsettle;
    [done |].
  cbn [Leaderboard.collectAds].
  destruct (Listing.listObjects s3 d0) as [response | e0 |] eqn:H0.
  - cbn [mbind Outcome_bind].
    destruct Hd as [-> | Hd]; [congruence |].
    destruct (IH (fold_left Leaderboard.add
                    (Listing.adsOf (Listing.devicePrefix d0) response) acc) Hd He)
      as (d' & e' & Hd' & He' & Hrun).
    { intros d' Hin. apply Hsettle. by right. }
    exists d', e'. split; [by right | by split].
  - exists d0, e0. split; [by left | by split].
  - exfalso. by apply (Hsettle d0 ltac:(by left)).
Qed.

(** X18. The leaderboard absorbs the failure of a query of the store
    but not that of a listing: when the objects of one listed device
    cannot be listed, the whole request is answered with status 500
    and the name of the error of a failed listing. *)
Theorem leaderboard_object_listing_failure (devices : list string)
    (d : string) (e : Error) (fuel : nat)
    (limitParam : option Z) (sortByParam : option string) :
  Listing.getAllDevices s3 = Ok devices ->
  In d devices -> Listing.listObjects s3 d = Throw e ->
  (forall d', In d' devices -> Listing.listObjects s3 d' <> Pending) ->
  exists d' e',
    In d' devices /\ Listing.listObjects s3 d' = Throw e' /\
    Leaderboard.getLeaderboard s3 send fuel limitParam sortByParam =
      Ok (Http.Failure 500
            {| Http.error := Http.messageOr e' "Failed to fetch ads leaderboard";
               Http.code := Some (name e') |}).
Proof.
  intros Hdev Hd He Hsettle.
  destruct (collectAds_Throw devices [] d e Hd He Hsettle)
    as (d' & e' & Hd' & He' & Hrun).
  exists d', e'. split; [done |]. split; [done |].
  unfold Leaderboard.getLeaderboard. rewrite Hdev.
  cbn [mbind Outcome_bind]. by rewrite Hrun.
Qed.
End ListingFailure.

(** X17 at a storage service that refuses every listing. *)
Lemma device_listing_failure_witness :
  Listing.getDevices Fixture.closed =
    Ok (Http.Failure 500
          {| Http.error := Http.messageOr Fixture.denied "Failed to list devices";
             Http.code := Some (name Fixture.denied) |}) /\
  Leaderboard.getLeaderboard Fixture.closed Sample.send 5 None None =
    Ok (Http.Success {| Leaderboard.ads := []; Leaderboard.total := 0 |}) /\
  Comparison.getComparison Fixture.closed Sample.send 5 = Ok (Http.Success []) /\
  Screenshots.getScreenshots "shots" Fixture.closed Fixture.sign =
    Ok (Http.Success []).
Proof.
  apply (device_listing_failure Fixture.closed Sample.send Fixture.denied 5 None None
           "shots" Fixture.sign).
  reflexivity.
Defined.

(** X18 at a bucket whose second device cannot be listed. *)
Lemma leaderboard_object_listing_failure_witness :
  exists d' e',
    In d' ["tv-1"; "tv-2"] /\ Listing.listObjects Fixture.shots d' = Throw e' /\
    Leaderboard.getLeaderboard Fixture.shots Sample.send 5 None None =
      Ok (Http.Failure 500
            {| Http.error := Http.messageOr e' "Failed to fetch ads leaderboard";
               Http.code := Some (name e') |}).
Proof.
  apply (leaderboard_object_listing_failure Fixture.shots Sample.send
           ["tv-1"; "tv-2"] "tv-2" Fixture.denied 5 None None).
  - reflexivity.
  - right. by left.
  - reflexivity.
  - intros d' [<- | [<- | []]]; discriminate.
Defined.

(** ** The device count of the leaderboard *)

Section DeviceCountRoute.
Context (s3 : ListObjectsInput -> Outcome ListObjectsOutput)
        (send : Command -> Outcome QueryOutput).

Lemma slice0_In {A : Type} (l : list A) (e : Z) (x : A) :
  In x (JS.slice0 l e) -> In x l.
Proof.
  unfold JS.slice0. intros Hin.
  rewrite <- (firstn_skipn (Z.to_nat
    (if e <? 0 then Z.max (Z.of_nat (length l) + e) 0
     else Z.min e (Z.of_nat (length l)))) l).
  apply in_app_iff. by left.
Qed.

Lemma Forall2_In_right {A B : Type} (P : A -> B -> Prop) (l : list A)
    (k : list B) (y : B) :
  List.Forall2 P l k -> In y k -> exists x, In x l /\ P x y.
Proof.
  induction 1 as [| x y' l k Hxy _ IH]; [done |].
  intros [-> | Hin]; [exists x; split; [by left | done] |].
  destruct (IH Hin) as (x' & Hx' & HP). exists x'. split; [by right | done].
Qed.

Lemma adStat_deviceCount (fuel : nat) (devices : list string) (ad : string)
    (stat : Leaderboard.AdStat) :
  Spec.alwaysItems send ->
  Leaderboard.adStat send fuel devices ad = Ok stat ->
  Leaderboard.error stat = None ->
  Leaderboard.deviceCount stat =
    Z.of_nat (size (list_to_set devices : gset string)).
Proof.
  intros Hitems. rewrite board_adStat_cases.
  destruct (Leaderboard.perDevice send fuel ad devices ([], ∅))
    as [acc | e |] eqn:Hrun; intros H; [| | done]; injection H as <-; [| done].
  intros _. apply perDevice_deviceSet in Hrun; [| done].
  cbn [Leaderboard.aggregate Leaderboard.deviceCount]. rewrite Hrun.
  cbn [snd]. by rewrite (right_id_L ∅ (∪)).
Qed.

(** X19. When the store answers every query with an array of records,
    every entry of the leaderboard that carries no error reports the
    same device count: the number of the listed devices, whether they
    have played the ad or not. *)
Theorem leaderboard_deviceCount_is_listing_size (fuel : nat)
    (limitParam : option Z) (sortByParam : option string)
    (board : Leaderboard.Board) :
  Spec.alwaysItems send ->
  Leaderboard.getLeaderboard s3 send fuel limitParam sortByParam =
    Ok (Http.Success board) ->
  exists devices,
    Listing.getAllDevices s3 = Ok devices /\
    List.Forall
      (fun stat =>
         Leaderboard.error stat = None ->
         Leaderboard.deviceCount stat =
           Z.of_nat (size (list_to_set devices : gset string)))
      (Leaderboard.ads board).
Proof.
  intros Hitems Hrun.
  apply getLeaderboard_inv in Hrun
    as (devices & allAds & adStats & Hdev & _ & Hall & ->).
  exists devices. split; [done |].
  apply List.Forall_forall. intros stat Hin.
  unfold Leaderboard.rank in Hin. cbn [Leaderboard.ads] in Hin.
  apply slice0_In in Hin.
  apply (Permutation_in _ (sort_Permutation _ _)) in Hin.
  apply awaitAll_map_inv in Hall.
  destruct (Forall2_In_right _ _ _ _ Hall Hin) as (ad & _ & Had).
  by apply (adStat_deviceCount fuel devices ad).
Qed.
End DeviceCountRoute.

Lemma sample_send_alwaysItems : Spec.alwaysItems Sample.send.
Proof.
  intros cmd out Hsend. unfold Sample.send in Hsend.
  repeat case_match; simplify_eq; done.
Qed.

(** X19 at the sample bucket and store. *)
Lemma leaderboard_deviceCount_is_listing_size_witness :
  exists devices,
    Listing.getAllDevices Sample.s3 = Ok devices /\
    List.Forall
      (fun stat =>
         Leaderboard.error stat = None ->
         Leaderboard.deviceCount stat =
           Z.of_nat (size (list_to_set devices : gset string)))
      (Leaderboard.ads
         (Leaderboard.rank "plays" 20
            (map (fun ad =>
                    match Leaderboard.adStat Sample.send 5 ["tv-1"; "tv-2"] ad with
                    | Ok stat => stat
                    | _ => Leaderboard.degraded ad Sample.throttled
                    end) ["shoes.mp4"; "duck.mp4"]))).
Proof.
  apply (leaderboard_deviceCount_is_listing_size Sample.s3 Sample.send 5 None None).
  - apply sample_send_alwaysItems.
  - reflexivity.
Defined.

(** ** Plays per day at the edges *)

Section FrequencyEdges.

(** X20. Plays per day of a history that spans no more than a day:
    when the records of a device, or of an ad, have readable
    timestamps no two of which are more than 24 hours apart, the
    average per day is the number of the records itself. *)
Theorem plays_per_day_of_short_history (name : string) (items : list Item)
    (deviceSet : gset string) :
  items <> [] ->
  List.Forall Spec.readable items ->
  (forall a b ta tb, In a items -> In b items ->
     timestamp a = TsAt ta -> timestamp b = TsAt tb ->
     tb - ta <= 1000 * 60 * 60 * 24) ->
  exists q,
    Comparison.avgPlaysPerDay (Comparison.stat name items) = JS.Num q /\
    Leaderboard.frequency (Leaderboard.aggregate name items deviceSet) = JS.Num q /\
    (q == inject_Z (Z.of_nat (length items)))%Q.
Proof.
  intros Hne Hall Hspan.
  destruct (frequency_value items (Z.of_nat (length items)) Hall) as (q & Hq & _ & Hday);
    [lia |].
  exists q. split; [done |]. split; [done |]. by apply Hday.
Qed.

(** X21. Without a readable timestamp there is no average: when no
    record of a non-empty history has a timestamp that [new Date] can
    read, the plays per day are [NaN], for a device and for an ad. *)
Theorem plays_per_day_without_timestamps (name : string) (items : list Item)
    (deviceSet : gset string) :
  items <> [] ->
  List.Forall (fun item => getTime (timestamp item) = None) items ->
  Comparison.avgPlaysPerDay (Comparison.stat name items) = JS.NaN /\
  Leaderboard.frequency (Leaderboard.aggregate name items deviceSet) = JS.NaN.
Proof.
  intros Hne Hall.
  assert (Leaderboard.round2
            (Leaderboard.frequencyOf (JS.sort byTimeAscending items)
               (Z.of_nat (length items))) = JS.NaN) as Hnan.
  { destruct (JS.sort byTimeAscending items) as [| first rest] eqn:Hsort.
    - destruct items as [| x l]; [done |].
      exfalso. by apply (sort_nonempty byTimeAscending x l).
    - assert (In first items) as Hin.
      { apply (Permutation_in _ (sort_Permutation byTimeAscending items)).
        rewrite Hsort. by left. }
      rewrite List.Forall_forall in Hall.
      unfold Leaderboard.frequencyOf. rewrite (Hall first Hin).
      cbn [timeNum]. by destruct (timeNum _). }
  by split.
Qed.
End FrequencyEdges.

(** X20 at three plays within eleven hours. *)
Lemma plays_per_day_of_short_history_witness :
  exists q,
    Comparison.avgPlaysPerDay (Comparison.stat "tv-1" Sample.hours_3_3_14) =
      JS.Num q /\
    Leaderboard.frequency
      (Leaderboard.aggregate "tv-1" Sample.hours_3_3_14 ∅) = JS.Num q /\
    (q == inject_Z (Z.of_nat (length Sample.hours_3_3_14)))%Q.
Proof.
  apply (plays_per_day_of_short_history "tv-1" Sample.hours_3_3_14 ∅).
  - discriminate.
  - repeat constructor; eexists; reflexivity.
  - intros a b ta tb Ha Hb Hta Htb.
    repeat (destruct Ha as [<- | Ha]; [| try done]);
      repeat (destruct Hb as [<- | Hb]; [| try done]);
      cbn in Hta, Htb; injection Hta as <-; injection Htb as <-; lia.
Defined.

(** X21 at a single record that has no timestamp. *)
Lemma plays_per_day_without_timestamps_witness :
  let items := [mkItem "a" "tv-1" (Some "duck.mp4") TsAbsent (Some 5%Q)] in
  Comparison.avgPlaysPerDay (Comparison.stat "tv-1" items) = JS.NaN /\
  Leaderboard.frequency (Leaderboard.aggregate "tv-1" items ∅) = JS.NaN.
Proof.
  apply (plays_per_day_without_timestamps "tv-1"
           [mkItem "a" "tv-1" (Some "duck.mp4") TsAbsent (Some 5%Q)] ∅).
  - discriminate.
  - repeat constructor.
Defined.

(** ** The routes that gather all records *)

Section GatherFacts.
Context (send : Command -> Outcome QueryOutput).
Implicit Types (devices : list string) (items : string -> list Item).

Lemma gatherAll_concat fuel devices items (allItems : list Item) :
  (forall d, In d devices -> Comparison.allItems send fuel d = Ok (items d)) ->
  Aggregate.gatherAll (Aux.stateless send) fuel devices allItems tt =
    (Ok (allItems ++ concat (map items devices)), tt).
Proof.
  revert allItems. induction devices as [| d devices IH]; intros allItems Hwalks.
  - cbn. by rewrite app_nil_r.
  - cbn [Aggregate.gatherAll].
    pose proof (Hwalks d ltac:(by left)) as Hd. unfold Comparison.allItems in Hd.
    destruct (Walker.getAllItemsForDevice (Aux.stateless send) fuel d tt)
      as [r []]. cbn [fst] in Hd. subst r.
    rewrite IH by (intros d' Hd'; apply Hwalks; by right).
    cbn [map concat]. by rewrite app_assoc.
Qed.

Lemma gatherSummary_concat fuel devices items (acc : list Item * (gset string * Q)) :
  (forall d, In d devices -> Comparison.allItems send fuel d = Ok (items d)) ->
  Aggregate.gatherSummary (Aux.stateless send) fuel devices acc tt =
    (Ok (fst acc ++ concat (map items devices),
         fold_left Week.visit (concat (map items devices)) (snd acc)), tt).
Proof.
  revert acc. induction devices as [| d devices IH]; intros acc Hwalks.
  - cbn. rewrite app_nil_r. by destruct acc.
  - cbn [Aggregate.gatherSummary].
    pose proof (Hwalks d ltac:(by left)) as Hd. unfold Comparison.allItems in Hd.
    destruct (Walker.getAllItemsForDevice (Aux.stateless send) fuel d tt)
      as [r []]. cbn [fst] in Hd. subst r.
    rewrite IH by (intros d' Hd'; apply Hwalks; by right).
    cbn [map concat fst snd]. by rewrite app_assoc, fold_left_app.
Qed.

Lemma filter_length_le {A : Type} (p : A -> bool) (l : list A) :
  (length (List.filter p l) <= length l)%nat.
Proof.
  induction l as [| x l IH]; simpl; [lia |]. destruct (p x); simpl; lia.
Qed.

Lemma filter_length_mono {A : Type} (p q : A -> bool) (l : list A) :
  (forall x, p x = true -> q x = true) ->
  (length (List.filter p l) <= length (List.filter q l))%nat.
Proof.
  intros Hpq. induction l as [| x l IH]; simpl; [lia |].
  destruct (p x) eqn:Hp.
  - rewrite (Hpq x Hp). simpl. lia.
  - destruct (q x); simpl; lia.
Qed.
End GatherFacts.

Section GatherRoutes.
Context (s3 : ListObjectsInput -> Outcome ListObjectsOutput)
        (send : Command -> Outcome QueryOutput).

(** X22. The routes of the hourly patterns, of the days of the week
    and of the week comparison compute over the records of all listed
    devices, device after device in the order of the listing and, for
    each device, in the order of its pages. *)
Theorem aggregate_routes_gather_in_order (devices : list string)
    (items : string -> list Item) (fuel : nat) (includeDayOfWeek : bool)
    (now : Z) :
  Listing.getAllDevices s3 = Ok devices ->
  (forall d, In d devices -> Comparison.allItems send fuel d = Ok (items d)) ->
  let allItems := concat (map items devices) in
  fst (Aggregate.getHourlyPatterns s3 (Aux.stateless send) includeDayOfWeek fuel tt) =
    Ok (Http.Success (Hourly.hourlyPatterns includeDayOfWeek allItems)) /\
  fst (Aggregate.getDayOfWeek s3 (Aux.stateless send) fuel tt) =
    Ok (Http.Success (DayOfWeek.dayOfWeekPatterns allItems)) /\
  fst (Aggregate.getWeekComparison s3 (Aux.stateless send) now fuel tt) =
    Ok (Http.Success (Week.weekComparison now allItems)).
Proof.
  intros Hdev Hwalks allItems.
  unfold Aggregate.getHourlyPatterns, Aggregate.getDayOfWeek,
    Aggregate.getWeekComparison, Aggregate.route.
  rewrite Hdev, (gatherAll_concat send fuel devices items [] Hwalks).
  by repeat split.
Qed.

(** X23. The summary over all devices, when every walk succeeds: the
    total is the number of all records and the device count that of
    the listing; the distinct ads and the total duration are those the
    week statistics would compute over all records, so the distinct
    ads are no more than the plays; each window counts between 0 and
    all plays, and the windows are nested when the comparison of a
    timestamp with a bound carries over to every earlier bound. *)
Theorem summary_totals (atLeast : Item -> Z -> bool) (devices : list string)
    (items : string -> list Item) (fuel : nat) (now : Z) :
  Listing.getAllDevices s3 = Ok devices ->
  (forall d, In d devices -> Comparison.allItems send fuel d = Ok (items d)) ->
  let allItems := concat (map items devices) in
  exists body,
    fst (Aggregate.getSummary s3 (Aux.stateless send) atLeast now fuel tt) =
      Ok (Http.Success body) /\
    Aggregate.totalPlays body = Z.of_nat (length allItems) /\
    Aggregate.activeDevices body = Z.of_nat (length devices) /\
    Aggregate.uniqueAds body = Week.uniqueAds (Week.getWeekStats allItems) /\
    Aggregate.totalDuration body = Week.duration (Week.getWeekStats allItems) /\
    0 <= Aggregate.uniqueAds body <= Aggregate.totalPlays body /\
    0 <= Aggregate.totalPlays24hr body <= Aggregate.totalPlays body /\
    0 <= Aggregate.totalPlays7d body <= Aggregate.totalPlays body /\
    0 <= Aggregate.totalPlays30d body <= Aggregate.totalPlays body /\
    ((forall item a b, b <= a -> atLeast item a = true -> atLeast item b = true) ->
     Aggregate.totalPlays24hr body <= Aggregate.totalPlays7d body <=
       Aggregate.totalPlays30d body).
Proof.
  intros Hdev Hwalks allItems.
  eexists. split.
  { unfold Aggregate.getSummary, Aggregate.route.
    rewrite Hdev, (gatherSummary_concat send fuel devices items _ Hwalks).
    cbn [fst snd app tryCatch mbind Outcome_bind]. reflexivity. }
  fold allItems. unfold Aggregate.summaryOf.
  cbn [fst snd Aggregate.totalPlays Aggregate.activeDevices Aggregate.uniqueAds
       Aggregate.totalDuration Aggregate.totalPlays24hr Aggregate.totalPlays7d
       Aggregate.totalPlays30d].
  split; [done |]. split; [done |]. split; [done |]. split; [done |].
  split; [apply (getWeekStats_uniqueAds allItems) |].
  split; [pose proof (filter_length_le
            (fun item => atLeast item (now - 24 * 60 * 60 * 1000)) allItems); lia |].
  split; [pose proof (filter_length_le
            (fun item => atLeast item (now - 7 * 24 * 60 * 60 * 1000)) allItems);
          lia |].
  split; [pose proof (filter_length_le
            (fun item => atLeast item (now - 30 * 24 * 60 * 60 * 1000)) allItems);
          lia |].
  intros Hmono.
  pose proof (filter_length_mono
                (fun item => atLeast item (now - 24 * 60 * 60 * 1000))
                (fun item => atLeast item (now - 7 * 24 * 60 * 60 * 1000)) allItems)
    as H1.
  pose proof (filter_length_mono
                (fun item => atLeast item (now - 7 * 24 * 60 * 60 * 1000))
                (fun item => atLeast item (now - 30 * 24 * 60 * 60 * 1000)) allItems)
    as H2.
  split.
  - apply Nat2Z.inj_le, H1. intros x. apply Hmono. lia.
  - apply Nat2Z.inj_le, H2. intros x. apply Hmono. lia.
Qed.
End GatherRoutes.

Section GatherFailure.
Context (s3 : ListObjectsInput -> Outcome ListObjectsOutput)
        (send : Command -> Outcome QueryOutput).

Lemma about_more (ds ds' : list string) (cmds : list Command) :
  (forall d, In d ds -> In d ds') ->
  List.Forall (Aux.about ds) cmds -> List.Forall (Aux.about ds') cmds.
Proof.
  intros Hsub. apply List.Forall_impl. intros cmd (d & k & Hd & ->).
  exists d, k. split; [by apply Hsub | done].
Qed.

(** The walk on the logged store is the walk on the store, and it
    logs queries about its device only. *)
Lemma walk_logged fuel d (items : list Item) start log :
  exists cmds,
    Walker.walk (Aux.logged send) fuel d items start (tt, log) =
      (fst (Walker.walk (Aux.stateless send) fuel d items start tt),
       (tt, log ++ cmds)) /\
    List.Forall (Aux.about [d]) cmds.
Proof.
  revert items start log.
  induction fuel as [| fuel IH]; intros items start log.
  - exists []. cbn. by rewrite app_nil_r.
  - cbn [Walker.walk].
    change (Aux.logged send (QueryCommand (Walker.queryParams d start)) (tt, log))
      with (send (QueryCommand (Walker.queryParams d start)),
            (tt, log ++ [QueryCommand (Walker.queryParams d start)])).
    change (Aux.stateless send (QueryCommand (Walker.queryParams d start)) tt)
      with (send (QueryCommand (Walker.queryParams d start)), tt).
    assert (Aux.about [d] (QueryCommand (Walker.queryParams d start))) as Hcmd
      by (exists d, start; split; [by left | done]).
    destruct (send (QueryCommand (Walker.queryParams d start)))
      as [response | e |].
    + destruct (LastEvaluatedKey response) as [key |].
      * destruct (IH (match Items response with
                      | Some page => items ++ page
                      | None => items
                      end) (Some key)
                     (log ++ [QueryCommand (Walker.queryParams d start)]))
          as (cmds & -> & Hcmds).
        exists (QueryCommand (Walker.queryParams d start) :: cmds).
        split; [by rewrite <- app_assoc | by constructor].
      * exists [QueryCommand (Walker.queryParams d start)].
        split; [done | by constructor].
    + exists [QueryCommand (Walker.queryParams d start)].
      split; [done | by constructor].
    + exists [QueryCommand (Walker.queryParams d start)].
      split; [done | by constructor].
Qed.

Lemma gatherAll_stops fuel (pre post : list string) (d : string) (e : Error)
    (items : string -> list Item) (allItems : list Item) log :
  (forall d', In d' pre -> Comparison.allItems send fuel d' = Ok (items d')) ->
  Comparison.allItems send fuel d = Throw e ->
  exists cmds,
    Aggregate.gatherAll (Aux.logged send) fuel (pre ++ d :: post) allItems (tt, log) =
      (Throw e, (tt, log ++ cmds)) /\
    List.Forall (Aux.about (pre ++ [d])) cmds.
Proof.
  intros Hpre Hd. revert allItems log.
  induction pre as [| p pre IH]; intros allItems log.
  - cbn [app Aggregate.gatherAll]. unfold Walker.getAllItemsForDevice.
    destruct (walk_logged fuel d [] None log) as (cmds & -> & Hcmds).
    unfold Comparison.allItems, Walker.getAllItemsForDevice in Hd. rewrite Hd.
    by exists cmds.
  - cbn [app Aggregate.gatherAll]. unfold Walker.getAllItemsForDevice.
    destruct (walk_logged fuel p [] None log) as (cmds & -> & Hcmds).
    pose proof (Hpre p ltac:(by left)) as Hp.
    unfold Comparison.allItems, Walker.getAllItemsForDevice in Hp. rewrite Hp.
    destruct (IH (fun d' Hd' => Hpre d' (or_intror Hd')) (allItems ++ items p)
                 (log ++ cmds)) as (cmds' & -> & Hcmds').
    exists (cmds ++ cmds'). split; [by rewrite app_assoc |].
    apply List.Forall_app. split.
    + eapply about_more; [| exact Hcmds]. intros d' [<- | []]. by left.
    + eapply about_more; [| exact Hcmds']. intros d' Hd'. by right.
Qed.

Lemma gatherSummary_stops fuel (pre post : list string) (d : string) (e : Error)
    (items : string -> list Item) (acc : list Item * (gset string * Q)) log :
  (forall d', In d' pre -> Comparison.allItems send fuel d' = Ok (items d')) ->
  Comparison.allItems send fuel d = Throw e ->
  exists cmds,
    Aggregate.gatherSummary (Aux.logged send) fuel (pre ++ d :: post) acc (tt, log) =
      (Throw e, (tt, log ++ cmds)) /\
    List.Forall (Aux.about (pre ++ [d])) cmds.
Proof.
  intros Hpre Hd. revert acc log.
  induction pre as [| p pre IH]; intros acc log.
  - cbn [app Aggregate.gatherSummary]. unfold Walker.getAllItemsForDevice.
    destruct (walk_logged fuel d [] None log) as (cmds & -> & Hcmds).
    unfold Comparison.allItems, Walker.getAllItemsForDevice in Hd. rewrite Hd.
    by exists cmds.
  - cbn [app Aggregate.gatherSummary]. unfold Walker.getAllItemsForDevice.
    destruct (walk_logged fuel p [] None log) as (cmds & -> & Hcmds).
    pose proof (Hpre p ltac:(by left)) as Hp.
    unfold Comparison.allItems, Walker.getAllItemsForDevice in Hp. rewrite Hp.
    destruct (IH (fun d' Hd' => Hpre d' (or_intror Hd'))
                 (fst acc ++ items p, fold_left Week.visit (items p) (snd acc))
                 (log ++ cmds)) as (cmds' & -> & Hcmds').
    exists (cmds ++ cmds'). split; [by rewrite app_assoc |].
    apply List.Forall_app. split.
    + eapply about_more; [| exact Hcmds]. intros d' [<- | []]. by left.
    + eapply about_more; [| exact Hcmds']. intros d' Hd'. by right.
Qed.

(** X24. The routes that gather all records stop at the first walk
    that is rejected: they answer with status 500 and the error of
    that walk, under the message of the route when the error has none,
    and by then the store has seen queries about the devices up to the
    failing one only. *)
Theorem aggregate_routes_stop_at_failure (atLeast : Item -> Z -> bool)
    (pre post : list string) (d : string) (e : Error)
    (items : string -> list Item) (fuel : nat) (includeDayOfWeek : bool)
    (now : Z) :
  Listing.getAllDevices s3 = Ok (pre ++ d :: post) ->
  (forall d', In d' pre -> Comparison.allItems send fuel d' = Ok (items d')) ->
  Comparison.allItems send fuel d = Throw e ->
  let failure fallback :=
    {| Http.error := Http.messageOr e fallback; Http.code := Some (name e) |} in
  (exists cmds,
     Aggregate.getHourlyPatterns s3 (Aux.logged send) includeDayOfWeek fuel (tt, []) =
       (Ok (Http.Failure 500 (failure "Failed to fetch hourly patterns")),
        (tt, cmds)) /\
     List.Forall (Aux.about (pre ++ [d])) cmds) /\
  (exists cmds,
     Aggregate.getDayOfWeek s3 (Aux.logged send) fuel (tt, []) =
       (Ok (Http.Failure 500 (failure "Failed to fetch day of week patterns")),
        (tt, cmds)) /\
     List.Forall (Aux.about (pre ++ [d])) cmds) /\
  (exists cmds,
     Aggregate.getWeekComparison s3 (Aux.logged send) now fuel (tt, []) =
       (Ok (Http.Failure 500 (failure "Failed to fetch week comparison")),
        (tt, cmds)) /\
     List.Forall (Aux.about (pre ++ [d])) cmds) /\
  (exists cmds,
     Aggregate.getSummary s3 (Aux.logged send) atLeast now fuel (tt, []) =
       (Ok (Http.Failure 500 (failure "Failed to fetch aggregate summary")),
        (tt, cmds)) /\
     List.Forall (Aux.about (pre ++ [d])) cmds).
Proof.
  intros Hdev Hpre Hd failure.
  destruct (gatherAll_stops fuel pre post d e items [] [] Hpre Hd)
    as (cmds & Hrun & Hcmds).
  destruct (gatherSummary_stops fuel pre post d e items ([], (∅, 0%Q)) [] Hpre Hd)
    as (cmds' & Hrun' & Hcmds').
  unfold Aggregate.getHourlyPatterns, Aggregate.getDayOfWeek,
    Aggregate.getWeekComparison, Aggregate.getSummary, Aggregate.route.
  rewrite Hdev, Hrun, Hrun'. cbn [app].
  repeat split; eexists; (split; [reflexivity | done]).
Qed.
End GatherFailure.

(** X22 at a store in which one of the two devices has three plays. *)
Lemma aggregate_routes_gather_in_order_witness :
  let allItems := concat (map Fixture.recordsOf ["tv-1"; "tv-2"]) in
  fst (Aggregate.getHourlyPatterns Sample.s3 (Aux.stateless Fixture.plays) true 5 tt) =
    Ok (Http.Success (Hourly.hourlyPatterns true allItems)) /\
  fst (Aggregate.getDayOfWeek Sample.s3 (Aux.stateless Fixture.plays) 5 tt) =
    Ok (Http.Success (DayOfWeek.dayOfWeekPatterns allItems)) /\
  fst (Aggregate.getWeekComparison Sample.s3 (Aux.stateless Fixture.plays)
         200000000 5 tt) =
    Ok (Http.Success (Week.weekComparison 200000000 allItems)).
Proof.
  apply (aggregate_routes_gather_in_order Sample.s3 Fixture.plays ["tv-1"; "tv-2"]
           Fixture.recordsOf 5 true 200000000).
  - reflexivity.
  - intros d [<- | [<- | []]]; reflexivity.
Defined.

(** X23 at the same store, with timestamps compared as instants. *)
Lemma summary_totals_witness :
  let allItems := concat (map Fixture.recordsOf ["tv-1"; "tv-2"]) in
  exists body,
    fst (Aggregate.getSummary Sample.s3 (Aux.stateless Fixture.plays)
           Fixture.atLeast 200000000 5 tt) = Ok (Http.Success body) /\
    Aggregate.totalPlays body = Z.of_nat (length allItems) /\
    Aggregate.activeDevices body = Z.of_nat (length ["tv-1"; "tv-2"]) /\
    Aggregate.uniqueAds body = Week.uniqueAds (Week.getWeekStats allItems) /\
    Aggregate.totalDuration body = Week.duration (Week.getWeekStats allItems) /\
    0 <= Aggregate.uniqueAds body <= Aggregate.totalPlays body /\
    0 <= Aggregate.totalPlays24hr body <= Aggregate.totalPlays body /\
    0 <= Aggregate.totalPlays7d body <= Aggregate.totalPlays body /\
    0 <= Aggregate.totalPlays30d body <= Aggregate.totalPlays body /\
    ((forall item a b, b <= a -> Fixture.atLeast item a = true ->
        Fixture.atLeast item b = true) ->
     Aggregate.totalPlays24hr body <= Aggregate.totalPlays7d body <=
       Aggregate.totalPlays30d body).
Proof.
  apply (summary_totals Sample.s3 Fixture.plays Fixture.atLeast ["tv-1"; "tv-2"]
           Fixture.recordsOf 5 200000000).
  - reflexivity.
  - intros d [<- | [<- | []]]; reflexivity.
Defined.

(** X24 at a store that is down: the first device fails, and the
    second is never asked. *)
Lemma aggregate_routes_stop_at_failure_witness :
  let failure fallback :=
    {| Http.error := Http.messageOr Sample.throttled fallback;
       Http.code := Some (name Sample.throttled) |} in
  (exists cmds,
     Aggregate.getHourlyPatterns Sample.s3 (Aux.logged Fixture.down) false 5 (tt, []) =
       (Ok (Http.Failure 500 (failure "Failed to fetch hourly patterns")),
        (tt, cmds)) /\
     List.Forall (Aux.about ([] ++ ["tv-1"])) cmds) /\
  (exists cmds,
     Aggregate.getDayOfWeek Sample.s3 (Aux.logged Fixture.down) 5 (tt, []) =
       (Ok (Http.Failure 500 (failure "Failed to fetch day of week patterns")),
        (tt, cmds)) /\
     List.Forall (Aux.about ([] ++ ["tv-1"])) cmds) /\
  (exists cmds,
     Aggregate.getWeekComparison Sample.s3 (Aux.logged Fixture.down) 0 5 (tt, []) =
       (Ok (Http.Failure 500 (failure "Failed to fetch week comparison")),
        (tt, cmds)) /\
     List.Forall (Aux.about ([] ++ ["tv-1"])) cmds) /\
  (exists cmds,
     Aggregate.getSummary Sample.s3 (Aux.logged Fixture.down) Fixture.atLeast 0 5
       (tt, []) =
       (Ok (Http.Failure 500 (failure "Failed to fetch aggregate summary")),
        (tt, cmds)) /\
     List.Forall (Aux.about ([] ++ ["tv-1"])) cmds).
Proof.
  apply (aggregate_routes_stop_at_failure Sample.s3 Fixture.down Fixture.atLeast
           [] ["tv-2"] "tv-1" Sample.throttled (fun _ => []) 5 false 0).
  - reflexivity.
  - intros d' [].
  - reflexivity.
Defined.
